(** * smartcomplete: cache, rate limiter, context assembly, prompt rendering

    A shallow embedding of the Go package [smartcomplete] and the
    properties its specification states about it.

    Conventions of the embedding:
    - a Go [string] is a byte sequence: Rocq's [string] (a list of 8-bit
      [ascii]); [len] is its length in bytes;
    - a Go [int] is modelled by [Z]; every place where the code does
      arithmetic on one is bounded by a length or by a configured
      threshold, so no operation of the embedded code can wrap around;
    - [time.Time] and [time.Duration] are integers counting nanoseconds;
      the age that the cache tests against its TTL is the difference of
      two readings as the library gives it, at most the largest Duration;
    - a Go [map] is a [gmap]; the order in which [range] visits a map is
      chosen by the runtime and is an explicit input of the code that
      ranges over one;
    - code that works through a pointer is written in a state monad over
      the object pointed to; objects that are reachable from several
      places (the cached responses) live in an explicit heap. *)

From Stdlib Require Import ZArith Ascii String Floats.
From stdpp Require Import base option list gmap strings fin_maps.

#[local] Open Scope string_scope.
#[local] Open Scope Z_scope.

(** ** State passing *)

Module GoState.

(** A computation that may read and write an object of type [S]. *)
Definition M (S A : Type) : Type := S -> A * S.

Definition ret {S A} (a : A) : M S A := fun s => (a, s).

Definition bind {S A B} (m : M S A) (k : A -> M S B) : M S B :=
  fun s => let (a, s') := m s in k a s'.

Definition gets {S A} (f : S -> A) : M S A := fun s => (f s, s).

Definition modify {S} (f : S -> S) : M S unit := fun s => (tt, f s).

Definition when {S} (b : bool) (m : M S unit) : M S unit :=
  if b then m else ret tt.

Definition run {S A} (m : M S A) (s : S) : A * S := m s.

#[global] Instance M_ret S : MRet (M S) := fun A => @ret S A.
#[global] Instance M_bind S : MBind (M S) := fun A B k m => bind m k.

End GoState.

(** ** Byte strings and the functions of package [strings] the code uses *)

Module GoString.

Definition newline : ascii := "010"%char.
Definition nl : string := String newline "".

Definition len (s : string) : Z := Z.of_nat (String.length s).

(** [s[:n]] *)
Fixpoint take (n : nat) (s : string) : string :=
  match n, s with
  | S k, String c s' => String c (take k s')
  | _, _ => ""
  end.

(** [s[n:]] *)
Fixpoint drop (n : nat) (s : string) : string :=
  match n, s with
  | S k, String _ s' => drop k s'
  | _, _ => s
  end.

Definition slice_to (s : string) (hi : Z) : string := take (Z.to_nat hi) s.
Definition slice_from (s : string) (lo : Z) : string := drop (Z.to_nat lo) s.

(** [strings.Split(s, sep)] for a one-byte separator: one more piece
    than there are separators, so never the empty slice. *)
Fixpoint Split (s : string) (sep : ascii) : list string :=
  match s with
  | "" => [""]
  | String c s' =>
      if Ascii.eqb c sep then "" :: Split s' sep
      else match Split s' sep with
           | piece :: rest => String c piece :: rest
           | [] => [String c ""]
           end
  end.

(** [strings.Join(elems, sep)] *)
Fixpoint Join (elems : list string) (sep : string) : string :=
  match elems with
  | [] => ""
  | [e] => e
  | e :: rest => e +:+ sep +:+ Join rest sep
  end.

(** [strings.Repeat(s, n)], used to build inputs. *)
Fixpoint Repeat (s : string) (n : nat) : string :=
  match n with
  | O => ""
  | S k => s +:+ Repeat s k
  end.

(** [s != ""] *)
Definition nonempty (s : string) : bool :=
  match s with "" => false | _ => true end.

(** [fmt.Sprintf("%d", n)] *)
Fixpoint digits (fuel : nat) (n : Z) (acc : string) : string :=
  match fuel with
  | O => acc
  | S k =>
      let d := ascii_of_nat (48 + Z.to_nat (n mod 10)) in
      if n <? 10 then String d acc else digits k (n / 10) (String d acc)
  end.

Definition itoa (n : Z) : string :=
  if n <? 0 then String "-"%char (digits (S (Z.to_nat (Z.log2 (- n)))) (- n) "")
  else digits (S (Z.to_nat (Z.log2 n))) n "".

End GoString.

Import GoString.

(** ** context.go *)

Module Context.

Import GoState.

Record FileContext := mkFileContext {
  Path : string;
  Content : string
}.

Record CompletionContext := mkCompletionContext {
  Prefix : string;
  Suffix : string;
  AgentsInstructions : string;
  DiscussionContext : string;
  AdditionalFiles : list FileContext;
  Language : string
}.

Definition set_DiscussionContext (v : string) (c : CompletionContext) :=
  mkCompletionContext (Prefix c) (Suffix c) (AgentsInstructions c) v
                      (AdditionalFiles c) (Language c).

Definition set_AgentsInstructions (v : string) (c : CompletionContext) :=
  mkCompletionContext (Prefix c) (Suffix c) v (DiscussionContext c)
                      (AdditionalFiles c) (Language c).

(** [lines[i]] for an index already known to be in range. *)
Definition at_line (lines : list string) (i : Z) : string :=
  default "" (lines !! Z.to_nat i).

Definition clamp_line (lines : list string) (line : Z) : Z :=
  let line := if line <? 0 then 0 else line in
  if line >=? Z.of_nat (length lines) then Z.of_nat (length lines) - 1 else line.

Definition clamp_col (col : Z) : Z := if col <? 0 then 0 else col.

(** [extractPrefixSuffix].  [prefixLines := lines[:line]] is a slice of
    the array of [lines] with room left behind it ([line < len(lines)]
    after clamping), so [append(prefixLines, x)] stores [x] in that
    array at index [line]: from there on [lines[line]] is [x].  The
    second component threaded below is that array. *)
Definition extractPrefixSuffix (content : string) (line col : Z) : string * string :=
  let lines := Split content newline in
  let line := clamp_line lines line in
  let col := clamp_col col in
  let prefixLines := firstn (Z.to_nat line) lines in
  let '(prefixLines, lines) :=
    if (line <? Z.of_nat (length lines)) && (col <? len (at_line lines line))
    then ((prefixLines ++ [slice_to (at_line lines line) col])%list,
          <[Z.to_nat line := slice_to (at_line lines line) col]> lines)
    else (prefixLines, lines) in
  let prefix := Join prefixLines nl in
  let suffixLines : list string := [] in
  let suffixLines :=
    if (line <? Z.of_nat (length lines)) && (col <? len (at_line lines line))
    then (suffixLines ++ [slice_from (at_line lines line) col])%list
    else suffixLines in
  let suffixLines :=
    if line + 1 <? Z.of_nat (length lines)
    then (suffixLines ++ skipn (Z.to_nat (line + 1)) lines)%list
    else suffixLines in
  let suffix := Join suffixLines nl in
  (prefix, suffix).

Definition estimateTokens (s : string) : Z := Z.quot (len s) 4.

(** [trimToTokenBudget], through the pointer [ctx]. *)
Definition trimToTokenBudget (maxTokens : Z) : M CompletionContext unit :=
  currentTokens ← gets (fun ctx =>
    estimateTokens (Prefix ctx) + estimateTokens (Suffix ctx) +
    estimateTokens (AgentsInstructions ctx) + estimateTokens (DiscussionContext ctx));
  files ← gets AdditionalFiles;
  let currentTokens :=
    fold_left (fun acc f => acc + estimateTokens (Content f)) files currentTokens in
  if currentTokens <=? maxTokens then mret tt
  else
    d ← gets DiscussionContext;
    when (estimateTokens d >? 1000)
         (modify (set_DiscussionContext (slice_from d (len d - 1000))));;
    a ← gets AgentsInstructions;
    when (estimateTokens a >? 2000)
         (modify (set_AgentsInstructions (slice_to a 2000))).

End Context.

(** ** fim.go *)

Module Fim.

Import GoState Context.

Record FIMFormatter := mkFIMFormatter {
  instructionTemplate : string
}.

(** What [FormatPrompt] works on: the context behind the pointer [ctx]
    and the local [strings.Builder]. *)
Record Frame := mkFrame {
  ctx : CompletionContext;
  prompt : string
}.

(** [prompt.WriteString(s)] *)
Definition WriteString (s : string) : M Frame unit :=
  modify (fun fr => mkFrame (ctx fr) (prompt fr +:+ s)).

(** A field of [*ctx]. *)
Definition field {A} (f : CompletionContext -> A) : M Frame A :=
  gets (fun fr => f (ctx fr)).

(** [for _, file := range files { ... }] over a slice: in index order. *)
Fixpoint writeFiles (files : list FileContext) : M Frame unit :=
  match files with
  | [] => mret tt
  | file :: rest =>
      WriteString (nl +:+ "--- " +:+ Path file +:+ " ---" +:+ nl +:+ Content file +:+ nl);;
      writeFiles rest
  end.

Definition FormatPrompt_body : M Frame string :=
  lang ← field Language;
  WriteString ("You are an expert " +:+ lang +:+
               " programmer. Complete the code at the cursor position." +:+ nl +:+ nl);;
  agents ← field AgentsInstructions;
  when (nonempty agents)
       (WriteString ("PROJECT INSTRUCTIONS:" +:+ nl);;
        agents ← field AgentsInstructions;
        WriteString agents;;
        WriteString (nl +:+ nl));;
  disc ← field DiscussionContext;
  when (nonempty disc)
       (WriteString ("RECENT PROJECT DISCUSSION:" +:+ nl);;
        disc ← field DiscussionContext;
        WriteString disc;;
        WriteString (nl +:+ nl));;
  files ← field AdditionalFiles;
  when (0 <? Z.of_nat (length files))
       (WriteString ("RELATED FILES:" +:+ nl);;
        files ← field AdditionalFiles;
        writeFiles files;;
        WriteString nl);;
  WriteString ("CODE BEFORE CURSOR:" +:+ nl);;
  prefix ← field Prefix;
  WriteString prefix;;
  WriteString (nl +:+ nl);;
  WriteString ("CODE AFTER CURSOR:" +:+ nl);;
  suffix ← field Suffix;
  WriteString suffix;;
  WriteString (nl +:+ nl);;
  WriteString ("INSTRUCTIONS:" +:+ nl);;
  WriteString ("Complete only the code at the cursor position." +:+ nl);;
  lang ← field Language;
  WriteString ("Provide syntactically correct, idiomatic " +:+ lang +:+ " code." +:+ nl);;
  WriteString ("Do not repeat the prefix or suffix." +:+ nl);;
  WriteString ("Output only the completion, nothing else." +:+ nl);;
  gets prompt.

(** [FormatPrompt]: a fresh builder, the body, and what is left behind
    the pointer [ctx] when it returns.  The receiver is not used. *)
Definition FormatPrompt (f : FIMFormatter) : M CompletionContext string :=
  fun c =>
    let (out, fr) := FormatPrompt_body (mkFrame c "") in
    (out, ctx fr).

End Fim.

(** ** errors.go *)

Module Errors.

(** Go [error] values: the sentinels made by [errors.New], the values
    made by [fmt.Errorf] (their text, and the operand of [%w] if any)
    and [*CompletionError]. *)
#[warnings="-register-all"] Inductive error : Type :=
| New (text : string)
| Errorf (text : string) (wrapped : option error)
| CompletionError (Code Message : string) (Err : option error).

Definition ErrFileNotAuthorized := New "file not authorized".
Definition ErrProjectNotFound := New "project not found".
Definition ErrRateLimitExceeded := New "rate limit exceeded".
Definition ErrContextTooLarge := New "context exceeds token limit".
Definition ErrLLMTimeout := New "LLM request timeout".
Definition ErrInvalidRequest := New "invalid completion request".
Definition ErrCacheMiss := New "cache miss".
Definition ErrFileNotFound := New "file not found".
Definition ErrInvalidConfig := New "invalid configuration".

(** [e.Error()] *)
Fixpoint Error (e : error) : string :=
  match e with
  | New text => text
  | Errorf text _ => text
  | CompletionError code message (Some err) =>
      code +:+ ": " +:+ message +:+ " (" +:+ Error err +:+ ")"
  | CompletionError code message None => code +:+ ": " +:+ message
  end.

(** [e.Unwrap()] *)
Definition Unwrap (e : error) : option error :=
  match e with
  | New _ => None
  | Errorf _ wrapped => wrapped
  | CompletionError _ _ err => err
  end.

Definition NewCompletionError (code message : string) (err : option error) : error :=
  CompletionError code message err.

Definition CodeValidation := "VALIDATION_ERROR".
Definition CodeRateLimit := "RATE_LIMIT".
Definition CodeFileAccess := "FILE_ACCESS".
Definition CodeProjectAccess := "PROJECT_ACCESS".
Definition CodeContextError := "CONTEXT_ERROR".
Definition CodeLLMError := "LLM_ERROR".
Definition CodeCacheError := "CACHE_ERROR".
Definition CodeTimeout := "TIMEOUT".
Definition CodeInternal := "INTERNAL_ERROR".

Definition WrapRateLimitError (message : string) (err : error) : error :=
  NewCompletionError CodeRateLimit message (Some err).

(** [fmt.Errorf(prefix + ": %w", err)] *)
Definition wrapf (prefix : string) (err : error) : error :=
  Errorf (prefix +:+ ": " +:+ Error err) (Some err).

(** Is this one of the values [WrapRateLimitError] makes? *)
Definition is_rate_limited (e : error) : bool :=
  match e with
  | CompletionError code _ _ => String.eqb code CodeRateLimit
  | _ => false
  end.

End Errors.

(** ** Time *)

Module Time.

Definition Nanosecond : Z := 1.
Definition Second : Z := 1000000000 * Nanosecond.
Definition Minute : Z := 60 * Second.
Definition Hour : Z := 60 * Minute.

(** The zero [time.Time], as nanoseconds from the Unix epoch. *)
Definition zero : Z := -62135596800 * Second.

(** The largest and the smallest [time.Duration], an int64 of
    nanoseconds. *)
Definition maxDuration : Z := 2 ^ 63 - 1.
Definition minDuration : Z := - 2 ^ 63.

(** [t.Sub(u)]: the difference of two readings of the clock as a
    Duration, which is the largest or the smallest Duration when the
    difference is out of range. *)
Definition Sub (t u : Z) : Z := Z.max minDuration (Z.min maxDuration (t - u)).

(** [time.Since(t)] at the reading [now], as a test [time.Since(t) > d]
    against a Duration [d] sees it: the difference, or the largest
    Duration when the difference is above it.  (Below the smallest
    Duration [Sub] gives the smallest one, and a Duration [d] is never
    below that: the test is false there for the difference as for the
    smallest Duration, see [Since_test].) *)
Definition Since (now t : Z) : Z := Z.min maxDuration (now - t).

End Time.

(** ** config.go *)

Module Config.

Import Errors.

Record Config := mkConfig {
  DefaultLLM : string;
  MaxTokens : Z;
  Temperature : float;
  RequestTimeout : Z;
  MaxContextTokens : Z;
  IncludeAgentsFile : bool;
  IncludeDiscussion : bool;
  MaxDiscussionRounds : Z;
  EnableCache : bool;
  CacheTTL : Z;
  MaxCacheSize : Z;
  MaxRequestsPerMinute : Z;
  MaxRequestsPerHour : Z
}.

Definition DefaultConfig : Config := {|
  DefaultLLM := "sonar-deep-research";
  MaxTokens := 500;
  Temperature := 0x1.999999999999ap-3%float;
  RequestTimeout := 30 * Time.Second;
  MaxContextTokens := 10000;
  IncludeAgentsFile := true;
  IncludeDiscussion := true;
  MaxDiscussionRounds := 3;
  EnableCache := true;
  CacheTTL := 5 * Time.Minute;
  MaxCacheSize := 100 * 1024 * 1024;
  MaxRequestsPerMinute := 10;
  MaxRequestsPerHour := 50
|}.

(** [Validate]: [None] is the nil error. *)
Definition Validate (c : Config) : option error :=
  if negb (nonempty (DefaultLLM c)) then
    Some (Errorf "default_llm cannot be empty" None)
  else if MaxTokens c <=? 0 then
    Some (Errorf "max_tokens must be positive" None)
  else if PrimFloat.ltb (Temperature c) 0%float || PrimFloat.ltb 2%float (Temperature c) then
    Some (Errorf "temperature must be between 0 and 2" None)
  else if MaxContextTokens c <=? 0 then
    Some (Errorf "max_context_tokens must be positive" None)
  else if MaxRequestsPerMinute c <=? 0 then
    Some (Errorf "max_requests_per_minute must be positive" None)
  else if MaxRequestsPerHour c <=? 0 then
    Some (Errorf "max_requests_per_hour must be positive" None)
  else None.

End Config.

(** ** ratelimit.go *)

Module RateLimit.

Import GoState Errors.

Record RequestCount := mkRequestCount {
  Minute : Z;
  Hour : Z;
  LastMinuteReset : Z;
  LastHourReset : Z
}.

Record RateLimiter := mkRateLimiter {
  requestCounts : gmap string RequestCount
}.

Definition NewRateLimiter : RateLimiter := mkRateLimiter ∅.

(** [count.Minute = 0; count.LastMinuteReset = now] *)
Definition resetMinute (now : Z) (c : RequestCount) : RequestCount :=
  mkRequestCount 0 (Hour c) now (LastHourReset c).

(** [count.Hour = 0; count.LastHourReset = now] *)
Definition resetHour (now : Z) (c : RequestCount) : RequestCount :=
  mkRequestCount (Minute c) 0 (LastMinuteReset c) now.

(** [count.Minute++; count.Hour++] *)
Definition increment (c : RequestCount) : RequestCount :=
  mkRequestCount (Minute c + 1) (Hour c + 1) (LastMinuteReset c) (LastHourReset c).

(** The two [if]s that reset the windows that have passed. *)
Definition roll (now : Z) (c : RequestCount) : RequestCount :=
  let c := if now - LastMinuteReset c >=? Time.Minute then resetMinute now c else c in
  if now - LastHourReset c >=? Time.Hour then resetHour now c else c.

(** [CheckLimit]; [now] is what [time.Now()] returns in it.  [count]
    points into the map, so what is done to it before a rejection (the
    tenant's counter created, a window reset) stays in the limiter. *)
Definition CheckLimit (now : Z) (projectID : string) (maxPerMin maxPerHour : Z)
  : M RateLimiter (option error) :=
  fun r =>
    let count :=
      match requestCounts r !! projectID with
      | Some count => count
      | None => mkRequestCount 0 0 now now
      end in
    let count := roll now count in
    if Minute count >=? maxPerMin then
      (Some (WrapRateLimitError "per-minute rate limit exceeded" ErrRateLimitExceeded),
       mkRateLimiter (<[projectID := count]> (requestCounts r)))
    else if Hour count >=? maxPerHour then
      (Some (WrapRateLimitError "per-hour rate limit exceeded" ErrRateLimitExceeded),
       mkRateLimiter (<[projectID := count]> (requestCounts r)))
    else
      (None, mkRateLimiter (<[projectID := increment count]> (requestCounts r))).

Definition Reset (projectID : string) : M RateLimiter unit :=
  modify (fun r => mkRateLimiter (delete projectID (requestCounts r))).

Definition ResetAll : M RateLimiter unit :=
  modify (fun _ => mkRateLimiter ∅).

(** [GetStats]: [(minuteCount, hourCount, ok)] *)
Definition GetStats (now : Z) (projectID : string) (r : RateLimiter) : Z * Z * bool :=
  match requestCounts r !! projectID with
  | None => (0, 0, false)
  | Some count =>
      let minuteValid := now - LastMinuteReset count <? Time.Minute in
      let hourValid := now - LastHourReset count <? Time.Hour in
      (if minuteValid then Minute count else 0,
       if hourValid then Hour count else 0,
       true)
  end.

End RateLimit.

(** ** crypto/sha256 *)

Module Sha256.

(** 32-bit words as [Z] in [0, 2^32). *)
Definition mask32 : Z := 0xffffffff.

Definition w32 (x : Z) : Z := Z.land x mask32.

Definition add32 (x y : Z) : Z := w32 (x + y).

Definition rotr (n x : Z) : Z :=
  Z.lor (Z.shiftr x n) (w32 (Z.shiftl x (32 - n))).

Definition not32 (x : Z) : Z := Z.lxor x mask32.

Definition Ch (x y z : Z) : Z := Z.lxor (Z.land x y) (Z.land (not32 x) z).
Definition Maj (x y z : Z) : Z :=
  Z.lxor (Z.lxor (Z.land x y) (Z.land x z)) (Z.land y z).
Definition Sigma0 (x : Z) : Z := Z.lxor (Z.lxor (rotr 2 x) (rotr 13 x)) (rotr 22 x).
Definition Sigma1 (x : Z) : Z := Z.lxor (Z.lxor (rotr 6 x) (rotr 11 x)) (rotr 25 x).
Definition sigma0 (x : Z) : Z := Z.lxor (Z.lxor (rotr 7 x) (rotr 18 x)) (Z.shiftr x 3).
Definition sigma1 (x : Z) : Z := Z.lxor (Z.lxor (rotr 17 x) (rotr 19 x)) (Z.shiftr x 10).

(** The first 64 primes. *)
Definition is_prime (n : nat) : bool :=
  forallb (fun d => negb (Nat.eqb (n mod d) 0)) (seq 2 (n - 2)).

Definition primes : list Z :=
  map Z.of_nat (firstn 64 (filter (fun n => is_prime n) (seq 2 320))).

(** The integer cube root, one bit at a time from bit [bits - 1] down. *)
Fixpoint cube_root (bits : nat) (n acc : Z) : Z :=
  match bits with
  | O => acc
  | S b =>
      let try := acc + Z.shiftl 1 (Z.of_nat b) in
      cube_root b n (if try * try * try <=? n then try else acc)
  end.

(** The round constants: the first 32 bits of the fractional parts of
    the cube roots of the first 64 primes. *)
Definition K : list Z :=
  Eval vm_compute in map (fun p => w32 (cube_root 40 (Z.shiftl p 96) 0)) primes.

(** The initial hash value: the first 32 bits of the fractional parts
    of the square roots of the first 8 primes. *)
Definition H0 : list Z :=
  Eval vm_compute in map (fun p => w32 (Z.sqrt (Z.shiftl p 64))) (firstn 8 primes).

Definition bytes_of (s : string) : list Z :=
  map (fun c => Z.of_nat (nat_of_ascii c)) (list_ascii_of_string s).

(** The message, one [0x80], zeros up to 56 modulo 64, the bit length
    on 8 bytes, most significant first. *)
Definition pad (msg : list Z) : list Z :=
  let n := Z.of_nat (length msg) in
  let zeros := Z.to_nat ((55 - n) mod 64) in
  let bits := 8 * n in
  (msg ++ [0x80] ++ repeat 0 zeros ++
   map (fun i => Z.shiftr bits (8 * (7 - Z.of_nat i)) mod 256) (seq 0 8))%list.

(** Big-endian 32-bit words of a byte sequence. *)
Fixpoint words (bs : list Z) (fuel : nat) : list Z :=
  match fuel, bs with
  | S k, b0 :: b1 :: b2 :: b3 :: rest =>
      (((b0 * 256 + b1) * 256 + b2) * 256 + b3) :: words rest k
  | _, _ => []
  end.

Definition word_at (ws : list Z) (i : nat) : Z := default 0 (ws !! i).

(** The message schedule, latest word first: [rev_w] holds
    [W[t-1], W[t-2], ...]. *)
Fixpoint schedule (n : nat) (rev_w : list Z) : list Z :=
  match n with
  | O => rev_w
  | S k =>
      let w := add32 (add32 (sigma1 (word_at rev_w 1)) (word_at rev_w 6))
                     (add32 (sigma0 (word_at rev_w 14)) (word_at rev_w 15)) in
      schedule k (w :: rev_w)
  end.

Definition round (st : list Z) (kw : Z * Z) : list Z :=
  match st with
  | [a; b; c; d; e; f; g; h] =>
      let t1 := add32 (add32 (add32 h (Sigma1 e)) (add32 (Ch e f g) (fst kw))) (snd kw) in
      let t2 := add32 (Sigma0 a) (Maj a b c) in
      [add32 t1 t2; a; b; c; add32 d t1; e; f; g]
  | _ => st
  end.

Definition compress (h : list Z) (block : list Z) : list Z :=
  let w := rev (schedule 48 (rev block)) in
  let st := fold_left round (combine K w) h in
  map (fun p => add32 (fst p) (snd p)) (combine h st).

Fixpoint blocks (ws : list Z) (fuel : nat) (h : list Z) : list Z :=
  match fuel with
  | O => h
  | S k =>
      match ws with
      | [] => h
      | _ => blocks (skipn 16 ws) k (compress h (firstn 16 ws))
      end
  end.

(** [sha256.Sum256]: the 32 bytes of the digest. *)
Definition Sum256 (msg : list Z) : list Z :=
  let p := pad msg in
  let ws := words p (length p) in
  let h := blocks ws (length ws) H0 in
  flat_map (fun w => [Z.shiftr w 24 mod 256; Z.shiftr w 16 mod 256;
                      Z.shiftr w 8 mod 256; w mod 256]) h.

Definition hexdigit (d : Z) : ascii :=
  ascii_of_nat (Z.to_nat (if d <? 10 then 48 + d else 87 + d)).

(** [fmt.Sprintf("%x", bytes)] *)
Definition hex (bs : list Z) : string :=
  string_of_list_ascii (flat_map (fun b => [hexdigit (b / 16); hexdigit (b mod 16)]) bs).

End Sha256.

(** ** completion.go: the request and the response *)

Module Api.

Record CompletionRequest := mkCompletionRequest {
  ProjectID : string;
  FilePath : string;
  CursorLine : Z;
  CursorColumn : Z;
  LLM : string;
  MaxTokens : Z;
  ContextFiles : list string;
  Temperature : float
}.

Record CompletionResponse := mkCompletionResponse {
  Completion : string;
  LatencyMs : Z;
  Model : string;
  TokensUsed : Z;
  CachedResult : bool;
  Timestamp : Z
}.

(** [resp.CachedResult = v] *)
Definition set_CachedResult (v : bool) (r : CompletionResponse) : CompletionResponse :=
  mkCompletionResponse (Completion r) (LatencyMs r) (Model r) (TokensUsed r) v (Timestamp r).

(** A [*CompletionResponse]: the address of a response in the heap. *)
Definition ptr : Type := nat.

(** The responses that have been allocated, by address.  Nothing is
    ever freed while a pointer to it exists. *)
Definition Heap : Type := list CompletionResponse.

(** [&CompletionResponse{...}] *)
Definition alloc (r : CompletionResponse) (h : Heap) : ptr * Heap :=
  (length h, (h ++ [r])%list).

(** The response [p] points to. *)
Definition deref (h : Heap) (p : ptr) : option CompletionResponse := h !! p.

(** Assignment to fields of the response [p] points to. *)
Definition update (p : ptr) (f : CompletionResponse -> CompletionResponse) (h : Heap) : Heap :=
  match h !! p with
  | Some r => <[p := f r]> h
  | None => h
  end.

End Api.

(** ** cache.go *)

Module Cache.

Import GoState Api.

Record CacheEntry := mkCacheEntry {
  Response : ptr;
  CreatedAt : Z;
  FileHash : string
}.

Record Cache := mkCache {
  entries : gmap string CacheEntry;
  ttl : Z;
  maxSize : Z;
  enabled : bool
}.

(** The order in which one [range] over the entries visits them. *)
Definition RangeOrder : Type := gmap string CacheEntry -> list (string * CacheEntry).

(** What the language promises of it: every entry once, in some order. *)
Definition range_ok (range : RangeOrder) : Prop :=
  forall m, range m ≡ₚ map_to_list m.

Definition NewCache (ttl maxSize : Z) (enabled : bool) : Cache :=
  mkCache ∅ ttl maxSize enabled.

Definition cacheKey (req : CompletionRequest) : string :=
  ProjectID req +:+ ":" +:+ FilePath req +:+ ":" +:+ itoa (CursorLine req) +:+ ":" +:+
  itoa (CursorColumn req) +:+ ":" +:+ LLM req.

Definition hashContent (content : string) : string :=
  Sha256.hex (Sha256.Sum256 (Sha256.bytes_of content)).

(** [Get]; [now] is the clock read by [time.Since], whose result
    saturates at the largest Duration.  It only reads the cache, and
    returns the pointer the entry holds. *)
Definition Get (now : Z) (c : Cache) (req : CompletionRequest) (fileContent : string)
  : option ptr :=
  if negb (enabled c) then None
  else
    let key := cacheKey req in
    match entries c !! key with
    | None => None
    | Some entry =>
        if Time.Since now (CreatedAt entry) >? ttl c then None
        else
          let currentHash := hashContent fileContent in
          if negb (String.eqb (FileHash entry) currentHash) then None
          else Some (Response entry)
    end.

(** One step of the loop that looks for the oldest entry. *)
Definition older (acc : string * Z) (kv : string * CacheEntry) : string * Z :=
  let '(oldestKey, oldestTime) := acc in
  let '(key, entry) := kv in
  if String.eqb oldestKey "" || (CreatedAt entry <? oldestTime)
  then (key, CreatedAt entry)
  else (oldestKey, oldestTime).

(** The loop, over the entries in the order the runtime visits them:
    [(oldestKey, oldestTime)] when it ends. *)
Definition oldest (visit : list (string * CacheEntry)) : string * Z :=
  fold_left older visit ("", Time.zero).

(** The [if len(c.entries) > 1000 { ... }] block of [Put]. *)
Definition evict (range : RangeOrder) (m : gmap string CacheEntry) : gmap string CacheEntry :=
  if Z.of_nat (size m) >? 1000 then
    let '(oldestKey, _) := oldest (range m) in
    if nonempty oldestKey then delete oldestKey m else m
  else m.

(** [Put]; [now] is what [time.Now()] returns in it. *)
Definition Put (range : RangeOrder) (now : Z) (req : CompletionRequest)
    (fileContent : string) (resp : ptr) : M Cache unit :=
  fun c =>
    if negb (enabled c) then (tt, c)
    else
      let m := evict range (entries c) in
      let key := cacheKey req in
      let entry := mkCacheEntry resp now (hashContent fileContent) in
      (tt, mkCache (<[key := entry]> m) (ttl c) (maxSize c) (enabled c)).

End Cache.

(** ** The standard library functions and the interfaces the service is given *)

Module Env.

Import Errors.

(** The functions of [path/filepath] and [strings.ToLower], which the
    package calls and does not define. *)
Class GoLib := {
  filepath_IsAbs : string -> bool;
  filepath_Join : string -> string -> string;
  filepath_Dir : string -> string;
  filepath_Clean : string -> string;
  filepath_Ext : string -> string;
  strings_ToLower : string -> string
}.

(** [ProjectGetter]: each method returns its value and its error, and
    the code sometimes drops the error and uses the value. *)
Record ProjectGetter := mkProjectGetter {
  GetProjectBaseDir : string -> string * option error;
  GetProjectAuthorizedFiles : string -> list string * option error;
  GetProjectDiscussionFile : string -> string * option error;
  ReadFile : string -> string * option error
}.

(** [GrokkerClient.Query(ctx, llm, systemMsg, userMsg, maxTokens)];
    the [context.Context] is handed through to it untouched. *)
Record GrokkerClient := mkGrokkerClient {
  Query : string -> string -> string -> Z -> string * Z * option error
}.

(** What [time.Now()] and [time.Since] read at each place of one call
    of [Complete] that reads the clock. *)
Record Clock := mkClock {
  at_start : Z;
  at_CheckLimit : Z;
  at_Get : Z;
  at_latency : Z;
  at_Timestamp : Z;
  at_Put : Z
}.

End Env.

(** ** context.go: gathering through the provider *)

Module Gather.

Import GoState Errors Env Api Context.

Section WithLib.

Context {lib : GoLib}.

(** [resolveFilePath] (completion.go) *)
Definition resolveFilePath (baseDir filePath : string) : string :=
  if filepath_IsAbs filePath then filePath
  else filepath_Join baseDir filePath.

Record ContextGatherer := mkContextGatherer {
  maxTokens : Z
}.

(** The [for] loop of [gatherAgentsInstructions]; [None] when it has
    not left the loop after [fuel] turns. *)
Fixpoint walkUp (fuel : nat) (pg : ProjectGetter) (baseDir dir : string)
    (instructions : list string) : option (list string) :=
  match fuel with
  | O => None
  | S k =>
      let agentsPath := filepath_Join dir "AGENTS.md" in
      let '(content, err) := ReadFile pg agentsPath in
      let instructions :=
        match err with
        | None => (instructions ++ [content])%list
        | Some _ => instructions
        end in
      if String.eqb dir baseDir || String.eqb dir "/" || String.eqb dir "." then
        Some instructions
      else
        let parent := filepath_Dir dir in
        if String.eqb parent dir then Some instructions
        else walkUp k pg baseDir parent instructions
  end.

Definition gatherAgentsInstructions (fuel : nat) (baseDir targetFile : string)
    (pg : ProjectGetter) : option string :=
  let dir := filepath_Dir (filepath_Join baseDir targetFile) in
  match walkUp fuel pg baseDir dir [] with
  | None => None
  | Some instructions =>
      if Z.of_nat (length instructions) =? 0 then Some ""
      else Some (Join instructions (nl +:+ nl +:+ "---" +:+ nl +:+ nl))
  end.

Definition gatherDiscussionContext (projectID : string) (pg : ProjectGetter) : string :=
  let '(discussionFile, err) := GetProjectDiscussionFile pg projectID in
  match err with
  | Some _ => ""
  | None =>
      let '(content, err) := ReadFile pg discussionFile in
      match err with
      | Some _ => ""
      | None =>
          let str := content in
          if len str >? 3000 then slice_from str (len str - 3000) else str
      end
  end.

Definition gatherAdditionalFiles (req : CompletionRequest) (baseDir : string)
    (pg : ProjectGetter) : list FileContext :=
  fold_left
    (fun contexts filePath =>
       let absPath := resolveFilePath baseDir filePath in
       let '(content, err) := ReadFile pg absPath in
       match err with
       | Some _ => contexts
       | None => (contexts ++ [mkFileContext filePath content])%list
       end)
    (ContextFiles req) [].

Definition langMap : gmap string string :=
  list_to_map [
    (".go", "Go"); (".py", "Python"); (".js", "JavaScript"); (".ts", "TypeScript");
    (".java", "Java"); (".c", "C"); (".cpp", "C++"); (".rs", "Rust");
    (".rb", "Ruby"); (".php", "PHP"); (".sh", "Shell") ].

Definition detectLanguage (filePath : string) : string :=
  let ext := strings_ToLower (filepath_Ext filePath) in
  match langMap !! ext with
  | Some lang => lang
  | None => "code"
  end.

(** [GatherContext]: outer [None] when the walk for AGENTS.md ran out
    of fuel, else the context or the error. *)
Definition GatherContext (fuel : nat) (g : ContextGatherer) (req : CompletionRequest)
    (fileContent : string) (pg : ProjectGetter)
  : option (CompletionContext + error) :=
  let '(baseDir, err) := GetProjectBaseDir pg (ProjectID req) in
  match err with
  | Some err => Some (inr err)
  | None =>
      let '(prefix, suffix) :=
        extractPrefixSuffix fileContent (CursorLine req) (CursorColumn req) in
      match gatherAgentsInstructions fuel baseDir (FilePath req) pg with
      | None => None
      | Some agentsInstructions =>
          let discussionContext := gatherDiscussionContext (ProjectID req) pg in
          let additionalContext := gatherAdditionalFiles req baseDir pg in
          let ctx := mkCompletionContext prefix suffix agentsInstructions
                       discussionContext additionalContext
                       (detectLanguage (FilePath req)) in
          let '(_, ctx) := trimToTokenBudget (maxTokens g) ctx in
          Some (inl ctx)
      end
  end.

End WithLib.

End Gather.

(** ** completion.go: the service *)

Module Service.

Import GoState Errors Env Api Context Gather.

Record CompletionService := mkCompletionService {
  config : Config.Config;
  cache : Cache.Cache;
  rateLimiter : RateLimit.RateLimiter;
  grokker : option GrokkerClient
}.

(** What a call of [Complete] can read and write: the service and the
    heap of responses, which the cache entries and the callers point
    into. *)
Record World := mkWorld {
  svc : CompletionService;
  heap : Heap
}.

(** How a call of [Complete] ends. *)
Inductive outcome : Type :=
| Returned (resp : ptr)
| Failed (err : error)
| OutOfFuel.

(** [NewCompletionService]; [None] is the nil [*Config]. *)
Definition NewCompletionService (config : option Config.Config)
  : CompletionService + error :=
  let config := match config with None => Config.DefaultConfig | Some c => c end in
  match Config.Validate config with
  | Some err => inr (wrapf "invalid config" err)
  | None =>
      inl (mkCompletionService config
             (Cache.NewCache (Config.CacheTTL config) (Config.MaxCacheSize config)
                             (Config.EnableCache config))
             RateLimit.NewRateLimiter
             None)
  end.

Definition SetGrokkerClient (client : GrokkerClient) : M CompletionService unit :=
  modify (fun s => mkCompletionService (config s) (cache s) (rateLimiter s) (Some client)).

(** Running a method of the limiter, of the cache, or a write through a
    response pointer, inside the world. *)
Definition on_rateLimiter {A} (m : M RateLimit.RateLimiter A) : M World A :=
  fun w =>
    let (a, r) := m (rateLimiter (svc w)) in
    (a, mkWorld (mkCompletionService (config (svc w)) (cache (svc w)) r (grokker (svc w)))
                (heap w)).

Definition on_cache {A} (m : M Cache.Cache A) : M World A :=
  fun w =>
    let (a, c) := m (cache (svc w)) in
    (a, mkWorld (mkCompletionService (config (svc w)) c (rateLimiter (svc w)) (grokker (svc w)))
                (heap w)).

Definition on_heap {A} (m : M Heap A) : M World A :=
  fun w => let (a, h) := m (heap w) in (a, mkWorld (svc w) h).

Section WithLib.

Context {lib : GoLib}.

(** The loop of [validateRequest] over the authorized files. *)
Definition authorized (baseDir targetPath : string) (authorizedFiles : list string) : bool :=
  existsb
    (fun authFile =>
       String.eqb (filepath_Clean (resolveFilePath baseDir authFile))
                  (filepath_Clean targetPath))
    authorizedFiles.

Definition validateRequest (req : CompletionRequest) (pg : ProjectGetter) : option error :=
  if negb (nonempty (ProjectID req)) || negb (nonempty (FilePath req)) then
    Some ErrInvalidRequest
  else
    let '(authorizedFiles, err) := GetProjectAuthorizedFiles pg (ProjectID req) in
    match err with
    | Some err => Some err
    | None =>
        let '(baseDir, _) := GetProjectBaseDir pg (ProjectID req) in
        let targetPath := resolveFilePath baseDir (FilePath req) in
        if authorized baseDir targetPath authorizedFiles then None
        else Some (Errorf (Error ErrFileNotAuthorized +:+ ": " +:+ FilePath req)
                          (Some ErrFileNotAuthorized))
    end.

Definition systemMsg : string :=
  "You are an expert code completion assistant. Complete the code at the cursor position. Output ONLY the completion text.".

(** [Complete], from the cache lookup having missed to the end. *)
Definition generate (range : Cache.RangeOrder) (clock : Clock) (fuel : nat)
    (req : CompletionRequest) (pg : ProjectGetter) (fileContent : string)
  : M World outcome :=
  cfg ← gets (fun w => config (svc w));
  let gatherer := mkContextGatherer (Config.MaxContextTokens cfg) in
  match GatherContext fuel gatherer req fileContent pg with
  | None => mret OutOfFuel
  | Some (inr err) => mret (Failed (wrapf "failed to gather context" err))
  | Some (inl completionCtx) =>
      let formatter := Fim.mkFIMFormatter "" in
      let '(prompt, _) := Fim.FormatPrompt formatter completionCtx in
      let llm := LLM req in
      let llm := if negb (nonempty llm) then Config.DefaultLLM cfg else llm in
      let maxTokens := MaxTokens req in
      let maxTokens := if maxTokens =? 0 then Config.MaxTokens cfg else maxTokens in
      client ← gets (fun w => grokker (svc w));
      match client with
      | None => mret (Failed (Errorf "grokker client not set" None))
      | Some client =>
          let '(completion, tokensUsed, err) := Query client llm systemMsg prompt maxTokens in
          match err with
          | Some err => mret (Failed (wrapf "LLM call failed" err))
          | None =>
              response ← on_heap (alloc (mkCompletionResponse
                            completion
                            (Z.quot (at_latency clock - at_start clock) 1000000)
                            llm tokensUsed false (at_Timestamp clock)));
              (if Config.EnableCache cfg
               then on_cache (Cache.Put range (at_Put clock) req fileContent response)
               else mret tt);;
              mret (Returned response)
          end
      end
  end.

(** [Complete].  [range] is the order of the map iteration in
    [Cache.Put], [clock] what the clock shows where it is read, [fuel]
    bounds the walk for AGENTS.md files. *)
Definition Complete (range : Cache.RangeOrder) (clock : Clock) (fuel : nat)
    (req : CompletionRequest) (pg : ProjectGetter) : M World outcome :=
  match validateRequest req pg with
  | Some err => mret (Failed err)
  | None =>
      cfg ← gets (fun w => config (svc w));
      err ← on_rateLimiter
              (RateLimit.CheckLimit (at_CheckLimit clock) (ProjectID req)
                 (Config.MaxRequestsPerMinute cfg) (Config.MaxRequestsPerHour cfg));
      match err with
      | Some err => mret (Failed err)
      | None =>
          let '(baseDir, _) := GetProjectBaseDir pg (ProjectID req) in
          let targetPath := resolveFilePath baseDir (FilePath req) in
          let '(fileContent, err) := ReadFile pg targetPath in
          match err with
          | Some err => mret (Failed (wrapf "failed to read file" err))
          | None =>
              hit ← (if Config.EnableCache cfg
                     then gets (fun w => Cache.Get (at_Get clock) (cache (svc w)) req fileContent)
                     else mret None);
              match hit with
              | Some cached =>
                  on_heap (modify (update cached (set_CachedResult true)));;
                  mret (Returned cached)
              | None => generate range clock fuel req pg fileContent
              end
          end
      end
  end.

End WithLib.

End Service.

(** ** An instance of the library functions, to run the code on inputs

    [path/filepath] as it behaves with [/] as the separator, and
    [strings.ToLower] as it behaves on ASCII text. *)

Module Unix.

Import Env.

Definition slash : ascii := "/"%char.

Definition IsAbs (path : string) : bool :=
  match path with
  | String c _ => Ascii.eqb c slash
  | "" => false
  end.

(** The elements of a path that remain once [.], empty elements and
    [..] after a name are dropped; [kept] is in reverse. *)
Fixpoint cleanParts (rooted : bool) (parts kept : list string) : list string :=
  match parts with
  | [] => rev kept
  | p :: rest =>
      if String.eqb p "" || String.eqb p "." then cleanParts rooted rest kept
      else if String.eqb p ".." then
        match kept with
        | top :: kept' =>
            if String.eqb top ".." then cleanParts rooted rest (p :: kept)
            else cleanParts rooted rest kept'
        | [] => if rooted then cleanParts rooted rest [] else cleanParts rooted rest [p]
        end
      else cleanParts rooted rest (p :: kept)
  end.

Definition Clean (path : string) : string :=
  let rooted := IsAbs path in
  let body := Join (cleanParts rooted (Split path slash) []) "/" in
  if rooted then "/" +:+ body
  else if nonempty body then body else ".".

Definition Join2 (a b : string) : string :=
  match nonempty a, nonempty b with
  | false, false => ""
  | true, false => Clean a
  | false, true => Clean b
  | true, true => Clean (a +:+ "/" +:+ b)
  end.

(** The text up to and including the last separator. *)
Fixpoint dirPart (path : string) : string :=
  match path with
  | "" => ""
  | String c rest =>
      let d := dirPart rest in
      if nonempty d || Ascii.eqb c slash then String c d else ""
  end.

Definition Dir (path : string) : string := Clean (dirPart path).

(** The extension of the last element: from its last dot on. *)
Fixpoint Ext (path : string) : string :=
  match path with
  | "" => ""
  | String c rest =>
      let e := Ext rest in
      if nonempty e then e
      else if existsb (Ascii.eqb slash) (list_ascii_of_string rest) then ""
      else if Ascii.eqb c "."%char then path
      else ""
  end.

Definition lower (c : ascii) : ascii :=
  let n := nat_of_ascii c in
  if (65 <=? n)%nat && (n <=? 90)%nat then ascii_of_nat (n + 32) else c.

Fixpoint ToLower (s : string) : string :=
  match s with
  | "" => ""
  | String c rest => String (lower c) (ToLower rest)
  end.

#[export] Instance lib : GoLib := {|
  filepath_IsAbs := IsAbs;
  filepath_Join := Join2;
  filepath_Dir := Dir;
  filepath_Clean := Clean;
  filepath_Ext := Ext;
  strings_ToLower := ToLower
|}.

End Unix.

(** ** Sequences of calls *)

Module Calls.

Import GoState Errors Api.

(** [CheckLimit] called once at each of [times], in order: what each
    call returned, and the limiter afterwards. *)
Fixpoint CheckLimits (times : list Z) (projectID : string) (maxPerMin maxPerHour : Z)
  : M RateLimit.RateLimiter (list (option error)) :=
  match times with
  | [] => mret []
  | now :: rest =>
      res ← RateLimit.CheckLimit now projectID maxPerMin maxPerHour;
      more ← CheckLimits rest projectID maxPerMin maxPerHour;
      mret (res :: more)
  end.

(** A call of a method of the cache. *)
Inductive cache_call : Type :=
| CallGet (now : Z) (req : CompletionRequest) (fileContent : string)
| CallPut (range : Cache.RangeOrder) (now : Z) (req : CompletionRequest)
          (fileContent : string) (resp : ptr).

(** The calls made in order: what each [Get] returned, and the cache
    afterwards. *)
Fixpoint run (calls : list cache_call) : M Cache.Cache (list (option ptr)) :=
  match calls with
  | [] => mret []
  | CallGet now req fileContent :: rest =>
      res ← gets (fun c => Cache.Get now c req fileContent);
      more ← run rest;
      mret (res :: more)
  | CallPut range now req fileContent resp :: rest =>
      Cache.Put range now req fileContent resp;;
      run rest
  end.

End Calls.

(** ** Inputs on which the code is run below *)

Module Scenario.

Import GoState Errors Env Api Context Service.

(** *** A project with one authorized file *)

Definition source : string :=
  "package main" +:+ nl +:+ "func main() {}" +:+ nl.

Definition files : gmap string string :=
  list_to_map [("/proj/src/main.go", source); ("/proj/AGENTS.md", "Keep it short.")].

Definition pg : ProjectGetter := {|
  GetProjectBaseDir := fun _ => ("/proj", None);
  GetProjectAuthorizedFiles := fun _ => (["src/main.go"], None);
  GetProjectDiscussionFile := fun _ => ("", Some ErrFileNotFound);
  ReadFile := fun path =>
    match files !! path with
    | Some content => (content, None)
    | None => ("", Some ErrFileNotFound)
    end
|}.

Definition client : GrokkerClient := {|
  Query := fun _ _ _ _ => ("fmt.Println()", 7, None)
|}.

Definition req : CompletionRequest := {|
  ProjectID := "storm";
  FilePath := "src/main.go";
  CursorLine := 1;
  CursorColumn := 14;
  LLM := "";
  MaxTokens := 0;
  ContextFiles := [];
  Temperature := 0%float
|}.

(** The service as [NewCompletionService(nil)] builds it (the default
    configuration: cache on, 10 per minute, 50 per hour), with a
    client set. *)
Definition svc0 : CompletionService := {|
  config := Config.DefaultConfig;
  cache := Cache.NewCache (Config.CacheTTL Config.DefaultConfig)
                          (Config.MaxCacheSize Config.DefaultConfig)
                          (Config.EnableCache Config.DefaultConfig);
  rateLimiter := RateLimit.NewRateLimiter;
  grokker := Some client
|}.

Definition world0 : World := mkWorld svc0 [].

(** A call during which the clock shows [t] seconds at every reading. *)
Definition clock_at (t : Z) : Clock :=
  let ns := t * Time.Second in mkClock ns ns ns ns ns ns.

(** One call at second 1 (a miss, which fills the cache), a second call
    at second 2 (a hit). *)
Definition first_call : outcome * World :=
  Complete (lib := Unix.lib) map_to_list (clock_at 1) 8 req pg world0.

Definition world1 : World := snd first_call.

Definition second_call : outcome * World :=
  Complete (lib := Unix.lib) map_to_list (clock_at 2) 8 req pg world1.

Definition world2 : World := snd second_call.

(** The world after calls at seconds [1], ..., [n] from the start. *)
Fixpoint after_calls (n : nat) : World :=
  match n with
  | O => world0
  | S k => snd (Complete (lib := Unix.lib) map_to_list (clock_at (Z.of_nat n)) 8 req pg
                  (after_calls k))
  end.

(** The call at second 11, after ten calls at seconds 1 to 10. *)
Definition eleventh_call : outcome * World :=
  Complete (lib := Unix.lib) map_to_list (clock_at 11) 8 req pg (after_calls 10).

(** The cache-served flag of the response a pointer leads to. *)
Definition flag_at (h : Heap) (p : ptr) : option bool :=
  CachedResult <$> deref h p.

(** The tenant's counters [(Minute, Hour)] as the limiter holds them. *)
Definition counters (w : World) (projectID : string) : option (Z * Z) :=
  (fun c => (RateLimit.Minute c, RateLimit.Hour c)) <$>
  RateLimit.requestCounts (rateLimiter (svc w)) !! projectID.

(** *** A cache filled to a given number of entries *)

(** The request for line [i] of one file: a distinct key for each [i]. *)
Definition req_line (i : nat) : CompletionRequest := {|
  ProjectID := "storm";
  FilePath := "src/main.go";
  CursorLine := Z.of_nat i;
  CursorColumn := 0;
  LLM := "";
  MaxTokens := 0;
  ContextFiles := [];
  Temperature := 0%float
|}.

(** [n] calls of [Put], for lines [n-1] down to [0], the one for line
    [i] made at time [i] with response pointer [i]. *)
Fixpoint fill (n : nat) (c : Cache.Cache) : Cache.Cache :=
  match n with
  | O => c
  | S i => fill i (snd (Cache.Put map_to_list (Z.of_nat i) (req_line i) "" i c))
  end.

Definition cache1000 : Cache.Cache :=
  fill (Z.to_nat 1000) (Cache.NewCache (5 * Time.Minute) (100 * 1024 * 1024) true).

Definition cache1001 : Cache.Cache :=
  fill (Z.to_nat 1001) (Cache.NewCache (5 * Time.Minute) (100 * 1024 * 1024) true).

(** *** An assembled context over the budget *)

(** 5000 bytes of source split at the cursor, instructions of 10000
    bytes, a discussion of 5000 bytes. *)
Definition big_ctx : CompletionContext := {|
  Prefix := Repeat "p" (Z.to_nat 2500);
  Suffix := Repeat "s" (Z.to_nat 2500);
  AgentsInstructions := Repeat "i" (Z.to_nat 10000);
  DiscussionContext := Repeat "d" (Z.to_nat 5000);
  AdditionalFiles := [];
  Language := "Go"
|}.

(** The project with an AGENTS.md of 10000 bytes beside the source. *)
Definition pg_long_instructions : ProjectGetter := {|
  GetProjectBaseDir := fun _ => ("/proj", None);
  GetProjectAuthorizedFiles := fun _ => (["src/main.go"], None);
  GetProjectDiscussionFile := fun _ => ("", Some ErrFileNotFound);
  ReadFile := fun path =>
    if String.eqb path "/proj/src/AGENTS.md"
    then (Repeat "i" (Z.to_nat 10000), None)
    else ("", Some ErrFileNotFound)
|}.

(** *** Configurations *)



End Scenario.

(** ** Definitions used to state further properties *)

Module Derived.

Import GoState Errors Env Api Context.

(** [CheckLimit] called by several tenants with the same thresholds:
    each call is the time it is made at and the tenant that makes it;
    each result is listed with its tenant. *)
Fixpoint CheckAll (calls : list (Z * string)) (maxPerMin maxPerHour : Z)
  : M RateLimit.RateLimiter (list (string * option error)) :=
  match calls with
  | [] => mret []
  | (now, projectID) :: rest =>
      res ← RateLimit.CheckLimit now projectID maxPerMin maxPerHour;
      more ← CheckAll rest maxPerMin maxPerHour;
      mret ((projectID, res) :: more)
  end.

Section WithLib.

Context {lib : GoLib}.

(** A directory and its [n] parents, innermost first. *)
Fixpoint ancestors (n : nat) (dir : string) : list string :=
  match n with
  | O => [dir]
  | S k => dir :: ancestors k (filepath_Dir dir)
  end.

(** The conditions under which the walk for AGENTS.md files ends at a
    directory, after reading there. *)
Definition stops (baseDir dir : string) : bool :=
  String.eqb dir baseDir || String.eqb dir "/" || String.eqb dir "." ||
  String.eqb (filepath_Dir dir) dir.

(** The AGENTS.md of a directory, when it can be read. *)
Definition readAgents (pg : ProjectGetter) (dir : string) : option string :=
  let '(content, err) := ReadFile pg (filepath_Join dir "AGENTS.md") in
  match err with
  | None => Some content
  | Some _ => None
  end.

(** A context file of the request, when it can be read. *)
Definition readContextFile (pg : ProjectGetter) (baseDir filePath : string)
  : option FileContext :=
  let '(content, err) := ReadFile pg (Gather.resolveFilePath baseDir filePath) in
  match err with
  | None => Some (mkFileContext filePath content)
  | Some _ => None
  end.

End WithLib.

(** The world with the limiter replaced, as it is once [CheckLimit]
    has run. *)
Definition with_limiter (r : RateLimit.RateLimiter) (w : Service.World) : Service.World :=
  Service.mkWorld
    (Service.mkCompletionService (Service.config (Service.svc w))
       (Service.cache (Service.svc w)) r (Service.grokker (Service.svc w)))
    (Service.heap w).

(** The world with another client, or none, in the service. *)
Definition with_grokker (g : option GrokkerClient) (w : Service.World) : Service.World :=
  Service.mkWorld
    (Service.mkCompletionService (Service.config (Service.svc w))
       (Service.cache (Service.svc w)) (Service.rateLimiter (Service.svc w)) g)
    (Service.heap w).

(** The prompt, written out.  A section with a title, left out when
    its body is empty: *)
Definition promptSection (title body : string) : string :=
  if nonempty body then title +:+ nl +:+ body +:+ nl +:+ nl else "".

(** the block of one related file: *)
Definition fileBlock (f : FileContext) : string :=
  nl +:+ "--- " +:+ Path f +:+ " ---" +:+ nl +:+ Content f +:+ nl.

Fixpoint fileBlocks (files : list FileContext) : string :=
  match files with
  | [] => ""
  | f :: rest => fileBlock f +:+ fileBlocks rest
  end.

(** the section of the related files, left out when there is none: *)
Definition filesSection (files : list FileContext) : string :=
  match files with
  | [] => ""
  | _ => "RELATED FILES:" +:+ nl +:+ fileBlocks files +:+ nl
  end.

(** and the whole of it, in order. *)
Definition render (c : CompletionContext) : string :=
  "You are an expert " +:+ Language c +:+
  " programmer. Complete the code at the cursor position." +:+ nl +:+ nl +:+
  promptSection "PROJECT INSTRUCTIONS:" (AgentsInstructions c) +:+
  promptSection "RECENT PROJECT DISCUSSION:" (DiscussionContext c) +:+
  filesSection (AdditionalFiles c) +:+
  "CODE BEFORE CURSOR:" +:+ nl +:+ Prefix c +:+ nl +:+ nl +:+
  "CODE AFTER CURSOR:" +:+ nl +:+ Suffix c +:+ nl +:+ nl +:+
  "INSTRUCTIONS:" +:+ nl +:+
  "Complete only the code at the cursor position." +:+ nl +:+
  "Provide syntactically correct, idiomatic " +:+ Language c +:+ " code." +:+ nl +:+
  "Do not repeat the prefix or suffix." +:+ nl +:+
  "Output only the completion, nothing else." +:+ nl.

(** The labels of the language table. *)
Definition labels : list string :=
  ["Go"; "Python"; "JavaScript"; "TypeScript"; "Java"; "C"; "C++"; "Rust"; "Ruby"; "PHP";
   "Shell"].

(** The text between the AGENTS.md files that were found. *)
Definition delimiter : string := nl +:+ nl +:+ "---" +:+ nl +:+ nl.

End Derived.

(** ** Further cases *)

Module Cases.

Import GoState Errors Env Api Context Service.

(** A request for a file that the project of the scenario does not
    list. *)
Definition req_secret : CompletionRequest := {|
  ProjectID := "storm";
  FilePath := "src/secret.go";
  CursorLine := 0;
  CursorColumn := 0;
  LLM := "";
  MaxTokens := 0;
  ContextFiles := [];
  Temperature := 0%float
|}.

Definition set_EnableCache (v : bool) (c : Config.Config) : Config.Config :=
  Config.mkConfig (Config.DefaultLLM c) (Config.MaxTokens c) (Config.Temperature c)
    (Config.RequestTimeout c) (Config.MaxContextTokens c) (Config.IncludeAgentsFile c)
    (Config.IncludeDiscussion c) (Config.MaxDiscussionRounds c) v (Config.CacheTTL c)
    (Config.MaxCacheSize c) (Config.MaxRequestsPerMinute c) (Config.MaxRequestsPerHour c).

(** The default configuration with caching off, and the service made
    for it, with the client of the scenario set. *)
Definition config_cache_off : Config.Config :=
  set_EnableCache false Config.DefaultConfig.

Definition svc_cache_off : CompletionService := {|
  config := config_cache_off;
  cache := Cache.NewCache (Config.CacheTTL config_cache_off)
                          (Config.MaxCacheSize config_cache_off)
                          (Config.EnableCache config_cache_off);
  rateLimiter := RateLimit.NewRateLimiter;
  grokker := Some Scenario.client
|}.

Definition world_cache_off : World := mkWorld svc_cache_off [].

End Cases.

(** * Properties *)

(** ** The hash *)

(** The digests of the empty message and of "abc", as published with
    the definition of SHA-256. *)
Example hashContent_known_answers :
  Cache.hashContent "" = "e3b0c44298fc1c149afbf4c8996fb92427ae41e4649b934ca495991b7852b855" /\
  Cache.hashContent "abc" = "ba7816bf8f01cfea414140de5dae2223b00361a396177a9cb410ff61f20015ad".
Proof. vm_compute. split; reflexivity. Qed.

(** ** The split at the cursor *)

Section PrefixSuffix.

Import Context.

Lemma Split_not_nil (s : string) (sep : ascii) : Split s sep <> [].
Proof.
  destruct s as [|c s]; simpl; [discriminate|].
  destruct (Ascii.eqb c sep); [discriminate|].
  destruct (Split s sep); discriminate.
Qed.

Lemma Split_length_pos (s : string) (sep : ascii) :
  0 < Z.of_nat (length (Split s sep)).
Proof.
  pose proof (Split_not_nil s sep) as Hne.
  destruct (Split s sep); [congruence|simpl; lia].
Qed.

Lemma clamp_line_range (lines : list string) (line : Z) :
  0 < Z.of_nat (length lines) ->
  0 <= clamp_line lines line < Z.of_nat (length lines).
Proof.
  intros Hpos. unfold clamp_line.
  destruct (Z.ltb_spec line 0);
    match goal with |- context [?a >=? ?b] => destruct (Z.geb_spec a b) end; lia.
Qed.

Lemma clamp_col_nonneg (col : Z) : 0 <= clamp_col col.
Proof. unfold clamp_col. destruct (Z.ltb_spec col 0); lia. Qed.

Lemma Join_nil (sep : string) : Join [] sep = "".
Proof. reflexivity. Qed.

(** The lines of a text are those above a line, that line, and those
    below it. *)
Lemma lines_around (lines : list string) (l : Z) :
  0 <= l < Z.of_nat (length lines) ->
  lines = (firstn (Z.to_nat l) lines ++
           at_line lines l :: skipn (Z.to_nat (l + 1)) lines)%list.
Proof.
  intros Hl. unfold at_line.
  destruct (lookup_lt_is_Some_2 lines (Z.to_nat l)) as [x Hx]; [lia|].
  rewrite Hx. simpl.
  replace (Z.to_nat (l + 1)) with (S (Z.to_nat l)) by lia.
  rewrite <- (take_drop_middle lines (Z.to_nat l) x Hx) at 1.
  reflexivity.
Qed.

(** C9.  When the clamped column is at or past the end of the clamped
    cursor line, the before-text is the lines above the cursor line
    joined with newlines and the after-text the lines below it joined
    with newlines: the cursor line, which sits between them in the
    content, is in neither. *)
Theorem extractPrefixSuffix_column_at_line_end (content : string) (line col : Z) :
  let lines := Split content newline in
  let l := clamp_line lines line in
  len (at_line lines l) <= clamp_col col ->
  extractPrefixSuffix content line col =
    (Join (firstn (Z.to_nat l) lines) nl, Join (skipn (Z.to_nat (l + 1)) lines) nl)
  /\ lines = (firstn (Z.to_nat l) lines ++
              at_line lines l :: skipn (Z.to_nat (l + 1)) lines)%list.
Proof.
  intros lines l Hcol.
  pose proof (clamp_line_range lines line (Split_length_pos content newline)) as Hl.
  fold l in Hl.
  split; [|apply lines_around; exact Hl].
  unfold extractPrefixSuffix. fold lines. fold l.
  replace (clamp_col col <? len (at_line lines l)) with false
    by (symmetry; apply Z.ltb_ge; exact Hcol).
  rewrite andb_false_r. cbv zeta. cbv iota.
  replace (clamp_col col <? len (at_line lines l)) with false
    by (symmetry; apply Z.ltb_ge; exact Hcol).
  rewrite andb_false_r.
  destruct (Z.ltb_spec (l + 1) (Z.of_nat (length lines))) as [Hlt|Hge].
  - reflexivity.
  - rewrite (skipn_all2 lines) by lia. reflexivity.
Qed.

(** A cursor at the end of the second line of a three-line text. *)
Lemma extractPrefixSuffix_column_at_line_end_witness :
  extractPrefixSuffix ("ab" +:+ nl +:+ "cd" +:+ nl +:+ "ef") 1 2 = ("ab", "ef").
Proof.
  exact (proj1 (extractPrefixSuffix_column_at_line_end
                  ("ab" +:+ nl +:+ "cd" +:+ nl +:+ "ef") 1 2 ltac:(vm_compute; discriminate))).
Defined.

(** With the column inside the cursor line, the part of that line
    before the column is stored over the line itself, and the part
    after the column is then read from what was stored: it is lost. *)
Example extractPrefixSuffix_inside_line :
  extractPrefixSuffix ("ab" +:+ nl +:+ "cd" +:+ nl) 1 1 = ("ab" +:+ nl +:+ "c", "").
Proof. reflexivity. Qed.

End PrefixSuffix.

(** ** The token budget *)

Section TokenBudget.

Import GoState Context.

Lemma len_take (n : nat) (s : string) :
  (n <= String.length s)%nat -> String.length (take n s) = n.
Proof.
  revert s. induction n as [|n IH]; intros [|c s] Hn; simpl in *; try lia.
  rewrite IH; lia.
Qed.

Lemma len_drop (n : nat) (s : string) :
  String.length (drop n s) = (String.length s - n)%nat.
Proof.
  revert s. induction n as [|n IH]; intros [|c s]; simpl; try lia.
  apply IH.
Qed.

(** What the trimming pass does to a context over the budget: the
    discussion is cut to its last 1000 bytes when its estimate is above
    1000 tokens, the instructions to their first 2000 bytes when their
    estimate is above 2000 tokens, and nothing else is touched. *)
Lemma trimToTokenBudget_over_budget (maxTokens : Z) (c : CompletionContext) :
  maxTokens <
    fold_left (fun acc f => acc + estimateTokens (Content f)) (AdditionalFiles c)
      (estimateTokens (Prefix c) + estimateTokens (Suffix c) +
       estimateTokens (AgentsInstructions c) + estimateTokens (DiscussionContext c)) ->
  let c' := snd (trimToTokenBudget maxTokens c) in
  Prefix c' = Prefix c /\ Suffix c' = Suffix c /\
  AdditionalFiles c' = AdditionalFiles c /\ Language c' = Language c /\
  DiscussionContext c' =
    (if estimateTokens (DiscussionContext c) >? 1000
     then slice_from (DiscussionContext c) (len (DiscussionContext c) - 1000)
     else DiscussionContext c) /\
  AgentsInstructions c' =
    (if estimateTokens (AgentsInstructions c) >? 2000
     then slice_to (AgentsInstructions c) 2000
     else AgentsInstructions c).
Proof.
  intros Hover. unfold trimToTokenBudget, mbind, M_bind, bind, gets, when, modify, mret, M_ret, ret.
  simpl.
  match goal with |- context [?a <=? maxTokens] => destruct (Z.leb_spec a maxTokens) as [Hle|_] end;
    [lia|].
  destruct (estimateTokens (DiscussionContext c) >? 1000);
  destruct c as [p s a d fs lang]; simpl;
  destruct (estimateTokens a >? 2000); simpl; repeat split; reflexivity.
Qed.

(** A context within the budget is left as it is. *)
Lemma trimToTokenBudget_within_budget (maxTokens : Z) (c : CompletionContext) :
  fold_left (fun acc f => acc + estimateTokens (Content f)) (AdditionalFiles c)
    (estimateTokens (Prefix c) + estimateTokens (Suffix c) +
     estimateTokens (AgentsInstructions c) + estimateTokens (DiscussionContext c))
    <= maxTokens ->
  snd (trimToTokenBudget maxTokens c) = c.
Proof.
  intros Hle. unfold trimToTokenBudget, mbind, M_bind, bind, gets, mret, M_ret, ret.
  simpl.
  match goal with |- context [?a <=? maxTokens] => destruct (Z.leb_spec a maxTokens) end;
    [reflexivity|lia].
Qed.

(** The sizes of what the two cuts leave. *)
Lemma cut_sizes (d a : string) :
  estimateTokens d > 1000 -> estimateTokens a > 2000 ->
  len (slice_from d (len d - 1000)) = 1000 /\ len (slice_to a 2000) = 2000.
Proof.
  unfold estimateTokens, slice_from, slice_to, len. intros Hd Ha.
  assert (4000 <= Z.of_nat (String.length d)).
  { destruct (Z.le_gt_cases 4000 (Z.of_nat (String.length d))) as [|Hlt]; [assumption|].
    assert (Z.of_nat (String.length d) ÷ 4 <= 3999 ÷ 4) by (apply Z.quot_le_mono; lia).
    change (3999 ÷ 4) with 999 in *. lia. }
  assert (8000 <= Z.of_nat (String.length a)).
  { destruct (Z.le_gt_cases 8000 (Z.of_nat (String.length a))) as [|Hlt]; [assumption|].
    assert (Z.of_nat (String.length a) ÷ 4 <= 7999 ÷ 4) by (apply Z.quot_le_mono; lia).
    change (7999 ÷ 4) with 1999 in *. lia. }
  rewrite len_drop, len_take by lia. lia.
Qed.

(** C2.  The context of the specification's example (5000 bytes of
    source, instructions of 10000 bytes, a discussion of 5000 bytes)
    against a budget of 1000 tokens: the pass leaves the last 1000
    bytes of the discussion and the first 2000 bytes of the
    instructions, which are 250 and 500 tokens by its own estimate and
    not the 1000 and 2000 tokens it tests against; the text before and
    after the cursor and the auxiliary files are left as they are. *)
Theorem trimToTokenBudget_cuts_bytes_not_tokens :
  let c := Scenario.big_ctx in
  let c' := snd (trimToTokenBudget 1000 c) in
  (len (Prefix c) + len (Suffix c) = 5000 /\
   len (AgentsInstructions c) = 10000 /\ len (DiscussionContext c) = 5000) /\
  (len (DiscussionContext c') = 1000 /\ estimateTokens (DiscussionContext c') = 250 /\
   DiscussionContext c' = slice_from (DiscussionContext c) 4000) /\
  (len (AgentsInstructions c') = 2000 /\ estimateTokens (AgentsInstructions c') = 500 /\
   AgentsInstructions c' = slice_to (AgentsInstructions c) 2000) /\
  Prefix c' = Prefix c /\ Suffix c' = Suffix c /\ AdditionalFiles c' = AdditionalFiles c.
Proof. vm_compute. repeat split; reflexivity. Qed.

(** The same cut on the way through [GatherContext]: an AGENTS.md of
    10000 bytes, against a budget of 1000 tokens, comes out as its
    first 2000 bytes. *)
Example GatherContext_cuts_instructions_to_2000_bytes :
  match Gather.GatherContext (lib := Unix.lib) 8 (Gather.mkContextGatherer 1000)
          Scenario.req Scenario.source Scenario.pg_long_instructions with
  | Some (inl c) => AgentsInstructions c = Repeat "i" (Z.to_nat 2000)
  | _ => False
  end.
Proof. vm_compute. reflexivity. Qed.

End TokenBudget.

(** ** The prompt *)

Section Prompt.

Import GoState Context Fim.

Lemma keeps_bind {A B} (m : M Frame A) (k : A -> M Frame B) :
  (forall fr, ctx (snd (m fr)) = ctx fr) ->
  (forall a fr, ctx (snd (k a fr)) = ctx fr) ->
  forall fr, ctx (snd ((m ≫= k) fr)) = ctx fr.
Proof.
  intros Hm Hk fr. unfold mbind, M_bind, bind.
  specialize (Hm fr). destruct (m fr) as [a fr']. simpl in Hm.
  rewrite Hk. exact Hm.
Qed.

Lemma keeps_WriteString (s : string) (fr : Frame) :
  ctx (snd (WriteString s fr)) = ctx fr.
Proof. reflexivity. Qed.

Lemma keeps_field {A} (f : CompletionContext -> A) (fr : Frame) :
  ctx (snd (field f fr)) = ctx fr.
Proof. reflexivity. Qed.

Lemma keeps_when (b : bool) (m : M Frame unit) :
  (forall fr, ctx (snd (m fr)) = ctx fr) ->
  forall fr, ctx (snd (when b m fr)) = ctx fr.
Proof. intros Hm fr. destruct b; simpl; [apply Hm|reflexivity]. Qed.

Lemma keeps_writeFiles (files : list FileContext) (fr : Frame) :
  ctx (snd (writeFiles files fr)) = ctx fr.
Proof.
  revert fr. induction files as [|file rest IH]; intros fr; [reflexivity|].
  simpl. apply keeps_bind; [apply keeps_WriteString|intros _; apply IH].
Qed.

(** The body of [FormatPrompt] writes to its builder only. *)
Lemma keeps_FormatPrompt_body (fr : Frame) :
  ctx (snd (FormatPrompt_body fr)) = ctx fr.
Proof.
  unfold FormatPrompt_body.
  repeat first
    [ apply keeps_WriteString
    | apply keeps_field
    | apply keeps_writeFiles
    | apply keeps_when
    | apply keeps_bind; [|intros ?]
    | reflexivity ].
Qed.

(** Rendering leaves the context as it was. *)
Lemma FormatPrompt_keeps_context (f : FIMFormatter) (c : CompletionContext) :
  snd (FormatPrompt f c) = c.
Proof.
  unfold FormatPrompt.
  pose proof (keeps_FormatPrompt_body (mkFrame c "")) as H.
  destruct (FormatPrompt_body (mkFrame c "")) as [out fr]. exact H.
Qed.

(** C8.  Rendering a context and then rendering what the first
    rendering left behind the same pointer gives the same bytes, and
    both leave the context as it was; the formatter object plays no
    part in the output. *)
Theorem FormatPrompt_pure (f1 f2 : FIMFormatter) (c : CompletionContext) :
  let '(out1, c1) := FormatPrompt f1 c in
  let '(out2, c2) := FormatPrompt f2 c1 in
  out1 = out2 /\ c1 = c /\ c2 = c.
Proof.
  pose proof (FormatPrompt_keeps_context f1 c) as H1.
  destruct (FormatPrompt f1 c) as [out1 c1] eqn:E1. simpl in H1. subst c1.
  pose proof (FormatPrompt_keeps_context f2 c) as H2.
  destruct (FormatPrompt f2 c) as [out2 c2] eqn:E2. simpl in H2. subst c2.
  change (FormatPrompt f2 c) with (FormatPrompt f1 c) in E2.
  rewrite E1 in E2. injection E2 as ->. auto.
Qed.

End Prompt.

(** ** Validation of the configuration *)

Section Validation.

Import Errors Config.

Lemma nonempty_false (s : string) : nonempty s = false <-> s = "".
Proof. destruct s; simpl; split; congruence. Qed.

(** The default configuration is valid. *)
Lemma Validate_DefaultConfig : Validate DefaultConfig = None.
Proof. reflexivity. Qed.



(** The service is made with the cache size of the configuration,
    which is all that is ever done with it. *)
Lemma NewCompletionService_maxSize (c : Config) (s : Service.CompletionService) :
  Service.NewCompletionService (Some c) = inl s ->
  Cache.maxSize (Service.cache s) = MaxCacheSize c /\
  Cache.ttl (Service.cache s) = CacheTTL c /\
  Cache.enabled (Service.cache s) = EnableCache c /\
  Cache.entries (Service.cache s) = ∅.
Proof.
  unfold Service.NewCompletionService. destruct (Validate c); [discriminate|].
  intros [= <-]. auto.
Qed.

(** The fields validation does not read can hold anything. *)
Lemma Validate_ignores_unchecked_fields (c : Config) (timeout ttl size rounds : Z) :
  Validate (mkConfig (DefaultLLM c) (MaxTokens c) (Temperature c) timeout
              (MaxContextTokens c) (IncludeAgentsFile c) (IncludeDiscussion c) rounds
              (EnableCache c) ttl size (MaxRequestsPerMinute c) (MaxRequestsPerHour c))
  = Validate c.
Proof. reflexivity. Qed.

(** A temperature that is not a number compares neither below 0 nor
    above 2. *)
Example Validate_accepts_nan :
  Validate (mkConfig "m" 1 PrimFloat.nan 1 1 true true 1 true 1 1 1 1) = None.
Proof. reflexivity. Qed.

End Validation.

(** ** The rate limiter *)

Section Limiter.

Import GoState Errors RateLimit Calls.

Lemma Minute_lt_Hour : Time.Minute < Time.Hour.
Proof. reflexivity. Qed.

Lemma roll_in_window (now : Z) (c : RequestCount) :
  now - LastMinuteReset c < Time.Minute ->
  now - LastHourReset c < Time.Hour ->
  roll now c = c.
Proof.
  intros Hm Hh. unfold roll.
  destruct (Z.geb_spec (now - LastMinuteReset c) Time.Minute); [lia|].
  destruct (Z.geb_spec (now - LastHourReset c) Time.Hour); [lia|reflexivity].
Qed.

(** The first call for a tenant the limiter has not seen. *)
Lemma CheckLimit_fresh (now : Z) (p : string) (maxPerMin maxPerHour : Z) (r : RateLimiter) :
  requestCounts r !! p = None ->
  0 < maxPerMin -> 0 < maxPerHour ->
  CheckLimit now p maxPerMin maxPerHour r
  = (None, mkRateLimiter (<[p := mkRequestCount 1 1 now now]> (requestCounts r))).
Proof.
  intros Hnone Hm Hh. unfold CheckLimit. rewrite Hnone.
  rewrite roll_in_window by (simpl; rewrite Z.sub_diag; reflexivity).
  simpl.
  destruct (Z.geb_spec 0 maxPerMin); [lia|].
  destruct (Z.geb_spec 0 maxPerHour); [lia|].
  reflexivity.
Qed.

(** A call inside both windows and below both thresholds. *)
Lemma CheckLimit_accept (now : Z) (p : string) (maxPerMin maxPerHour : Z)
    (r : RateLimiter) (c : RequestCount) :
  requestCounts r !! p = Some c ->
  now - LastMinuteReset c < Time.Minute ->
  now - LastHourReset c < Time.Hour ->
  Minute c < maxPerMin -> Hour c < maxPerHour ->
  CheckLimit now p maxPerMin maxPerHour r
  = (None, mkRateLimiter (<[p := increment c]> (requestCounts r))).
Proof.
  intros Hc Hm Hh Hlm Hlh. unfold CheckLimit. rewrite Hc.
  rewrite roll_in_window by assumption.
  destruct (Z.geb_spec (Minute c) maxPerMin); [lia|].
  destruct (Z.geb_spec (Hour c) maxPerHour); [lia|].
  reflexivity.
Qed.

(** A call inside both windows with the minute count at its threshold. *)
Lemma CheckLimit_reject_minute (now : Z) (p : string) (maxPerMin maxPerHour : Z)
    (r : RateLimiter) (c : RequestCount) :
  requestCounts r !! p = Some c ->
  now - LastMinuteReset c < Time.Minute ->
  now - LastHourReset c < Time.Hour ->
  maxPerMin <= Minute c ->
  CheckLimit now p maxPerMin maxPerHour r
  = (Some (WrapRateLimitError "per-minute rate limit exceeded" ErrRateLimitExceeded), r).
Proof.
  intros Hc Hm Hh Hlm. unfold CheckLimit. rewrite Hc.
  rewrite roll_in_window by assumption.
  destruct (Z.geb_spec (Minute c) maxPerMin); [|lia].
  rewrite insert_id by assumption. destruct r; reflexivity.
Qed.

(** What any call leaves in the tenant's counter: the windows that
    have passed are reset, and then both counts go up by one together
    when the call is accepted and neither does when it is rejected. *)
Lemma CheckLimit_counter (now : Z) (p : string) (maxPerMin maxPerHour : Z) (r : RateLimiter) :
  let before := roll now (default (mkRequestCount 0 0 now now) (requestCounts r !! p)) in
  let '(res, r') := CheckLimit now p maxPerMin maxPerHour r in
  match res with
  | None => requestCounts r' !! p = Some (increment before)
  | Some err => is_rate_limited err = true /\ requestCounts r' !! p = Some before
  end.
Proof.
  unfold CheckLimit.
  destruct (requestCounts r !! p) as [c|]; simpl;
    repeat match goal with |- context [?a >=? ?b] =>
             lazymatch a with
             | Minute _ => destruct (a >=? b)
             | Hour _ => destruct (a >=? b)
             end
           end; simpl; rewrite ?lookup_insert_eq; auto.
Qed.

Lemma CheckLimits_app (ts1 ts2 : list Z) (p : string) (mm mh : Z) (r : RateLimiter) :
  CheckLimits (ts1 ++ ts2) p mm mh r =
    let '(res1, r1) := CheckLimits ts1 p mm mh r in
    let '(res2, r2) := CheckLimits ts2 p mm mh r1 in
    ((res1 ++ res2)%list, r2).
Proof.
  revert r. induction ts1 as [|t ts1 IH]; intros r; simpl.
  - unfold mret, M_ret, ret. destruct (CheckLimits ts2 p mm mh r); reflexivity.
  - unfold mbind, M_bind, bind, mret, M_ret, ret in *.
    destruct (CheckLimit t p mm mh r) as [res r0].
    rewrite IH.
    destruct (CheckLimits ts1 p mm mh r0) as [res1 r1].
    destruct (CheckLimits ts2 p mm mh r1) as [res2 r2]. reflexivity.
Qed.

(** Calls inside the windows, as long as the thresholds leave room,
    are all accepted, and each adds one to both counts. *)
Lemma CheckLimits_accept_all (ts : list Z) (p : string) (mm mh : Z) :
  forall (r : RateLimiter) (m h t0 : Z),
    requestCounts r !! p = Some (mkRequestCount m h t0 t0) ->
    Forall (fun t => t - t0 < Time.Minute) ts ->
    m + Z.of_nat (length ts) <= mm -> h + Z.of_nat (length ts) <= mh ->
    CheckLimits ts p mm mh r =
      (replicate (length ts) None,
       mkRateLimiter (<[p := mkRequestCount (m + Z.of_nat (length ts)) (h + Z.of_nat (length ts)) t0 t0]>
                        (requestCounts r))).
Proof.
  induction ts as [|t ts IH]; intros r m h t0 Hc Hin Hm Hh.
  - simpl. rewrite !Z.add_0_r. rewrite insert_id by assumption. destruct r; reflexivity.
  - apply Forall_cons in Hin as [Ht Hin]. simpl length in *.
    simpl. unfold mbind, M_bind, bind, mret, M_ret, ret.
    rewrite (CheckLimit_accept t p mm mh r (mkRequestCount m h t0 t0)); simpl;
      try assumption; try lia; [|pose proof Minute_lt_Hour; lia].
    rewrite (IH _ (m + 1) (h + 1) t0); simpl;
      try assumption; try lia; [|apply lookup_insert_eq].
    rewrite insert_insert_eq.
    replace (m + 1 + Z.of_nat (length ts)) with (m + Z.pos (Pos.of_succ_nat (length ts))) by lia.
    replace (h + 1 + Z.of_nat (length ts)) with (h + Z.pos (Pos.of_succ_nat (length ts))) by lia.
    reflexivity.
Qed.

(** C5.  A tenant the limiter has not seen calls [CheckLimit] with
    thresholds 10 and 50 at [t0] and then at ten more times, all
    less than a minute after [t0].  The first ten calls are accepted
    and the eleventh is rejected with the rate-limit error; after [k]
    of the accepted calls both counts are [k], and the rejected call
    leaves both at 10; a call a minute or more after [t0] is accepted
    again. *)
Theorem CheckLimit_ten_per_minute (r : RateLimiter) (p : string) (t0 : Z)
    (ts : list Z) (t' : Z) :
  requestCounts r !! p = None ->
  length ts = 10%nat ->
  Forall (fun t => t - t0 < Time.Minute) ts ->
  Time.Minute <= t' - t0 ->
  let '(results, r11) := CheckLimits (t0 :: ts) p 10 50 r in
  results =
    (replicate 10 None ++
     [Some (WrapRateLimitError "per-minute rate limit exceeded" ErrRateLimitExceeded)])%list
  /\ (forall k : nat, (1 <= k <= 10)%nat ->
        requestCounts (snd (CheckLimits (firstn k (t0 :: ts)) p 10 50 r)) !! p
        = Some (mkRequestCount (Z.of_nat k) (Z.of_nat k) t0 t0))
  /\ requestCounts r11 !! p = Some (mkRequestCount 10 10 t0 t0)
  /\ fst (CheckLimit t' p 10 50 r11) = None.
Proof.
  intros Hfresh Hlen Hin Hlater.
  (* the state after the first call and [j] more accepted calls *)
  assert (forall us : list Z, Forall (fun t => t - t0 < Time.Minute) us ->
            (length us <= 9)%nat ->
            CheckLimits (t0 :: us) p 10 50 r =
              (None :: replicate (length us) None,
               mkRateLimiter (<[p := mkRequestCount (1 + Z.of_nat (length us))
                                             (1 + Z.of_nat (length us)) t0 t0]>
                                (requestCounts r)))) as Hprefix.
  { intros us Hus Hn. simpl. unfold mbind, M_bind, bind, mret, M_ret, ret.
    rewrite CheckLimit_fresh by (assumption || lia).
    rewrite (CheckLimits_accept_all us p 10 50 _ 1 1 t0); simpl;
      try assumption; try lia; [|apply lookup_insert_eq].
    rewrite insert_insert_eq. reflexivity. }
  assert (ts = (firstn 9 ts ++ skipn 9 ts)%list) as Hsplit by (symmetry; apply firstn_skipn).
  destruct (skipn 9 ts) as [|t11 [|? ?]] eqn:Hlast;
    try (apply (f_equal (@length Z)) in Hlast; rewrite length_skipn in Hlast;
         simpl in Hlast; lia).
  assert (length (firstn 9 ts) = 9%nat) as Hlen9 by (rewrite length_firstn; lia).
  assert (Forall (fun t => t - t0 < Time.Minute) (firstn 9 ts)) as Hin9
    by (apply Forall_take; assumption).
  assert (t11 - t0 < Time.Minute) as Ht11.
  { rewrite Hsplit in Hin. apply Forall_app in Hin as [_ Hin].
    apply Forall_cons in Hin as [Hin _]. exact Hin. }
  pose proof Minute_lt_Hour as HMH.
  remember (firstn 9 ts) as ts9 eqn:Ets9. clear Ets9 Hlast. subst ts.
  change (t0 :: ts9 ++ [t11])%list with ((t0 :: ts9) ++ [t11])%list at 1.
  rewrite CheckLimits_app, Hprefix by (assumption || lia).
  rewrite Hlen9. simpl CheckLimits.
  unfold mbind, M_bind, bind, mret, M_ret, ret.
  rewrite (CheckLimit_reject_minute t11 p 10 50 _ (mkRequestCount 10 10 t0 t0));
    simpl; try lia; [|apply lookup_insert_eq].
  split; [reflexivity|]. split; [|split].
  - intros k Hk.
    replace (firstn k (t0 :: ts9 ++ [t11])) with (t0 :: firstn (k - 1) (ts9 ++ [t11]))
      by (destruct k; [lia|simpl; rewrite Nat.sub_0_r; reflexivity]).
    rewrite Hprefix; [|apply Forall_take; assumption|rewrite length_firstn; lia].
    simpl. rewrite lookup_insert_eq, length_firstn.
    rewrite Hlen.
    replace (1 + Z.of_nat (Nat.min (k - 1) 10)) with (Z.of_nat k) by lia.
    reflexivity.
  - apply lookup_insert_eq.
  - unfold CheckLimit. simpl. rewrite lookup_insert_eq. unfold roll. simpl.
    destruct (Z.geb_spec (t' - t0) Time.Minute); [|lia]. simpl.
    destruct (Z.geb_spec (t' - t0) Time.Hour); reflexivity.
Qed.

(** Eleven calls one second apart from second 0 on, and a call at
    second 60, for a tenant of an empty limiter. *)
Lemma CheckLimit_ten_per_minute_witness :
  let times := map (fun i => Z.of_nat i * Time.Second) (seq 0 11) in
  let '(results, r11) := CheckLimits times "storm" 10 50 NewRateLimiter in
  results =
    (replicate 10 None ++
     [Some (WrapRateLimitError "per-minute rate limit exceeded" ErrRateLimitExceeded)])%list
  /\ GetStats (10 * Time.Second) "storm" r11 = (10, 10, true)
  /\ fst (CheckLimit (60 * Time.Second) "storm" 10 50 r11) = None.
Proof.
  pose proof (CheckLimit_ten_per_minute NewRateLimiter "storm" 0
                (map (fun i => Z.of_nat i * Time.Second) (seq 1 10)) (60 * Time.Second)
                ltac:(reflexivity) ltac:(reflexivity)
                ltac:(repeat constructor) ltac:(vm_compute; discriminate)) as H.
  cbv zeta.
  change (map (fun i => Z.of_nat i * Time.Second) (seq 0 11))
    with (0 :: map (fun i => Z.of_nat i * Time.Second) (seq 1 10)).
  destruct (CheckLimits _ "storm" 10 50 NewRateLimiter) as [results r11].
  destruct H as (Hres & _ & Hcount & Hagain).
  split; [exact Hres|]. split; [|exact Hagain].
  unfold GetStats. rewrite Hcount. reflexivity.
Defined.

End Limiter.

(** ** The cache: lookups *)

Section Lookup.

Import GoState Api Cache.

Lemma String_eqb_false (a b : string) : String.eqb a b = false <-> a <> b.
Proof. apply String.eqb_neq. Qed.

(** The saturation from below is not seen by a test against a
    Duration. *)
Lemma Since_test (now t d : Z) :
  Time.minDuration <= d -> (Time.Sub now t >? d) = (Time.Since now t >? d).
Proof.
  unfold Time.Sub, Time.Since. intros Hd.
  destruct (Z.gtb_spec (Z.max Time.minDuration (Z.min Time.maxDuration (now - t))) d);
    destruct (Z.gtb_spec (Z.min Time.maxDuration (now - t)) d); lia || reflexivity.
Qed.

(** The age measured is within the TTL exactly when the difference of
    the two readings is, for a TTL below the largest Duration and for a
    difference that is a Duration. *)
Lemma Since_le_iff (now t d : Z) :
  d < Time.maxDuration \/ now - t <= Time.maxDuration ->
  Time.Since now t <= d <-> now - t <= d.
Proof. unfold Time.Since. lia. Qed.

Lemma Since_le (now t d : Z) : now - t <= d -> Time.Since now t <= d.
Proof. unfold Time.Since. lia. Qed.

(** [Get] in an enabled cache, with the age as [time.Since] gives it. *)
Lemma Get_hit_measured (now : Z) (c : Cache) (req : CompletionRequest)
    (fileContent : string) (p : ptr) :
  enabled c = true ->
  Get now c req fileContent = Some p <->
  exists entry, entries c !! cacheKey req = Some entry /\
                Time.Since now (CreatedAt entry) <= ttl c /\
                hashContent fileContent = FileHash entry /\
                p = Response entry.
Proof.
  intros Hen. unfold Get. rewrite Hen. simpl.
  destruct (entries c !! cacheKey req) as [entry|];
    [|split; [discriminate|intros (e & He & _); discriminate]].
  destruct (Z.gtb_spec (Time.Since now (CreatedAt entry)) (ttl c)) as [Hold|Hfresh].
  { split; [discriminate|]. intros (e & He & Hage & _). injection He as <-. lia. }
  destruct (String.eqb_spec (FileHash entry) (hashContent fileContent)) as [Heq|Hne]; simpl.
  - split.
    + intros [= <-]. exists entry. auto.
    + intros (e & He & _ & _ & ->). injection He as <-. reflexivity.
  - split; [discriminate|]. intros (e & He & _ & Hh & _). injection He as <-. congruence.
Qed.

(** C4.  For an enabled cache, [Get] returns the stored response
    exactly when there is an entry under the key of the request, its
    age as [time.Since] measures it is at most the TTL, and the hash of
    the current content is the hash stored in it; when the hashes differ
    it returns nothing whatever the age.  [time.Since] gives the
    difference [now - CreatedAt], or the largest Duration when the
    difference is above it.  So for every TTL below the largest Duration
    and every reading of the clock: [Get] returns the stored response
    exactly when there is an entry under the key, [now - CreatedAt] is
    at most the TTL and the hashes are equal; when [now - CreatedAt] is
    over the TTL it returns nothing whatever the hashes are; and for an
    entry written by [Put] the stored hash is the hash of the content at
    the time of the write. *)
Theorem Get_hit_iff (now : Z) (c : Cache) (req : CompletionRequest)
    (fileContent : string) :
  enabled c = true ->
  (forall p : ptr,
     Get now c req fileContent = Some p <->
     exists entry, entries c !! cacheKey req = Some entry /\
                   Time.Since now (CreatedAt entry) <= ttl c /\
                   hashContent fileContent = FileHash entry /\
                   p = Response entry)
  /\ (forall entry, entries c !! cacheKey req = Some entry ->
        hashContent fileContent <> FileHash entry -> Get now c req fileContent = None)
  /\ (ttl c < Time.maxDuration ->
      (forall p : ptr,
         Get now c req fileContent = Some p <->
         exists entry, entries c !! cacheKey req = Some entry /\
                       now - CreatedAt entry <= ttl c /\
                       hashContent fileContent = FileHash entry /\
                       p = Response entry)
      /\ (forall entry, entries c !! cacheKey req = Some entry ->
            ttl c < now - CreatedAt entry -> Get now c req fileContent = None)
      /\ (forall (range : RangeOrder) (written : Z) (oldContent : string) (resp p : ptr),
            Get now (snd (Put range written req oldContent resp c)) req fileContent = Some p <->
            now - written <= ttl c /\ hashContent fileContent = hashContent oldContent /\
            p = resp)).
Proof.
  intros Hen.
  split; [intros p; apply Get_hit_measured; exact Hen|]. split.
  { intros entry He Hne.
    destruct (Get now c req fileContent) as [p|] eqn:E; [|reflexivity].
    apply Get_hit_measured in E as (e & He' & _ & Hh & _); [|exact Hen].
    rewrite He in He'. injection He' as <-. congruence. }
  intros Httl.
  assert (forall (c' : Cache) p, enabled c' = true -> ttl c' = ttl c ->
            Get now c' req fileContent = Some p <->
            exists entry, entries c' !! cacheKey req = Some entry /\
                          now - CreatedAt entry <= ttl c' /\
                          hashContent fileContent = FileHash entry /\
                          p = Response entry) as Hiff.
  { intros c' p Hen' Hsame. rewrite Get_hit_measured by exact Hen'.
    split; intros (e & He & Hage & Hrest); exists e; (split; [exact He|]);
      (split; [|exact Hrest]);
      apply (Since_le_iff now (CreatedAt e) (ttl c')) in Hage;
      try exact Hage; left; rewrite Hsame; exact Httl. }
  split; [intros p; apply Hiff; [exact Hen|reflexivity]|]. split.
  - intros entry He Hold.
    destruct (Get now c req fileContent) as [p|] eqn:E; [|reflexivity].
    apply Hiff in E as (e & He' & Hage & _); [|exact Hen|reflexivity].
    rewrite He in He'. injection He' as <-. lia.
  - intros range written oldContent resp p.
    assert (snd (Put range written req oldContent resp c)
            = mkCache (<[cacheKey req := mkCacheEntry resp written (hashContent oldContent)]>
                         (evict range (entries c)))
                      (ttl c) (maxSize c) (enabled c)) as ->
      by (unfold Put; rewrite Hen; reflexivity).
    rewrite Hiff by (exact Hen || reflexivity). simpl. rewrite lookup_insert_eq. split.
    + intros (e & [= <-] & Hage & Hh & ->). simpl in *. auto.
    + intros (Hage & Hh & ->). eexists. split; [reflexivity|]. simpl. auto.
Qed.

(** A response stored at second 0 with a TTL of five minutes, read at
    second 10 with the content unchanged. *)
Lemma Get_hit_iff_witness :
  let c := snd (Put map_to_list 0 Scenario.req Scenario.source 0%nat
                  (NewCache (5 * Time.Minute) 1000 true)) in
  Get (10 * Time.Second) c Scenario.req Scenario.source = Some 0%nat.
Proof.
  cbv zeta.
  apply (proj2 (proj2 (proj2 (proj2 (Get_hit_iff (10 * Time.Second)
                                       (NewCache (5 * Time.Minute) 1000 true)
                                       Scenario.req Scenario.source ltac:(reflexivity)))
                               ltac:(vm_compute; reflexivity)))).
  split; [vm_compute; discriminate|]. split; reflexivity.
Defined.

(** One byte of the content changed, well inside the TTL: nothing is
    returned.  The content unchanged, one nanosecond past the TTL:
    nothing is returned. *)
Example Get_after_change_or_expiry :
  let c := snd (Put map_to_list 0 Scenario.req "abc" 0%nat
                  (NewCache (5 * Time.Minute) 1000 true)) in
  Get 1 c Scenario.req "abc" = Some 0%nat /\
  Get 1 c Scenario.req "abd" = None /\
  Get (5 * Time.Minute) c Scenario.req "abc" = Some 0%nat /\
  Get (5 * Time.Minute + 1) c Scenario.req "abc" = None.
Proof. vm_compute. repeat split; reflexivity. Qed.

(** With the largest Duration as TTL nothing expires: the age measured
    is never above it, so [Get] returns the entry under the key whenever
    the hashes are equal, however long ago it was written. *)
Lemma Get_largest_ttl_never_expires (now : Z) (c : Cache) (req : CompletionRequest)
    (fileContent : string) (p : ptr) :
  enabled c = true ->
  Time.maxDuration <= ttl c ->
  Get now c req fileContent = Some p <->
  exists entry, entries c !! cacheKey req = Some entry /\
                hashContent fileContent = FileHash entry /\
                p = Response entry.
Proof.
  intros Hen Httl. rewrite Get_hit_measured by exact Hen.
  split.
  - intros (e & He & _ & Hrest). exists e. auto.
  - intros (e & He & Hrest). exists e. split; [exact He|]. split; [|exact Hrest].
    unfold Time.Since. lia.
Qed.

(** An entry written at the epoch and read more than 292 years later,
    with the largest Duration as TTL. *)
Example Get_after_292_years :
  let c := snd (Put map_to_list 0 Scenario.req "abc" 0%nat
                  (NewCache Time.maxDuration 1000 true)) in
  Time.maxDuration < (Time.maxDuration + Time.Hour) - 0 /\
  Get (Time.maxDuration + Time.Hour) c Scenario.req "abc" = Some 0%nat.
Proof. vm_compute. split; reflexivity. Qed.

(** A disabled cache returns nothing and stores nothing. *)
Lemma disabled_cache (range : RangeOrder) (now : Z) (c : Cache)
    (req : CompletionRequest) (fileContent : string) (resp : ptr) :
  enabled c = false ->
  Get now c req fileContent = None /\ snd (Put range now req fileContent resp c) = c.
Proof. intros Hdis. unfold Get, Put. rewrite Hdis. auto. Qed.

End Lookup.

(** ** The cache: eviction *)

Section Eviction.

Import GoState Api Cache Calls.

Lemma cacheKey_not_empty (req : CompletionRequest) : cacheKey req <> "".
Proof.
  unfold cacheKey. destruct (ProjectID req); simpl; discriminate.
Qed.

Lemma nonempty_true (s : string) : nonempty s = true <-> s <> "".
Proof. destruct s; simpl; split; congruence. Qed.

Lemma oldest_snoc (visit : list (string * CacheEntry)) (kv : string * CacheEntry) :
  oldest (visit ++ [kv]) = older (oldest visit) kv.
Proof. unfold oldest. rewrite fold_left_app. reflexivity. Qed.

(** What the loop holds after visiting [visit], none of whose keys is
    empty: nothing yet, or the key and the time of an entry it has
    visited that none of the visited entries is older than. *)
Lemma oldest_invariant (visit : list (string * CacheEntry)) (k : string) (t : Z) :
  (forall k e, (k, e) ∈ visit -> k <> "") ->
  oldest visit = (k, t) ->
  (visit = [] /\ k = "") \/
  (k <> "" /\ (exists e, (k, e) ∈ visit /\ CreatedAt e = t) /\
   forall k' e', (k', e') ∈ visit -> t <= CreatedAt e').
Proof.
  revert k t. induction visit as [|[k2 e2] visit IH] using rev_ind; intros k t Hkeys Hold.
  - left. injection Hold as <- _. auto.
  - rewrite oldest_snoc in Hold.
    assert (forall k e, (k, e) ∈ visit -> k <> "") as Hkeys'
      by (intros k' e' Hin; apply (Hkeys k' e'); apply elem_of_app; auto).
    destruct (oldest visit) as [k1 t1] eqn:Hprev.
    specialize (IH k1 t1 Hkeys' eq_refl).
    assert (k2 <> "") as Hk2 by (apply (Hkeys k2 e2); apply elem_of_app; right; constructor).
    right. unfold older in Hold.
    destruct IH as [[-> ->]|(Hk & (e & Hin & Ht) & Hmin)].
    + simpl in Hold. injection Hold as <- <-. split; [exact Hk2|]. split.
      * exists e2. split; [constructor|reflexivity].
      * intros k' e' Hin. apply list_elem_of_singleton in Hin. injection Hin as -> ->. lia.
    + replace (String.eqb k1 "") with false in Hold
        by (symmetry; apply String.eqb_neq; exact Hk).
      simpl in Hold. destruct (Z.ltb_spec (CreatedAt e2) t1) as [Hlt|Hge];
        injection Hold as <- <-.
      * split; [exact Hk2|]. split.
        -- exists e2. split; [apply elem_of_app; right; constructor|reflexivity].
        -- intros k' e' Hin'. apply elem_of_app in Hin' as [Hin'|Hin'].
           ++ specialize (Hmin k' e' Hin'). lia.
           ++ apply list_elem_of_singleton in Hin'. injection Hin' as -> ->. lia.
      * split; [exact Hk|]. split.
        -- exists e. split; [apply elem_of_app; left; exact Hin|exact Ht].
        -- intros k' e' Hin'. apply elem_of_app in Hin' as [Hin'|Hin'].
           ++ apply (Hmin k' e' Hin').
           ++ apply list_elem_of_singleton in Hin'. injection Hin' as -> ->. lia.
Qed.

(** With at most 1000 entries nothing is evicted. *)
Lemma evict_at_most_1000 (range : RangeOrder) (m : gmap string CacheEntry) :
  Z.of_nat (size m) <= 1000 -> evict range m = m.
Proof.
  intros Hsize. unfold evict.
  destruct (Z.gtb_spec (Z.of_nat (size m)) 1000); [lia|reflexivity].
Qed.

(** With more than 1000 entries, one entry that none is older than is
    deleted. *)
Lemma evict_above_1000 (range : RangeOrder) (m : gmap string CacheEntry) :
  range_ok range -> m !! "" = None -> 1000 < Z.of_nat (size m) ->
  exists k e, m !! k = Some e /\
              (forall k' e', m !! k' = Some e' -> CreatedAt e <= CreatedAt e') /\
              evict range m = delete k m.
Proof.
  intros Hrange Hkeys Hsize. unfold evict.
  destruct (Z.gtb_spec (Z.of_nat (size m)) 1000); [|lia].
  assert (forall k e, (k, e) ∈ range m <-> m !! k = Some e) as Hin.
  { intros k e. rewrite (Hrange m). apply elem_of_map_to_list. }
  destruct (oldest (range m)) as [k t] eqn:Hold.
  destruct (oldest_invariant (range m) k t) as [[Hnil _]|(Hk & (e & He & Ht) & Hmin)];
    [|exact Hold| |].
  - intros k' e' Hin' ->. apply Hin in Hin'. congruence.
  - pose proof (f_equal (@length _) Hnil) as Hlen.
    rewrite (Permutation_length (Hrange m)), length_map_to_list in Hlen.
    simpl in Hlen. lia.
  - exists k, e. split; [apply Hin; exact He|]. split.
    + intros k' e' He'. rewrite Ht. apply (Hmin k' e'). apply Hin. exact He'.
    + replace (nonempty k) with true by (symmetry; apply nonempty_true; exact Hk).
      reflexivity.
Qed.

Lemma triple_eq {A B C} (a a' : A) (b b' : B) (c c' : C) :
  (a, b, c) = (a', b', c') -> a = a' /\ b = b' /\ c = c'.
Proof. intros [= -> -> ->]. auto. Qed.

(** A new key put into an enabled cache of at most 1000 entries: one
    more entry, and all that were there remain. *)
Lemma Put_new_key_at_most_1000 (range : RangeOrder) (now : Z) (req : CompletionRequest)
    (fileContent : string) (resp : ptr) (c : Cache) :
  enabled c = true -> (size (entries c) <= 1000)%nat ->
  entries c !! cacheKey req = None ->
  let c' := snd (Put range now req fileContent resp c) in
  size (entries c') = S (size (entries c)) /\ entries c ⊆ entries c'.
Proof.
  intros Hen Hsize Hnew. unfold Put. rewrite Hen. simpl.
  rewrite evict_at_most_1000 by lia. split.
  - apply map_size_insert_None. exact Hnew.
  - apply insert_subseteq. exact Hnew.
Qed.

(** C3, as stated, fails: a cache holding 1000 entries takes a 1001st
    distinct key without evicting anything, and then holds 1001. *)
Lemma Put_1001st_key_evicts_nothing :
  let c := Scenario.cache1000 in
  let c' := snd (Put map_to_list 1000 (Scenario.req_line 1000) "" 1000%nat c) in
  size (entries c) = 1000%nat /\
  entries c !! cacheKey (Scenario.req_line 1000) = None /\
  size (entries c') = 1001%nat /\
  entries c ⊆ entries c'.
Proof.
  assert ((enabled Scenario.cache1000,
           size (entries Scenario.cache1000),
           entries Scenario.cache1000 !! cacheKey (Scenario.req_line 1000))
          = (true, 1000%nat, None)) as Hc by (vm_compute; reflexivity).
  apply triple_eq in Hc as (Hen & Hsize & Hnew).
  destruct (Put_new_key_at_most_1000 map_to_list 1000 (Scenario.req_line 1000) "" 1000%nat
              Scenario.cache1000 Hen) as [Hsize' Hsub];
    [rewrite Hsize; apply le_n|exact Hnew|].
  rewrite Hsize in Hsize'.
  exact (conj Hsize (conj Hnew (conj Hsize' Hsub))).
Qed.

(** What [Put] leaves in an enabled cache. *)
Lemma Put_entries (range : RangeOrder) (now : Z) (req : CompletionRequest)
    (fileContent : string) (resp : ptr) (c : Cache) :
  enabled c = true ->
  entries (snd (Put range now req fileContent resp c))
  = <[cacheKey req := mkCacheEntry resp now (hashContent fileContent)]>
      (evict range (entries c)).
Proof. intros Hen. unfold Put. rewrite Hen. reflexivity. Qed.

(** [Put] keeps the number of entries at or below 1001, or where it
    was if it was above, and puts nothing under the empty key. *)
Lemma Put_keeps_bound (range : RangeOrder) (now : Z) (req : CompletionRequest)
    (fileContent : string) (resp : ptr) (c : Cache) :
  range_ok range -> enabled c = true -> entries c !! "" = None ->
  let c' := snd (Put range now req fileContent resp c) in
  (size (entries c') <= Nat.max 1001 (size (entries c)))%nat /\ entries c' !! "" = None.
Proof.
  intros Hrange Hen Hkeys c'. unfold c'. rewrite Put_entries by exact Hen.
  pose proof (cacheKey_not_empty req) as Hkey.
  rewrite lookup_insert_ne by exact Hkey.
  destruct (Z.gtb_spec (Z.of_nat (size (entries c))) 1000) as [Habove|Hbelow].
  - destruct (evict_above_1000 range (entries c) Hrange Hkeys) as (k & e & He & _ & ->);
      [lia|]. split.
    + rewrite map_size_insert, map_size_delete, He.
      destruct (delete k (entries c) !! cacheKey req); simpl; lia.
    + destruct (String.eqb_spec k "") as [->|Hne];
        [rewrite lookup_delete_eq|rewrite lookup_delete_ne by exact Hne]; auto.
  - rewrite evict_at_most_1000 by lia. split; [|exact Hkeys].
    rewrite map_size_insert. destruct (entries c !! cacheKey req); simpl; lia.
Qed.

(** C3, amended.  [Put] into an enabled cache holding more than 1000
    entries deletes exactly one entry before it inserts, one whose
    creation time no entry's is below; with 1000 entries or fewer it
    deletes none.  So a cache that holds at most 1001 entries holds at
    most 1001 afterwards. *)
Theorem Put_evicts_oldest_above_1000 (range : RangeOrder) (now : Z)
    (req : CompletionRequest) (fileContent : string) (resp : ptr) (c : Cache) :
  range_ok range -> enabled c = true -> entries c !! "" = None ->
  let c' := snd (Put range now req fileContent resp c) in
  let new := mkCacheEntry resp now (hashContent fileContent) in
  (if Z.of_nat (size (entries c)) >? 1000
   then exists k e,
          entries c !! k = Some e /\
          (forall k' e', entries c !! k' = Some e' -> CreatedAt e <= CreatedAt e') /\
          entries c' = <[cacheKey req := new]> (delete k (entries c))
   else entries c' = <[cacheKey req := new]> (entries c))
  /\ (size (entries c') <= Nat.max 1001 (size (entries c)))%nat
  /\ entries c' !! "" = None.
Proof.
  intros Hrange Hen Hkeys c' new.
  split; [|exact (Put_keeps_bound range now req fileContent resp c Hrange Hen Hkeys)].
  unfold c'. rewrite Put_entries by exact Hen. fold new.
  destruct (Z.gtb_spec (Z.of_nat (size (entries c))) 1000) as [Habove|Hbelow].
  - destruct (evict_above_1000 range (entries c) Hrange Hkeys) as (k & e & He & Hmin & ->);
      [lia|].
    exists k, e. auto.
  - rewrite evict_at_most_1000 by lia. reflexivity.
Qed.

(** A 1002nd distinct key put into a cache of 1001 entries created at
    times 0 to 1000: the entry created at time 0 goes, and 1001
    remain. *)
Lemma Put_evicts_oldest_above_1000_witness :
  let c := Scenario.cache1001 in
  let c' := snd (Put map_to_list 2000 (Scenario.req_line 2000) "" 2000%nat c) in
  (if Z.of_nat (size (entries c)) >? 1000
   then exists k e,
          entries c !! k = Some e /\
          (forall k' e', entries c !! k' = Some e' -> CreatedAt e <= CreatedAt e') /\
          entries c' = <[cacheKey (Scenario.req_line 2000) :=
                           mkCacheEntry 2000%nat 2000 (hashContent "")]> (delete k (entries c))
   else entries c' = <[cacheKey (Scenario.req_line 2000) :=
                         mkCacheEntry 2000%nat 2000 (hashContent "")]> (entries c))
  /\ (size (entries c') <= Nat.max 1001 (size (entries c)))%nat
  /\ entries c' !! "" = None.
Proof.
  assert ((enabled Scenario.cache1001,
           entries Scenario.cache1001 !! "",
           Z.of_nat (size (entries Scenario.cache1001)) >? 1000)
          = (true, None, true)) as Hc by (vm_compute; reflexivity).
  apply triple_eq in Hc as (Hen & Hkeys & _).
  exact (Put_evicts_oldest_above_1000 map_to_list 2000 (Scenario.req_line 2000) ""
           2000%nat Scenario.cache1001 (fun m => Permutation_refl _) Hen Hkeys).
Defined.

(** The cache of that example holds more than 1000 entries. *)
Example cache1001_above_ceiling :
  (Z.of_nat (size (entries Scenario.cache1001)) >? 1000) = true.
Proof. vm_compute. reflexivity. Qed.

(** From an empty cache, whatever is called, the cache never holds more
    than 1001 entries, and never one under the empty key. *)
Lemma cache_never_exceeds_1001 (calls : list cache_call) (ttl maxSize : Z) (on : bool) :
  Forall (fun call => match call with
                      | CallPut range _ _ _ _ => range_ok range
                      | CallGet _ _ _ => True
                      end) calls ->
  (size (entries (snd (run calls (NewCache ttl maxSize on)))) <= 1001)%nat.
Proof.
  intros Hcalls.
  assert (forall c : Cache,
            (size (entries c) <= 1001)%nat -> entries c !! "" = None ->
            (size (entries (snd (run calls c))) <= 1001)%nat) as Hgen.
  { induction Hcalls as [|call calls Hcall _ IH]; intros c Hsize Hkeys; [exact Hsize|].
    destruct call as [now req content|range now req content resp]; simpl;
      unfold mbind, M_bind, bind, gets, mret, M_ret, ret.
    - specialize (IH c Hsize Hkeys). destruct (run calls c). exact IH.
    - destruct (enabled c) eqn:Hen.
      + pose proof (Put_keeps_bound range now req content resp c Hcall Hen Hkeys)
          as (Hbound & Hkeys').
        cbv zeta in Hbound, Hkeys'.
        destruct (Put range now req content resp c) as [[] c1]. simpl in *.
        specialize (IH c1 ltac:(lia) Hkeys'). destruct (run calls c1). exact IH.
      + unfold Put. rewrite Hen. simpl.
        specialize (IH c Hsize Hkeys). destruct (run calls c). exact IH. }
  apply Hgen; [simpl; rewrite map_size_empty; lia|reflexivity].
Qed.

(** [Get] and [Put] do not read [maxSize]. *)
Lemma Get_ignores_maxSize (now : Z) (c1 c2 : Cache) (req : CompletionRequest)
    (fileContent : string) :
  entries c1 = entries c2 -> ttl c1 = ttl c2 -> enabled c1 = enabled c2 ->
  Get now c1 req fileContent = Get now c2 req fileContent.
Proof. intros He Ht Hen. unfold Get. rewrite He, Ht, Hen. reflexivity. Qed.

Lemma Put_ignores_maxSize (range : RangeOrder) (now : Z) (c1 c2 : Cache)
    (req : CompletionRequest) (fileContent : string) (resp : ptr) :
  entries c1 = entries c2 -> ttl c1 = ttl c2 -> enabled c1 = enabled c2 ->
  let c1' := snd (Put range now req fileContent resp c1) in
  let c2' := snd (Put range now req fileContent resp c2) in
  entries c1' = entries c2' /\ ttl c1' = ttl c2' /\ enabled c1' = enabled c2' /\
  maxSize c1' = maxSize c1 /\ maxSize c2' = maxSize c2.
Proof.
  intros He Ht Hen. unfold Put. rewrite He, Ht, Hen.
  destruct (enabled c2) eqn:Hen2; simpl; repeat split; congruence.
Qed.

Lemma run_ignores_maxSize (calls : list cache_call) (c1 c2 : Cache) :
  entries c1 = entries c2 -> ttl c1 = ttl c2 -> enabled c1 = enabled c2 ->
  fst (run calls c1) = fst (run calls c2) /\
  entries (snd (run calls c1)) = entries (snd (run calls c2)).
Proof.
  revert c1 c2. induction calls as [|call calls IH]; intros c1 c2 He Ht Hen; [auto|].
  destruct call as [now req content|range now req content resp]; simpl;
    unfold mbind, M_bind, bind, gets, mret, M_ret, ret.
  - rewrite (Get_ignores_maxSize now c1 c2) by assumption.
    specialize (IH c1 c2 He Ht Hen).
    destruct (run calls c1), (run calls c2). simpl in *.
    destruct IH as [-> ->]. auto.
  - pose proof (Put_ignores_maxSize range now c1 c2 req content resp He Ht Hen)
      as (He' & Ht' & Hen' & _).
    cbv zeta in *.
    destruct (Put range now req content resp c1) as [[] c1'].
    destruct (Put range now req content resp c2) as [[] c2']. simpl in *.
    exact (IH c1' c2' He' Ht' Hen').
Qed.

(** C10.  Two caches made by [NewCache] with the same TTL and the same
    enabled flag and any two values of [maxSize] answer every sequence
    of [Get] and [Put] calls alike and end with the same entries; and
    the block of [Put] that evicts is entered when there are more than
    1000 entries, whatever [maxSize] is. *)
Theorem maxSize_has_no_effect (ttl maxSize1 maxSize2 : Z) (on : bool)
    (calls : list cache_call) :
  let '(results1, c1) := run calls (NewCache ttl maxSize1 on) in
  let '(results2, c2) := run calls (NewCache ttl maxSize2 on) in
  results1 = results2 /\ entries c1 = entries c2 /\
  forall range : RangeOrder,
    evict range (entries c1) = entries c1 <->
    Z.of_nat (size (entries c1)) <= 1000 \/
    exists k, fst (oldest (range (entries c1))) = k /\ (k = "" \/ entries c1 !! k = None).
Proof.
  pose proof (run_ignores_maxSize calls (NewCache ttl maxSize1 on)
                (NewCache ttl maxSize2 on) eq_refl eq_refl eq_refl) as [Hres Hent].
  destruct (run calls (NewCache ttl maxSize1 on)) as [results1 c1].
  destruct (run calls (NewCache ttl maxSize2 on)) as [results2 c2].
  simpl in *. split; [exact Hres|]. split; [exact Hent|].
  intros range. unfold evict.
  destruct (Z.gtb_spec (Z.of_nat (size (entries c1))) 1000) as [Habove|Hbelow].
  - destruct (oldest (range (entries c1))) as [k t]. simpl.
    destruct k as [|a k]; simpl.
    + split; [intros _; right; eexists; split; [reflexivity|auto]|reflexivity].
    + split.
      * intros Hdel. right. eexists. split; [reflexivity|]. right.
        rewrite <- Hdel. apply lookup_delete_eq.
      * intros [?|(k' & <- & [?|Hnone])]; [lia|discriminate|].
        apply delete_id. exact Hnone.
  - split; [intros _; left; lia|reflexivity].
Qed.

(** A cache made with [maxSize] 1 holds three entries after three
    [Put]s. *)
Example maxSize_one_holds_three :
  size (entries (Scenario.fill 3 (NewCache (5 * Time.Minute) 1 true))) = 3%nat.
Proof. vm_compute. reflexivity. Qed.

End Eviction.

(** ** The service: the limiter, the cache and the responses *)

Section Orchestration.

Import GoState Errors Env Api Gather Service.

Context {lib : GoLib}.

(** A call the limiter rejects ends there. *)
Lemma Complete_rejected (range : Cache.RangeOrder) (clock : Clock) (fuel : nat)
    (req : CompletionRequest) (pg : ProjectGetter) (w : World)
    (err : error) (r' : RateLimit.RateLimiter) :
  validateRequest req pg = None ->
  RateLimit.CheckLimit (at_CheckLimit clock) (ProjectID req)
    (Config.MaxRequestsPerMinute (config (svc w)))
    (Config.MaxRequestsPerHour (config (svc w))) (rateLimiter (svc w)) = (Some err, r') ->
  Complete range clock fuel req pg w =
    (Failed err,
     mkWorld (mkCompletionService (config (svc w)) (cache (svc w)) r' (grokker (svc w)))
             (heap w)).
Proof.
  intros Hval Hlim. unfold Complete. rewrite Hval.
  unfold mbind, M_bind, bind, gets, on_rateLimiter, mret, M_ret, ret.
  rewrite Hlim. reflexivity.
Qed.

(** A call the limiter accepts and the cache answers. *)
Lemma Complete_hit (range : Cache.RangeOrder) (clock : Clock) (fuel : nat)
    (req : CompletionRequest) (pg : ProjectGetter) (w : World)
    (r' : RateLimit.RateLimiter) (fileContent : string) (p : ptr) :
  validateRequest req pg = None ->
  RateLimit.CheckLimit (at_CheckLimit clock) (ProjectID req)
    (Config.MaxRequestsPerMinute (config (svc w)))
    (Config.MaxRequestsPerHour (config (svc w))) (rateLimiter (svc w)) = (None, r') ->
  ReadFile pg (resolveFilePath (fst (GetProjectBaseDir pg (ProjectID req))) (FilePath req))
    = (fileContent, None) ->
  Config.EnableCache (config (svc w)) = true ->
  Cache.Get (at_Get clock) (cache (svc w)) req fileContent = Some p ->
  Complete range clock fuel req pg w =
    (Returned p,
     mkWorld (mkCompletionService (config (svc w)) (cache (svc w)) r' (grokker (svc w)))
             (update p (set_CachedResult true) (heap w))).
Proof.
  intros Hval Hlim Hread Hen Hget. unfold Complete. rewrite Hval.
  unfold mbind, M_bind, bind, gets, on_rateLimiter, on_heap, modify, mret, M_ret, ret.
  rewrite Hlim. simpl.
  destruct (GetProjectBaseDir pg (ProjectID req)) as [baseDir e]. simpl in Hread.
  rewrite Hread, Hen. simpl. rewrite Hget. reflexivity.
Qed.

(** The part of [Complete] after a miss does not touch the limiter. *)
Lemma generate_keeps_limiter (range : Cache.RangeOrder) (clock : Clock) (fuel : nat)
    (req : CompletionRequest) (pg : ProjectGetter) (fileContent : string) (w : World) :
  rateLimiter (svc (snd (generate range clock fuel req pg fileContent w)))
  = rateLimiter (svc w).
Proof.
  unfold generate, mbind, M_bind, bind, gets, on_heap, on_cache, mret, M_ret, ret.
  destruct (GatherContext _ _ _ _ _) as [[c|e]|]; try reflexivity.
  destruct (Fim.FormatPrompt _ c) as [prompt c'].
  destruct (grokker (svc w)) as [client|]; [|reflexivity].
  destruct (Query client _ _ _ _) as [[completion tokens] [e|]]; [reflexivity|].
  simpl. destruct (Config.EnableCache (config (svc w))); [|reflexivity].
  simpl. destruct (Cache.Put _ _ _ _ _ _) as [[] c1]. reflexivity.
Qed.

(** Whatever a call that passed validation does next, the limiter it
    leaves is the one [CheckLimit] left. *)
Lemma Complete_limiter (range : Cache.RangeOrder) (clock : Clock) (fuel : nat)
    (req : CompletionRequest) (pg : ProjectGetter) (w : World) :
  validateRequest req pg = None ->
  rateLimiter (svc (snd (Complete range clock fuel req pg w)))
  = snd (RateLimit.CheckLimit (at_CheckLimit clock) (ProjectID req)
           (Config.MaxRequestsPerMinute (config (svc w)))
           (Config.MaxRequestsPerHour (config (svc w))) (rateLimiter (svc w))).
Proof.
  intros Hval. unfold Complete. rewrite Hval.
  unfold mbind, M_bind, bind, gets, on_rateLimiter, on_heap, modify, mret, M_ret, ret.
  destruct (RateLimit.CheckLimit _ _ _ _ _) as [[err|] r']; [reflexivity|]. simpl.
  destruct (GetProjectBaseDir pg (ProjectID req)) as [baseDir e].
  destruct (ReadFile pg _) as [fileContent [e'|]]; [reflexivity|]. simpl.
  destruct (Config.EnableCache (config (svc w))); simpl.
  - destruct (Cache.Get _ _ _ _) as [p|]; [reflexivity|].
    rewrite generate_keeps_limiter. reflexivity.
  - rewrite generate_keeps_limiter. reflexivity.
Qed.

(** C1, as stated, fails.  The second call of the scenario is answered
    from the cache (the pointer the cache holds, no new response, the
    flag set), and the tenant's counters go from (1, 1) to (2, 2).  And
    an eleventh call within the minute, which the cache would answer,
    is rejected by the limiter. *)
Lemma cache_hit_is_counted :
  (Cache.Get (2 * Time.Second) (cache (svc Scenario.world1)) Scenario.req Scenario.source
     = Some 0%nat /\
   fst Scenario.second_call = Returned 0%nat /\
   length (heap Scenario.world2) = length (heap Scenario.world1) /\
   Scenario.flag_at (heap Scenario.world2) 0%nat = Some true /\
   Scenario.counters Scenario.world1 "storm" = Some (1, 1) /\
   Scenario.counters Scenario.world2 "storm" = Some (2, 2))
  /\
  (Cache.Get (11 * Time.Second) (cache (svc (Scenario.after_calls 10)))
     Scenario.req Scenario.source = Some 0%nat /\
   fst Scenario.eleventh_call =
     Failed (WrapRateLimitError "per-minute rate limit exceeded" ErrRateLimitExceeded)).
Proof. vm_compute. repeat split; reflexivity. Qed.

(** C1, amended.  A request that passed validation goes to the limiter
    first, and the limiter the call leaves is the one [CheckLimit]
    left.  If the limiter rejects it, the call fails with that error
    and neither the cache nor the responses are touched, whatever the
    cache holds.  If the limiter accepts it and the cache then answers
    it, the call returns the cached response, and both counters of the
    tenant are one above what they were once the windows that had
    passed were reset. *)
Theorem Complete_limiter_before_cache (range : Cache.RangeOrder) (clock : Clock)
    (fuel : nat) (req : CompletionRequest) (pg : ProjectGetter) (w : World) :
  validateRequest req pg = None ->
  let cfg := config (svc w) in
  let now := at_CheckLimit clock in
  let before :=
    RateLimit.roll now
      (default (RateLimit.mkRequestCount 0 0 now now)
               (RateLimit.requestCounts (rateLimiter (svc w)) !! ProjectID req)) in
  let '(res, r') :=
    RateLimit.CheckLimit now (ProjectID req) (Config.MaxRequestsPerMinute cfg)
      (Config.MaxRequestsPerHour cfg) (rateLimiter (svc w)) in
  let '(out, w') := Complete range clock fuel req pg w in
  rateLimiter (svc w') = r' /\
  match res with
  | Some err =>
      out = Failed err /\ is_rate_limited err = true /\
      cache (svc w') = cache (svc w) /\ heap w' = heap w
  | None =>
      RateLimit.requestCounts r' !! ProjectID req = Some (RateLimit.increment before) /\
      forall fileContent p,
        ReadFile pg (resolveFilePath (fst (GetProjectBaseDir pg (ProjectID req)))
                                     (FilePath req)) = (fileContent, None) ->
        Config.EnableCache cfg = true ->
        Cache.Get (at_Get clock) (cache (svc w)) req fileContent = Some p ->
        out = Returned p
  end.
Proof.
  intros Hval cfg now before.
  pose proof (Complete_limiter range clock fuel req pg w Hval) as Hlimiter.
  pose proof (CheckLimit_counter now (ProjectID req) (Config.MaxRequestsPerMinute cfg)
                (Config.MaxRequestsPerHour cfg) (rateLimiter (svc w))) as Hcounter.
  cbv zeta in Hcounter. fold now in Hlimiter. fold cfg in Hlimiter.
  destruct (RateLimit.CheckLimit now (ProjectID req) _ _ _) as [[err|] r'] eqn:Hlim.
  - rewrite (Complete_rejected range clock fuel req pg w err r' Hval Hlim).
    destruct Hcounter as [Hrl _]. simpl. auto.
  - destruct (Complete range clock fuel req pg w) as [out w'] eqn:Hrun.
    simpl in Hlimiter. split; [exact Hlimiter|]. split; [exact Hcounter|].
    intros fileContent p Hread Hen Hget.
    rewrite (Complete_hit range clock fuel req pg w r' fileContent p
               Hval Hlim Hread Hen Hget) in Hrun.
    injection Hrun as <- _. reflexivity.
Qed.

End Orchestration.

(** The second call of the scenario: validation passes, the limiter
    is asked first and the cache after it. *)
Lemma Complete_limiter_before_cache_witness :
  let w := Scenario.world1 in
  let clock := Scenario.clock_at 2 in
  let req := Scenario.req in
  let pg := Scenario.pg in
  let cfg := Service.config (Service.svc w) in
  let now := Env.at_CheckLimit clock in
  let before :=
    RateLimit.roll now
      (default (RateLimit.mkRequestCount 0 0 now now)
               (RateLimit.requestCounts (Service.rateLimiter (Service.svc w))
                  !! Api.ProjectID req)) in
  let '(res, r') :=
    RateLimit.CheckLimit now (Api.ProjectID req) (Config.MaxRequestsPerMinute cfg)
      (Config.MaxRequestsPerHour cfg) (Service.rateLimiter (Service.svc w)) in
  let '(out, w') := Service.Complete (lib := Unix.lib) map_to_list clock 8 req pg w in
  Service.rateLimiter (Service.svc w') = r' /\
  match res with
  | Some err =>
      out = Service.Failed err /\ Errors.is_rate_limited err = true /\
      Service.cache (Service.svc w') = Service.cache (Service.svc w) /\
      Service.heap w' = Service.heap w
  | None =>
      RateLimit.requestCounts r' !! Api.ProjectID req = Some (RateLimit.increment before) /\
      forall fileContent p,
        Env.ReadFile pg
          (Gather.resolveFilePath (lib := Unix.lib)
             (fst (Env.GetProjectBaseDir pg (Api.ProjectID req))) (Api.FilePath req))
        = (fileContent, None) ->
        Config.EnableCache cfg = true ->
        Cache.Get (Env.at_Get clock) (Service.cache (Service.svc w)) req fileContent = Some p ->
        out = Service.Returned p
  end.
Proof.
  exact (Complete_limiter_before_cache (lib := Unix.lib) map_to_list (Scenario.clock_at 2) 8
           Scenario.req Scenario.pg Scenario.world1 ltac:(vm_compute; reflexivity)).
Defined.

Section SharedResponses.

Import GoState Errors Env Api Gather Service.

Context {lib : GoLib}.

Lemma update_lookup (h : Heap) (p q : ptr) (f : CompletionResponse -> CompletionResponse)
    (r : CompletionResponse) :
  deref h p = Some r ->
  deref (update p f h) q = if decide (p = q) then Some (f r) else deref h q.
Proof.
  unfold deref, update. intros Hp. rewrite Hp.
  destruct (decide (p = q)) as [<-|Hne].
  - apply list_lookup_insert_eq. apply lookup_lt_Some in Hp. exact Hp.
  - apply list_lookup_insert_ne. exact Hne.
Qed.

(** What a call answered from the cache writes.  The cache entry holds
    a pointer to the response, and the call returns that pointer after
    writing [true] into the cache-served flag of the response it points
    to.  The entries themselves (pointer, creation time, hash) and every
    other field and every other response are as before; so a later
    [Get] of the same key returns the same pointer, and the flag behind
    it is [true] whatever it was when the entry was put. *)
Theorem cache_hit_marks_stored_response (range : Cache.RangeOrder) (clock : Clock)
    (fuel : nat) (req : CompletionRequest) (pg : ProjectGetter) (w : World)
    (fileContent : string) (p : ptr) (r : CompletionResponse) :
  validateRequest req pg = None ->
  fst (RateLimit.CheckLimit (at_CheckLimit clock) (ProjectID req)
         (Config.MaxRequestsPerMinute (config (svc w)))
         (Config.MaxRequestsPerHour (config (svc w))) (rateLimiter (svc w))) = None ->
  ReadFile pg (resolveFilePath (fst (GetProjectBaseDir pg (ProjectID req))) (FilePath req))
    = (fileContent, None) ->
  Config.EnableCache (config (svc w)) = true ->
  Cache.Get (at_Get clock) (cache (svc w)) req fileContent = Some p ->
  deref (heap w) p = Some r ->
  let '(out, w') := Complete range clock fuel req pg w in
  out = Returned p /\
  cache (svc w') = cache (svc w) /\
  (forall now, Cache.Get now (cache (svc w')) req fileContent
               = Cache.Get now (cache (svc w)) req fileContent) /\
  deref (heap w') p = Some (set_CachedResult true r) /\
  CachedResult <$> deref (heap w') p = Some true /\
  (forall q, q <> p -> deref (heap w') q = deref (heap w) q) /\
  length (heap w') = length (heap w).
Proof.
  intros Hval Hlim Hread Hen Hget Hp.
  destruct (RateLimit.CheckLimit _ _ _ _ _) as [res r'] eqn:Hcheck.
  simpl in Hlim. subst res.
  rewrite (Complete_hit range clock fuel req pg w r' fileContent p Hval Hcheck Hread Hen Hget).
  simpl. split; [reflexivity|]. split; [reflexivity|]. split; [reflexivity|].
  rewrite (update_lookup _ p p _ r Hp), decide_True by reflexivity.
  split; [reflexivity|]. split; [reflexivity|]. split.
  - intros q Hq. rewrite (update_lookup _ p q _ r Hp), decide_False by congruence.
    reflexivity.
  - unfold update. unfold deref in Hp. rewrite Hp. apply length_insert.
Qed.

End SharedResponses.

(** The two calls of the scenario.  The first one stores its response
    with the flag [false] and hands the same pointer to its caller; the
    second one is answered from the cache; a [Get] of the same key
    after it returns that pointer, and the flag behind it is now
    [true]. *)
Lemma cache_hit_changes_stored_flag :
  fst Scenario.first_call = Service.Returned 0%nat /\
  Cache.Get (2 * Time.Second) (Service.cache (Service.svc Scenario.world1))
    Scenario.req Scenario.source = Some 0%nat /\
  Scenario.flag_at (Service.heap Scenario.world1) 0%nat = Some false /\
  fst Scenario.second_call = Service.Returned 0%nat /\
  Cache.Get (3 * Time.Second) (Service.cache (Service.svc Scenario.world2))
    Scenario.req Scenario.source = Some 0%nat /\
  Scenario.flag_at (Service.heap Scenario.world2) 0%nat = Some true.
Proof. vm_compute. repeat split; reflexivity. Qed.

(** * Further properties *)

(** ** The rate limiter: tenants, reset, statistics *)

Section LimiterMore.

Import GoState Errors RateLimit Calls Derived.

(** A call reads and writes the caller's counter only. *)
Lemma CheckLimit_local (now : Z) (p : string) (mm mh : Z) (r r' : RateLimiter) :
  requestCounts r !! p = requestCounts r' !! p ->
  fst (CheckLimit now p mm mh r) = fst (CheckLimit now p mm mh r') /\
  requestCounts (snd (CheckLimit now p mm mh r)) !! p
  = requestCounts (snd (CheckLimit now p mm mh r')) !! p.
Proof.
  intros Hp. unfold CheckLimit. rewrite <- Hp.
  set (count := roll now _).
  destruct (Minute count >=? mm); [simpl; rewrite !lookup_insert_eq; auto|].
  destruct (Hour count >=? mh); simpl; rewrite !lookup_insert_eq; auto.
Qed.

Lemma CheckLimit_other (now : Z) (p q : string) (mm mh : Z) (r : RateLimiter) :
  q <> p ->
  requestCounts (snd (CheckLimit now q mm mh r)) !! p = requestCounts r !! p.
Proof.
  intros Hne. unfold CheckLimit.
  set (count := roll now _).
  destruct (Minute count >=? mm); [simpl; apply lookup_insert_ne; exact Hne|].
  destruct (Hour count >=? mh); simpl; apply lookup_insert_ne; exact Hne.
Qed.

(** X1.  Tenants do not interfere.  In any interleaving of calls by
    any tenants, the results one tenant gets, and the counter it is
    left with, are those it would get making its own calls alone, on
    any limiter that holds the same counter for it. *)
Theorem CheckAll_tenants_independent (calls : list (Z * string)) (p : string)
    (mm mh : Z) (r r' : RateLimiter) :
  requestCounts r !! p = requestCounts r' !! p ->
  let own := map fst (filter (fun c => snd c = p) calls) in
  map snd (filter (fun x => fst x = p) (fst (CheckAll calls mm mh r)))
  = fst (CheckLimits own p mm mh r') /\
  requestCounts (snd (CheckAll calls mm mh r)) !! p
  = requestCounts (snd (CheckLimits own p mm mh r')) !! p.
Proof.
  revert r r'. induction calls as [|[now q] calls IH]; intros r r' Hp; [simpl; auto|].
  simpl CheckAll. unfold mbind, M_bind, bind, mret, M_ret, ret.
  destruct (decide (q = p)) as [->|Hne].
  - rewrite filter_cons_True by reflexivity. simpl.
    unfold mbind, M_bind, bind, mret, M_ret, ret.
    destruct (CheckLimit_local now p mm mh r r' Hp) as [Hres Hcnt].
    destruct (CheckLimit now p mm mh r) as [res r1].
    destruct (CheckLimit now p mm mh r') as [res' r1']. simpl in Hres, Hcnt. subst res'.
    specialize (IH r1 r1' Hcnt). cbv zeta in IH.
    destruct (CheckAll calls mm mh r1) as [more r2].
    destruct (CheckLimits _ p mm mh r1') as [more' r2']. simpl in *.
    rewrite filter_cons_True by reflexivity. simpl.
    destruct IH as [-> ->]. auto.
  - rewrite filter_cons_False by (simpl; congruence).
    pose proof (CheckLimit_other now p q mm mh r Hne) as Hcnt.
    destruct (CheckLimit now q mm mh r) as [res r1]. simpl in Hcnt.
    specialize (IH r1 r' ltac:(congruence)). cbv zeta in IH.
    destruct (CheckAll calls mm mh r1) as [more r2]. simpl in *.
    rewrite filter_cons_False by (simpl; congruence). exact IH.
Qed.

(** Two tenants calling in turn: the first one's results are those of
    its own three calls. *)
Lemma CheckAll_tenants_independent_witness :
  let calls := [(0, "a"); (1, "b"); (2, "a"); (3, "b"); (4, "a")] in
  map snd (filter (fun x => fst x = "a") (fst (CheckAll calls 2 50 NewRateLimiter)))
  = fst (CheckLimits [0; 2; 4] "a" 2 50 NewRateLimiter).
Proof.
  exact (proj1 (CheckAll_tenants_independent
                  [(0, "a"); (1, "b"); (2, "a"); (3, "b"); (4, "a")] "a" 2 50
                  NewRateLimiter NewRateLimiter eq_refl)).
Defined.

(** X2.  After [Reset] a tenant is as if never seen: its next call
    gets the result, and leaves the counter, that the call would on an
    empty limiter, so with positive thresholds it is accepted; the
    statistics report the tenant as unknown; and the counters of the
    other tenants are as they were. *)
Theorem Reset_forgets_tenant (now : Z) (p : string) (mm mh : Z) (r : RateLimiter) :
  let r0 := snd (Reset p r) in
  fst (CheckLimit now p mm mh r0) = fst (CheckLimit now p mm mh NewRateLimiter) /\
  requestCounts (snd (CheckLimit now p mm mh r0)) !! p
  = requestCounts (snd (CheckLimit now p mm mh NewRateLimiter)) !! p /\
  (0 < mm /\ 0 < mh <-> fst (CheckLimit now p mm mh r0) = None) /\
  GetStats now p r0 = (0, 0, false) /\
  forall q, q <> p -> requestCounts r0 !! q = requestCounts r !! q.
Proof.
  cbv zeta.
  assert (requestCounts (snd (Reset p r)) !! p = None) as Hnone
    by (simpl; apply lookup_delete_eq).
  destruct (CheckLimit_local now p mm mh (snd (Reset p r)) NewRateLimiter) as [Hres Hcnt];
    [rewrite Hnone; reflexivity|].
  split; [exact Hres|]. split; [exact Hcnt|]. split; [|split].
  - unfold CheckLimit. rewrite Hnone.
    rewrite roll_in_window by (simpl; rewrite Z.sub_diag; reflexivity). simpl.
    destruct (Z.geb_spec 0 mm); [split; [lia|discriminate]|].
    destruct (Z.geb_spec 0 mh); [split; [lia|discriminate]|].
    split; [reflexivity|lia].
  - unfold GetStats. rewrite Hnone. reflexivity.
  - intros q Hq. simpl. apply lookup_delete_ne. congruence.
Qed.

(** X3.  The counts stay within the thresholds.  From an empty
    limiter, after any calls by any tenants with thresholds
    [maxPerMin] and [maxPerHour], every tenant's minute count is
    between 0 and [maxPerMin] and its hour count between 0 and
    [maxPerHour] (0 where a threshold is negative). *)
Theorem CheckAll_counts_bounded (calls : list (Z * string)) (mm mh : Z)
    (p : string) (c : RequestCount) :
  requestCounts (snd (CheckAll calls mm mh NewRateLimiter)) !! p = Some c ->
  0 <= Minute c <= Z.max 0 mm /\ 0 <= Hour c <= Z.max 0 mh.
Proof.
  assert (forall (r : RateLimiter),
            (forall q d, requestCounts r !! q = Some d ->
                         0 <= Minute d <= Z.max 0 mm /\ 0 <= Hour d <= Z.max 0 mh) ->
            forall q d, requestCounts (snd (CheckAll calls mm mh r)) !! q = Some d ->
                        0 <= Minute d <= Z.max 0 mm /\ 0 <= Hour d <= Z.max 0 mh) as Hgen.
  { induction calls as [|[now t] calls IH]; intros r Hr; [exact Hr|].
    simpl CheckAll. unfold mbind, M_bind, bind, mret, M_ret, ret.
    destruct (CheckLimit now t mm mh r) as [res r1] eqn:Hstep.
    specialize (IH r1). destruct (CheckAll calls mm mh r1) as [more r2]. simpl in *.
    apply IH. clear IH.
    intros q d Hd.
    destruct (decide (t = q)) as [->|Hne].
    - (* the caller's own counter *)
      assert (0 <= Minute (roll now (default (mkRequestCount 0 0 now now)
                                             (requestCounts r !! q))) <= Z.max 0 mm /\
              0 <= Hour (roll now (default (mkRequestCount 0 0 now now)
                                           (requestCounts r !! q))) <= Z.max 0 mh) as Hroll.
      { assert (0 <= Minute (default (mkRequestCount 0 0 now now) (requestCounts r !! q))
                  <= Z.max 0 mm /\
                0 <= Hour (default (mkRequestCount 0 0 now now) (requestCounts r !! q))
                  <= Z.max 0 mh) as Hc.
        { destruct (requestCounts r !! q) as [c0|] eqn:Hc0; [apply (Hr q c0 Hc0)|simpl; lia]. }
        unfold roll. destruct Hc as [Hm Hh].
        destruct (_ >=? Time.Minute); simpl;
          destruct (_ >=? Time.Hour); simpl; lia. }
      pose proof (CheckLimit_counter now q mm mh r) as Hcnt. cbv zeta in Hcnt.
      rewrite Hstep in Hcnt.
      unfold CheckLimit in Hstep.
      destruct res as [err|].
      + destruct Hcnt as [_ Hcnt]. rewrite Hd in Hcnt. injection Hcnt as ->. exact Hroll.
      + rewrite Hd in Hcnt. injection Hcnt as ->.
        replace (match requestCounts r !! q with
                 | Some count => count
                 | None => mkRequestCount 0 0 now now
                 end) with (default (mkRequestCount 0 0 now now) (requestCounts r !! q))
          in Hstep by (destruct (requestCounts r !! q); reflexivity).
        set (c0 := roll now _) in *.
        destruct (Z.geb_spec (Minute c0) mm); [discriminate|].
        destruct (Z.geb_spec (Hour c0) mh); [discriminate|].
        simpl. lia.
    - apply (Hr q d).
      rewrite <- (CheckLimit_other now q t mm mh r Hne), Hstep. exact Hd. }
  apply Hgen. intros q d Hd. simpl in Hd. rewrite lookup_empty in Hd. discriminate.
Qed.

(** Three calls by one tenant and one by another, with two a minute
    allowed: the first tenant's third call is refused, and its counts
    stay at 2. *)
Lemma CheckAll_counts_bounded_witness :
  let calls := [(0, "a"); (1, "a"); (2, "a"); (3, "b")] in
  let c := mkRequestCount 2 2 0 0 in
  requestCounts (snd (CheckAll calls 2 50 NewRateLimiter)) !! "a" = Some c /\
  0 <= Minute c <= Z.max 0 2 /\ 0 <= Hour c <= Z.max 0 50.
Proof.
  split; [vm_compute; reflexivity|].
  exact (CheckAll_counts_bounded [(0, "a"); (1, "a"); (2, "a"); (3, "b")] 2 50 "a"
           (mkRequestCount 2 2 0 0) ltac:(vm_compute; reflexivity)).
Defined.

(** X4.  The statistics are the counts a call at the same instant
    would test: [CheckLimit] accepts exactly when both counts reported
    by [GetStats] for that instant are below the thresholds.  For a
    tenant the limiter holds, they are the stored counts with the
    windows that have passed taken as 0. *)
Theorem GetStats_predicts_CheckLimit (now : Z) (p : string) (mm mh : Z) (r : RateLimiter) :
  (let '(minuteCount, hourCount, _) := GetStats now p r in
   fst (CheckLimit now p mm mh r) = None <-> minuteCount < mm /\ hourCount < mh) /\
  (forall c, requestCounts r !! p = Some c ->
     GetStats now p r = (Minute (roll now c), Hour (roll now c), true)).
Proof.
  assert (forall c, requestCounts r !! p = Some c ->
            GetStats now p r = (Minute (roll now c), Hour (roll now c), true)) as Hstats.
  { intros c Hc. unfold GetStats, roll. rewrite Hc.
    destruct (Z.geb_spec (now - LastMinuteReset c) Time.Minute);
      destruct (Z.ltb_spec (now - LastMinuteReset c) Time.Minute); try lia; simpl;
      destruct (Z.geb_spec (now - LastHourReset c) Time.Hour);
      destruct (Z.ltb_spec (now - LastHourReset c) Time.Hour); try lia; reflexivity. }
  split; [|exact Hstats].
  destruct (requestCounts r !! p) as [c|] eqn:Hc.
  - rewrite (Hstats c eq_refl). unfold CheckLimit. rewrite Hc.
    destruct (Z.geb_spec (Minute (roll now c)) mm); [split; [discriminate|lia]|].
    destruct (Z.geb_spec (Hour (roll now c)) mh); [split; [discriminate|lia]|].
    split; [lia|reflexivity].
  - unfold GetStats, CheckLimit. rewrite Hc.
    rewrite roll_in_window by (simpl; rewrite Z.sub_diag; reflexivity). simpl.
    destruct (Z.geb_spec 0 mm); [split; [discriminate|lia]|].
    destruct (Z.geb_spec 0 mh); [split; [discriminate|lia]|].
    split; [lia|reflexivity].
Qed.

End LimiterMore.

(** ** The cache: keys and other entries *)

Section CacheMore.

Import GoState Api Cache.

Lemma append_assoc (a b c : string) : (a +:+ b) +:+ c = a +:+ b +:+ c.
Proof.
  induction a as [|x a IH]; [reflexivity|].
  change (String x ((a +:+ b) +:+ c) = String x (a +:+ b +:+ c)).
  rewrite IH. reflexivity.
Qed.

(** What [Get] returns for a key that [Put] has just written. *)
Lemma Get_after_Put (range : RangeOrder) (now written : Z)
    (req req' : CompletionRequest) (content content' : string) (resp : ptr) (c : Cache) :
  enabled c = true -> cacheKey req' = cacheKey req ->
  Get now (snd (Put range written req content resp c)) req' content'
  = if Time.Since now written >? ttl c then None
    else if String.eqb (hashContent content) (hashContent content') then Some resp
    else None.
Proof.
  intros Hen Hkey. unfold Put. rewrite Hen. simpl. unfold Get. simpl.
  rewrite Hkey, lookup_insert_eq. simpl.
  destruct (Time.Since now written >? ttl c); [reflexivity|].
  destruct (String.eqb _ _); reflexivity.
Qed.

(** X5.  The key of a request is made of its project, path, cursor
    line, cursor column and model only.  A response stored for one
    request is returned, while fresh and with the content unchanged,
    for every request that agrees with it on those five fields,
    whatever its token limit, context files and temperature are. *)
Theorem Get_ignores_fields_outside_key (range : RangeOrder) (now written : Z)
    (req req' : CompletionRequest) (content : string) (resp : ptr) (c : Cache) :
  enabled c = true ->
  ProjectID req' = ProjectID req -> FilePath req' = FilePath req ->
  CursorLine req' = CursorLine req -> CursorColumn req' = CursorColumn req ->
  LLM req' = LLM req ->
  now - written <= ttl c ->
  Get now (snd (Put range written req content resp c)) req' content = Some resp.
Proof.
  intros Hen Hp Hf Hl Hc Hm Hage.
  rewrite Get_after_Put; [|exact Hen|unfold cacheKey; rewrite Hp, Hf, Hl, Hc, Hm; reflexivity].
  destruct (Z.gtb_spec (Time.Since now written) (ttl c));
    [pose proof (Since_le now written (ttl c)); lia|].
  rewrite String.eqb_refl. reflexivity.
Qed.

(** The request of the scenario stored, and asked for again with
    other context files, token limit and temperature. *)
Lemma Get_ignores_fields_outside_key_witness :
  Get 5 (snd (Put map_to_list 0 Scenario.req "abc" 0%nat (NewCache 10 0 true)))
      (mkCompletionRequest "storm" "src/main.go" 1 14 "" 900 ["util.go"] 1%float) "abc"
  = Some 0%nat.
Proof.
  exact (Get_ignores_fields_outside_key map_to_list 5 0 Scenario.req
           (mkCompletionRequest "storm" "src/main.go" 1 14 "" 900 ["util.go"] 1%float)
           "abc" 0%nat (NewCache 10 0 true)
           eq_refl eq_refl eq_refl eq_refl eq_refl eq_refl ltac:(vm_compute; discriminate)).
Defined.

(** X6.  The key does not keep its fields apart: it joins them with
    colons and escapes nothing.  The request of project [a:b] for file
    [c] and the request of project [a] for file [b:c] have the same
    key, so a response stored for the one is returned for the other
    when their contents have the same hash. *)
Theorem cacheKey_colon_collision (range : RangeOrder) (now written : Z)
    (a b f llm : string) (line col : Z) (content : string) (resp : ptr) (c : Cache) :
  enabled c = true ->
  now - written <= ttl c ->
  let req1 := mkCompletionRequest (a +:+ ":" +:+ b) f line col llm 0 [] 0%float in
  let req2 := mkCompletionRequest a (b +:+ ":" +:+ f) line col llm 0 [] 0%float in
  cacheKey req1 = cacheKey req2 /\
  Get now (snd (Put range written req1 content resp c)) req2 content = Some resp.
Proof.
  intros Hen Hage req1 req2.
  assert (cacheKey req1 = cacheKey req2) as Hkey.
  { unfold cacheKey, req1, req2. simpl. rewrite !append_assoc. reflexivity. }
  split; [exact Hkey|].
  rewrite Get_after_Put; [|exact Hen|symmetry; exact Hkey].
  destruct (Z.gtb_spec (Time.Since now written) (ttl c));
    [pose proof (Since_le now written (ttl c)); lia|].
  rewrite String.eqb_refl. reflexivity.
Qed.

Lemma cacheKey_colon_collision_witness :
  cacheKey (mkCompletionRequest "team:secret" "main.go" 0 0 "" 0 [] 0%float)
  = cacheKey (mkCompletionRequest "team" "secret:main.go" 0 0 "" 0 [] 0%float).
Proof.
  exact (proj1 (cacheKey_colon_collision map_to_list 0 0 "team" "secret" "main.go" "" 0 0
                  "" 0%nat (NewCache 10 0 true) eq_refl ltac:(vm_compute; discriminate))).
Defined.

(** X7.  [Put] under one key changes what [Get] returns for a request
    with another key in one way only: by evicting its entry.  The
    answer is the one from before or nothing; and it is the one from
    before when the cache held at most 1000 entries. *)
Theorem Put_other_key (range : RangeOrder) (now written : Z)
    (req other : CompletionRequest) (content otherContent : string) (resp : ptr) (c : Cache) :
  cacheKey other <> cacheKey req ->
  let c' := snd (Put range written req content resp c) in
  (Get now c' other otherContent = Get now c other otherContent \/
   Get now c' other otherContent = None) /\
  (Z.of_nat (size (entries c)) <= 1000 ->
   Get now c' other otherContent = Get now c other otherContent).
Proof.
  intros Hne c'. unfold c', Put.
  destruct (enabled c) eqn:Hen; simpl; [|auto].
  unfold Get. simpl. rewrite Hen. simpl.
  rewrite lookup_insert_ne by congruence.
  split.
  - unfold evict. destruct (Z.of_nat (size (entries c)) >? 1000); [|auto].
    destruct (oldest (range (entries c))) as [k t].
    destruct (nonempty k); [|auto].
    destruct (decide (k = cacheKey other)) as [->|Hk].
    + rewrite lookup_delete_eq. auto.
    + rewrite lookup_delete_ne by exact Hk. auto.
  - intros Hsize. rewrite evict_at_most_1000 by exact Hsize. reflexivity.
Qed.

Lemma Put_other_key_witness :
  let c := snd (Put map_to_list 0 (Scenario.req_line 1) "abc" 1%nat (NewCache 10 0 true)) in
  Get 5 (snd (Put map_to_list 3 (Scenario.req_line 2) "xyz" 2%nat c)) (Scenario.req_line 1) "abc"
  = Get 5 c (Scenario.req_line 1) "abc".
Proof.
  exact (proj2 (Put_other_key map_to_list 5 3 (Scenario.req_line 2) (Scenario.req_line 1)
                  "xyz" "abc" 2%nat
                  (snd (Put map_to_list 0 (Scenario.req_line 1) "abc" 1%nat (NewCache 10 0 true)))
                  ltac:(vm_compute; discriminate))
               ltac:(vm_compute; discriminate)).
Defined.

End CacheMore.

(** ** The split at the cursor: the other branch, bounds, the content *)

Section PrefixSuffixMore.

Import Context.

Lemma take_drop_string (n : nat) (s : string) : take n s +:+ drop n s = s.
Proof.
  revert s. induction n as [|n IH]; intros [|c s]; try reflexivity.
  change (String c (take n s +:+ drop n s) = String c s). rewrite IH. reflexivity.
Qed.

Lemma clamp_line_idem (lines : list string) (line : Z) :
  0 < Z.of_nat (length lines) ->
  clamp_line lines (clamp_line lines line) = clamp_line lines line.
Proof.
  intros Hpos. pose proof (clamp_line_range lines line Hpos) as Hr.
  unfold clamp_line at 1.
  destruct (Z.ltb_spec (clamp_line lines line) 0); [lia|].
  destruct (Z.geb_spec (clamp_line lines line) (Z.of_nat (length lines))); [lia|reflexivity].
Qed.

Lemma clamp_col_idem (col : Z) : clamp_col (clamp_col col) = clamp_col col.
Proof.
  pose proof (clamp_col_nonneg col). unfold clamp_col at 1.
  destruct (Z.ltb_spec (clamp_col col) 0); [lia|reflexivity].
Qed.

(** The branch with the column at or past the end of the line. *)
Lemma extract_at_line_end (content : string) (line col : Z) :
  let lines := Split content newline in
  let l := clamp_line lines line in
  len (at_line lines l) <= clamp_col col ->
  extractPrefixSuffix content line col =
    (Join (firstn (Z.to_nat l) lines) nl, Join (skipn (Z.to_nat (l + 1)) lines) nl).
Proof.
  intros lines l Hcol.
  pose proof (clamp_line_range lines line (Split_length_pos content newline)) as Hl.
  fold l in Hl.
  unfold extractPrefixSuffix. fold lines. fold l.
  replace (clamp_col col <? len (at_line lines l)) with false
    by (symmetry; apply Z.ltb_ge; exact Hcol).
  rewrite andb_false_r. cbv zeta. cbv iota.
  replace (clamp_col col <? len (at_line lines l)) with false
    by (symmetry; apply Z.ltb_ge; exact Hcol).
  rewrite andb_false_r.
  destruct (Z.ltb_spec (l + 1) (Z.of_nat (length lines))) as [Hlt|Hge].
  - reflexivity.
  - rewrite (skipn_all2 lines) by lia. reflexivity.
Qed.

(** The branch with the column inside the line. *)
Lemma extract_inside_line (content : string) (line col : Z) :
  let lines := Split content newline in
  let l := clamp_line lines line in
  let c := clamp_col col in
  c < len (at_line lines l) ->
  extractPrefixSuffix content line col =
    (Join (firstn (Z.to_nat l) lines ++ [slice_to (at_line lines l) c]) nl,
     Join (skipn (Z.to_nat (l + 1)) lines) nl).
Proof.
  intros lines l c Hcol.
  pose proof (clamp_line_range lines line (Split_length_pos content newline)) as Hl.
  fold l in Hl. pose proof (clamp_col_nonneg col) as Hc. fold c in Hc.
  unfold extractPrefixSuffix. fold lines. fold l. fold c.
  replace (l <? Z.of_nat (length lines)) with true by (symmetry; apply Z.ltb_lt; lia).
  replace (c <? len (at_line lines l)) with true by (symmetry; apply Z.ltb_lt; exact Hcol).
  cbv zeta. simpl andb. cbv iota.
  rewrite length_insert.
  replace (l <? Z.of_nat (length lines)) with true by (symmetry; apply Z.ltb_lt; lia).
  assert (at_line (<[Z.to_nat l := slice_to (at_line lines l) c]> lines) l
          = slice_to (at_line lines l) c) as ->.
  { unfold at_line at 1. rewrite list_lookup_insert_eq by lia. reflexivity. }
  assert (len (slice_to (at_line lines l) c) = c) as ->.
  { unfold len, slice_to. rewrite len_take; [lia|]. unfold len in Hcol. lia. }
  rewrite Z.ltb_irrefl. simpl andb. cbv iota.
  destruct (Z.ltb_spec (l + 1) (Z.of_nat (length lines))) as [Hlt|Hge].
  - rewrite drop_insert_lt by lia. reflexivity.
  - rewrite (skipn_all2 lines) by lia. reflexivity.
Qed.

(** X8.  With the clamped column inside the clamped cursor line, the
    before-text is the lines above joined with the part of the cursor
    line before the column, and the after-text is the lines below the
    cursor line only: the part of the cursor line from the column on is
    in neither.  ([append] stores the cut line in the array of lines,
    and the after-text is then taken from that array.) *)
Theorem extractPrefixSuffix_column_inside_line (content : string) (line col : Z) :
  let lines := Split content newline in
  let l := clamp_line lines line in
  let c := clamp_col col in
  c < len (at_line lines l) ->
  extractPrefixSuffix content line col =
    (Join (firstn (Z.to_nat l) lines ++ [slice_to (at_line lines l) c]) nl,
     Join (skipn (Z.to_nat (l + 1)) lines) nl)
  /\ at_line lines l = slice_to (at_line lines l) c +:+ slice_from (at_line lines l) c
  /\ slice_from (at_line lines l) c <> "".
Proof.
  intros lines l c Hcol.
  split; [exact (extract_inside_line content line col Hcol)|].
  split; [symmetry; apply take_drop_string|].
  intros Hnil. apply (f_equal String.length) in Hnil.
  unfold slice_from in Hnil. rewrite len_drop in Hnil. simpl in Hnil.
  pose proof (clamp_col_nonneg col) as Hc. fold c in Hc. unfold len in Hcol. lia.
Qed.

(** The cursor after the first byte of the second line: "d" and the
    newline after it are in neither text. *)
Lemma extractPrefixSuffix_column_inside_line_witness :
  extractPrefixSuffix ("ab" +:+ nl +:+ "cd" +:+ nl +:+ "ef") 1 1
  = ("ab" +:+ nl +:+ "c", "ef").
Proof.
  exact (proj1 (extractPrefixSuffix_column_inside_line
                  ("ab" +:+ nl +:+ "cd" +:+ nl +:+ "ef") 1 1 ltac:(vm_compute; reflexivity))).
Defined.

(** X9.  Every cursor is brought into the text: for every content,
    the empty one too, and every line and column, negative or too large,
    the clamped line is the index of a line and the clamped column is
    not negative, and the result is the result for the clamped
    position.  So a line at or past the end counts as the last line
    and a negative line or column as 0. *)
Theorem extractPrefixSuffix_clamps (content : string) (line col : Z) :
  let lines := Split content newline in
  (1 <= length lines)%nat /\
  0 <= clamp_line lines line < Z.of_nat (length lines) /\
  0 <= clamp_col col /\
  extractPrefixSuffix content line col
  = extractPrefixSuffix content (clamp_line lines line) (clamp_col col) /\
  (Z.of_nat (length lines) <= line ->
   extractPrefixSuffix content line col
   = extractPrefixSuffix content (Z.of_nat (length lines) - 1) col) /\
  (line < 0 -> extractPrefixSuffix content line col = extractPrefixSuffix content 0 col) /\
  (col < 0 -> extractPrefixSuffix content line col = extractPrefixSuffix content line 0).
Proof.
  intros lines.
  pose proof (Split_length_pos content newline) as Hpos. fold lines in Hpos.
  assert (forall a b c d, clamp_line lines a = clamp_line lines b -> clamp_col c = clamp_col d ->
            extractPrefixSuffix content a c = extractPrefixSuffix content b d) as Hext.
  { intros a b c d Hab Hcd. unfold extractPrefixSuffix. fold lines. rewrite Hab, Hcd. reflexivity. }
  split; [lia|]. split; [apply clamp_line_range; exact Hpos|].
  split; [apply clamp_col_nonneg|]. split; [|split; [|split]].
  - apply Hext; symmetry; [apply clamp_line_idem; exact Hpos|apply clamp_col_idem].
  - intros Hbig. apply Hext; [|reflexivity]. unfold clamp_line.
    destruct (Z.ltb_spec line 0); [lia|].
    destruct (Z.ltb_spec (Z.of_nat (length lines) - 1) 0); [lia|].
    destruct (Z.geb_spec line (Z.of_nat (length lines))); [|lia].
    destruct (Z.geb_spec (Z.of_nat (length lines) - 1) (Z.of_nat (length lines))); [lia|].
    reflexivity.
  - intros Hneg. apply Hext; [|reflexivity]. unfold clamp_line.
    destruct (Z.ltb_spec line 0); [|lia]. reflexivity.
  - intros Hneg. apply Hext; [reflexivity|]. unfold clamp_col.
    destruct (Z.ltb_spec col 0); [|lia]. reflexivity.
Qed.

Lemma Join_cons (x : string) (rest : list string) (sep : string) :
  Join (x :: rest) sep
  = x +:+ match rest with [] => "" | _ => sep +:+ Join rest sep end.
Proof.
  destruct rest; simpl; [|reflexivity].
  induction x as [|a x IH]; [reflexivity|].
  change (String a x = String a (x +:+ "")). rewrite <- IH. reflexivity.
Qed.

Lemma append_nil_r (s : string) : s +:+ "" = s.
Proof.
  induction s as [|a s IH]; [reflexivity|].
  change (String a (s +:+ "") = String a s). rewrite IH. reflexivity.
Qed.

Lemma Join_cons_ne (x : string) (rest : list string) (sep : string) :
  rest <> [] -> Join (x :: rest) sep = x +:+ sep +:+ Join rest sep.
Proof. destruct rest; [congruence|reflexivity]. Qed.

(** Joining the lines up to one that is cut in two, and the lines
    after it. *)
Lemma Join_middle (above below : list string) (x y : string) (sep : string) :
  Join (above ++ (x +:+ y) :: below) sep
  = Join (above ++ [x]) sep +:+ y +:+
    match below with [] => "" | _ => sep +:+ Join below sep end.
Proof.
  induction above as [|a above IH].
  - simpl app. rewrite (Join_cons (x +:+ y)), append_assoc. reflexivity.
  - change ((a :: above) ++ (x +:+ y) :: below)%list
      with (a :: (above ++ (x +:+ y) :: below))%list.
    change ((a :: above) ++ [x])%list with (a :: (above ++ [x]))%list.
    rewrite !(Join_cons_ne a) by (destruct above; discriminate).
    rewrite IH, !append_assoc. reflexivity.
Qed.

Lemma Join_Split (s : string) : Join (Split s newline) nl = s.
Proof.
  induction s as [|a s IH]; [reflexivity|].
  simpl Split. destruct (Ascii.eqb_spec a newline) as [->|Hne].
  - rewrite Join_cons.
    pose proof (Split_not_nil s newline) as Hnil.
    destruct (Split s newline); [congruence|]. rewrite IH. reflexivity.
  - pose proof (Split_not_nil s newline) as Hnil.
    destruct (Split s newline) as [|piece rest]; [congruence|].
    rewrite Join_cons. rewrite Join_cons in IH.
    change (String a (piece +:+ match rest with [] => "" | _ => nl +:+ Join rest nl end)
            = String a s).
    rewrite IH. reflexivity.
Qed.

(** X10.  Nothing is added and nothing is reordered: for every
    content and cursor, the before-text is a prefix of the content and
    the after-text is a suffix of what follows it. *)
Theorem extractPrefixSuffix_within_content (content : string) (line col : Z) :
  exists middle,
    content = fst (extractPrefixSuffix content line col) +:+ middle +:+
              snd (extractPrefixSuffix content line col).
Proof.
  set (lines := Split content newline).
  set (l := clamp_line lines line).
  pose proof (clamp_line_range lines line (Split_length_pos content newline)) as Hl.
  fold l in Hl.
  pose proof (lines_around lines l Hl) as Hlines.
  pose proof (Join_Split content) as Hcontent. fold lines in Hcontent.
  set (above := firstn (Z.to_nat l) lines) in *.
  set (below := skipn (Z.to_nat (l + 1)) lines) in *.
  set (cur := at_line lines l) in *.
  destruct (Z.lt_ge_cases (clamp_col col) (len cur)) as [Hin|Hout].
  - rewrite (extract_inside_line content line col Hin).
    fold lines l above below cur. simpl fst. simpl snd.
    exists (slice_from cur (clamp_col col) +:+ match below with [] => "" | _ => nl end).
    rewrite <- Hcontent at 1. rewrite Hlines.
    rewrite <- (take_drop_string (Z.to_nat (clamp_col col)) cur) at 1.
    rewrite Join_middle. unfold slice_to, slice_from.
    destruct below; rewrite ?append_assoc, ?append_nil_r; reflexivity.
  - rewrite (extract_at_line_end content line col Hout).
    fold lines l above below. simpl fst. simpl snd.
    exists (match above with [] => "" | _ => nl end +:+ cur +:+
            match below with [] => "" | _ => nl end).
    rewrite <- Hcontent at 1. rewrite Hlines.
    change cur with ("" +:+ cur) at 1. rewrite Join_middle.
    assert (Join (above ++ [""]) nl = Join above nl +:+ match above with [] => "" | _ => nl end)
      as ->.
    { clear. induction above as [|a above IH]; [reflexivity|].
      change ((a :: above) ++ [""])%list with (a :: (above ++ [""]))%list.
      rewrite (Join_cons_ne a (above ++ [""])) by (destruct above; discriminate).
      rewrite IH, (Join_cons a above).
      destruct above; rewrite ?append_assoc, ?append_nil_r; reflexivity. }
    destruct below; rewrite ?append_assoc, ?append_nil_r; reflexivity.
Qed.

End PrefixSuffixMore.

(** ** Gathering the context *)

Section GatherMore.

Import GoState Errors Env Api Context Gather Derived.

Context {lib : GoLib}.

(** One turn of the loop at a directory where it does not end. *)
Lemma walkUp_step (fuel : nat) (pg : ProjectGetter) (baseDir dir : string)
    (acc : list string) :
  stops baseDir dir = false ->
  walkUp (S fuel) pg baseDir dir acc
  = walkUp fuel pg baseDir (filepath_Dir dir)
      (acc ++ match readAgents pg dir with Some content => [content] | None => [] end)%list.
Proof.
  unfold stops, readAgents. intros Hstop. simpl.
  destruct (ReadFile pg (filepath_Join dir "AGENTS.md")) as [content [err|]];
    rewrite ?app_nil_r;
    apply orb_false_elim in Hstop as [Hstop ->];
    rewrite Hstop; reflexivity.
Qed.

(** The turn of the loop at a directory where it ends. *)
Lemma walkUp_stop (fuel : nat) (pg : ProjectGetter) (baseDir dir : string)
    (acc : list string) :
  stops baseDir dir = true ->
  walkUp (S fuel) pg baseDir dir acc
  = Some (acc ++ match readAgents pg dir with Some content => [content] | None => [] end)%list.
Proof.
  unfold stops, readAgents. intros Hstop. simpl.
  destruct (ReadFile pg (filepath_Join dir "AGENTS.md")) as [content [err|]];
    rewrite ?app_nil_r;
    (destruct (String.eqb dir baseDir || String.eqb dir "/" || String.eqb dir ".");
     [reflexivity|simpl in Hstop; rewrite Hstop; reflexivity]).
Qed.

Lemma walkUp_ancestors (n : nat) :
  forall (fuel : nat) (pg : ProjectGetter) (baseDir dir : string) (acc : list string),
    map (stops baseDir) (ancestors n dir) = (replicate n false ++ [true])%list ->
    (n < fuel)%nat ->
    walkUp fuel pg baseDir dir acc = Some (acc ++ omap (readAgents pg) (ancestors n dir))%list.
Proof.
  induction n as [|n IH]; intros fuel pg baseDir dir acc Hstops Hfuel;
    (destruct fuel as [|fuel]; [lia|]).
  - simpl in Hstops. injection Hstops as Hstop.
    rewrite walkUp_stop by exact Hstop. simpl.
    destruct (readAgents pg dir); reflexivity.
  - simpl in Hstops. injection Hstops as Hstop Hrest.
    rewrite walkUp_step by exact Hstop.
    rewrite (IH fuel pg baseDir (filepath_Dir dir)) by (assumption || lia).
    simpl. destruct (readAgents pg dir); rewrite <- ?app_assoc; simpl; rewrite ?app_nil_r;
      reflexivity.
Qed.

(** X11.  The instructions are the AGENTS.md files of the directory
    of the target file and of its parents, innermost first, up to and
    including the first directory that is the base directory, [/] or
    [.] or its own parent; files that cannot be read are left out
    without an error; what was found is joined by the delimiter, and
    nothing found gives the empty text. *)
Theorem gatherAgentsInstructions_walk (n fuel : nat) (baseDir targetFile : string)
    (pg : ProjectGetter) :
  let dir := filepath_Dir (filepath_Join baseDir targetFile) in
  map (stops baseDir) (ancestors n dir) = (replicate n false ++ [true])%list ->
  (n < fuel)%nat ->
  gatherAgentsInstructions fuel baseDir targetFile pg
  = Some (Join (omap (readAgents pg) (ancestors n dir)) delimiter).
Proof.
  intros dir Hstops Hfuel. unfold gatherAgentsInstructions. fold dir.
  rewrite (walkUp_ancestors n fuel pg baseDir dir [] Hstops Hfuel). simpl app.
  destruct (omap (readAgents pg) (ancestors n dir)); reflexivity.
Qed.

(** X12.  The context files are the files of the request that can be
    read, in the order of the request, each under the path as the
    request wrote it; the ones that cannot be read are left out. *)
Theorem gatherAdditionalFiles_readable (req : CompletionRequest) (baseDir : string)
    (pg : ProjectGetter) :
  gatherAdditionalFiles req baseDir pg
  = omap (readContextFile pg baseDir) (ContextFiles req) /\
  (length (gatherAdditionalFiles req baseDir pg) <= length (ContextFiles req))%nat /\
  forall f, f ∈ gatherAdditionalFiles req baseDir pg ->
            Path f ∈ ContextFiles req /\
            ReadFile pg (resolveFilePath baseDir (Path f)) = (Content f, None).
Proof.
  assert (forall paths acc,
            fold_left
              (fun contexts filePath =>
                 let absPath := resolveFilePath baseDir filePath in
                 let '(content, err) := ReadFile pg absPath in
                 match err with
                 | Some _ => contexts
                 | None => (contexts ++ [mkFileContext filePath content])%list
                 end) paths acc
            = (acc ++ omap (readContextFile pg baseDir) paths)%list) as Hfold.
  { induction paths as [|path paths IH]; intros acc; simpl; [rewrite app_nil_r; reflexivity|].
    rewrite IH. unfold readContextFile at 2.
    destruct (ReadFile pg (resolveFilePath baseDir path)) as [content [err|]];
      [reflexivity|rewrite <- app_assoc; reflexivity]. }
  assert (gatherAdditionalFiles req baseDir pg
          = omap (readContextFile pg baseDir) (ContextFiles req)) as Heq
    by (unfold gatherAdditionalFiles; rewrite Hfold; reflexivity).
  split; [exact Heq|]. rewrite Heq. split.
  - generalize (ContextFiles req). intros paths.
    induction paths as [|path paths IH]; [reflexivity|].
    change (omap (readContextFile pg baseDir) (path :: paths))
      with (match readContextFile pg baseDir path with
            | Some f => f :: omap (readContextFile pg baseDir) paths
            | None => omap (readContextFile pg baseDir) paths
            end).
    destruct (readContextFile pg baseDir path); simpl; lia.
  - intros f Hf. apply list_elem_of_omap in Hf as (path & Hpath & Hread).
    unfold readContextFile in Hread.
    destruct (ReadFile pg (resolveFilePath baseDir path)) as [content [err|]] eqn:E;
      [discriminate|].
    injection Hread as <-. simpl. auto.
Qed.

Lemma gatherDiscussionContext_short (projectID : string) (pg : ProjectGetter) :
  len (gatherDiscussionContext projectID pg) <= 3000.
Proof.
  unfold gatherDiscussionContext.
  destruct (GetProjectDiscussionFile pg projectID) as [file [e|]]; [unfold len; simpl; lia|].
  destruct (ReadFile pg file) as [content [e|]]; [unfold len; simpl; lia|].
  destruct (Z.gtb_spec (len content) 3000); [|lia].
  unfold slice_from, len in *. rewrite len_drop. lia.
Qed.

(** X13.  The discussion excerpt is at most 3000 bytes, the last ones
    of the discussion file; it is the whole file when that is shorter,
    and empty when the provider names no discussion file or the file
    cannot be read. *)
Theorem gatherDiscussionContext_tail (projectID : string) (pg : ProjectGetter) :
  let excerpt := gatherDiscussionContext projectID pg in
  len excerpt <= 3000 /\
  (forall file content,
     GetProjectDiscussionFile pg projectID = (file, None) ->
     ReadFile pg file = (content, None) ->
     (exists head, content = head +:+ excerpt) /\
     len excerpt = Z.min 3000 (len content)) /\
  (snd (GetProjectDiscussionFile pg projectID) <> None -> excerpt = "") /\
  (snd (ReadFile pg (fst (GetProjectDiscussionFile pg projectID))) <> None -> excerpt = "").
Proof.
  cbv zeta. unfold gatherDiscussionContext.
  destruct (GetProjectDiscussionFile pg projectID) as [file [e|]]; simpl.
  { split; [unfold len; simpl; lia|]. split; [discriminate|]. auto. }
  destruct (ReadFile pg file) as [content [e|]] eqn:Hread; simpl.
  { split; [unfold len; simpl; lia|]. split; [intros ? ? [= <-]; congruence|]. auto. }
  assert (len (if len content >? 3000 then slice_from content (len content - 3000)
               else content) = Z.min 3000 (len content)) as Hlen.
  { destruct (Z.gtb_spec (len content) 3000).
    - unfold slice_from, len in *. rewrite len_drop. lia.
    - lia. }
  split; [lia|]. split; [|split; congruence].
  intros f c [= <-] Hread'. rewrite Hread in Hread'. injection Hread' as <-.
  split; [|exact Hlen].
  destruct (len content >? 3000).
  - exists (slice_to content (len content - 3000)). symmetry. apply take_drop_string.
  - exists "". reflexivity.
Qed.

(** The budget pass leaves a context with a discussion of at most
    3000 bytes with that discussion. *)
Lemma trim_keeps_short_discussion (maxTokens : Z) (c : CompletionContext) :
  len (DiscussionContext c) <= 3000 ->
  let c' := snd (trimToTokenBudget maxTokens c) in
  Prefix c' = Prefix c /\ Suffix c' = Suffix c /\
  AdditionalFiles c' = AdditionalFiles c /\ Language c' = Language c /\
  DiscussionContext c' = DiscussionContext c /\
  (AgentsInstructions c' = AgentsInstructions c \/
   AgentsInstructions c' = slice_to (AgentsInstructions c) 2000 /\
   8000 <= len (AgentsInstructions c)).
Proof.
  intros Hshort c'.
  assert ((estimateTokens (DiscussionContext c) >? 1000) = false) as Hd.
  { unfold estimateTokens.
    assert (len (DiscussionContext c) ÷ 4 <= 3000 ÷ 4)
      by (apply Z.quot_le_mono; unfold len in *; lia).
    change (3000 ÷ 4) with 750 in *.
    destruct (Z.gtb_spec (len (DiscussionContext c) ÷ 4) 1000); [lia|reflexivity]. }
  destruct (Z.le_gt_cases
              (fold_left (fun acc f => acc + estimateTokens (Content f)) (AdditionalFiles c)
                 (estimateTokens (Prefix c) + estimateTokens (Suffix c) +
                  estimateTokens (AgentsInstructions c) +
                  estimateTokens (DiscussionContext c))) maxTokens) as [Hin|Hover].
  - unfold c'. rewrite trimToTokenBudget_within_budget by exact Hin. auto 10.
  - destruct (trimToTokenBudget_over_budget maxTokens c ltac:(lia))
      as (Hp & Hs & Hf & Hl & Hdisc & Hagents).
    fold c' in Hp, Hs, Hf, Hl, Hdisc, Hagents. rewrite Hd in Hdisc.
    repeat (split; [assumption|]).
    destruct (Z.gtb_spec (estimateTokens (AgentsInstructions c)) 2000) as [Hbig|_];
      [right|left; exact Hagents].
    split; [exact Hagents|]. unfold estimateTokens in Hbig.
    destruct (Z.le_gt_cases 8000 (len (AgentsInstructions c))) as [|Hlt]; [assumption|].
    assert (len (AgentsInstructions c) ÷ 4 <= 7999 ÷ 4)
      by (apply Z.quot_le_mono; unfold len in *; lia).
    change (7999 ÷ 4) with 1999 in *. lia.
Qed.

(** X14.  What [GatherContext] returns is made of the split at the
    cursor, the discussion excerpt, the readable context files and the
    language of the file as they were gathered: the budget pass inside
    it never cuts the discussion, which is at most 3000 bytes (750
    tokens) when it gets there, and can only cut the instructions, to
    their first 2000 bytes, when they are 8000 bytes or more. *)
Theorem GatherContext_fields (fuel : nat) (g : ContextGatherer) (req : CompletionRequest)
    (fileContent : string) (pg : ProjectGetter) (c : CompletionContext) :
  GatherContext fuel g req fileContent pg = Some (inl c) ->
  exists baseDir instructions,
    GetProjectBaseDir pg (ProjectID req) = (baseDir, None) /\
    gatherAgentsInstructions fuel baseDir (FilePath req) pg = Some instructions /\
    (Prefix c, Suffix c) = extractPrefixSuffix fileContent (CursorLine req) (CursorColumn req) /\
    DiscussionContext c = gatherDiscussionContext (ProjectID req) pg /\
    AdditionalFiles c = gatherAdditionalFiles req baseDir pg /\
    Language c = detectLanguage (FilePath req) /\
    (AgentsInstructions c = instructions \/
     AgentsInstructions c = slice_to instructions 2000 /\ 8000 <= len instructions).
Proof.
  unfold GatherContext. intros Hrun.
  destruct (GetProjectBaseDir pg (ProjectID req)) as [baseDir [e|]]; [discriminate|].
  destruct (extractPrefixSuffix fileContent (CursorLine req) (CursorColumn req))
    as [prefix suffix].
  destruct (gatherAgentsInstructions fuel baseDir (FilePath req) pg) as [instructions|]
    eqn:Hinstr; [|discriminate].
  exists baseDir, instructions. split; [reflexivity|]. split; [exact Hinstr|].
  pose proof (trim_keeps_short_discussion (maxTokens g)
                (mkCompletionContext prefix suffix instructions
                   (gatherDiscussionContext (ProjectID req) pg)
                   (gatherAdditionalFiles req baseDir pg) (detectLanguage (FilePath req)))
                (gatherDiscussionContext_short (ProjectID req) pg)) as Htrim.
  cbv zeta in Htrim.
  destruct (trimToTokenBudget _ _) as [[] c']. injection Hrun as <-. simpl in Htrim.
  destruct Htrim as (-> & -> & -> & -> & -> & Hagents). auto 10.
Qed.

Lemma GatherContext_inr (fuel : nat) (g : ContextGatherer) (req : CompletionRequest)
    (fileContent : string) (pg : ProjectGetter) (err : error) :
  GatherContext fuel g req fileContent pg = Some (inr err) ->
  snd (GetProjectBaseDir pg (ProjectID req)) = Some err.
Proof.
  unfold GatherContext.
  destruct (GetProjectBaseDir pg (ProjectID req)) as [baseDir [e|]]; simpl.
  - intros [= ->]. reflexivity.
  - destruct (extractPrefixSuffix _ _ _) as [prefix suffix].
    destruct (gatherAgentsInstructions _ _ _ _); [|discriminate].
    destruct (trimToTokenBudget _ _) as [[] c']. discriminate.
Qed.

(** X15.  [GatherContext] fails exactly when the provider cannot give
    the base directory of the project, and then with the provider's
    error; no other failure of the provider makes it fail. *)
Theorem GatherContext_fails_iff (fuel : nat) (g : ContextGatherer) (req : CompletionRequest)
    (fileContent : string) (pg : ProjectGetter) (err : error) :
  GatherContext fuel g req fileContent pg = Some (inr err)
  <-> snd (GetProjectBaseDir pg (ProjectID req)) = Some err.
Proof.
  split; [apply GatherContext_inr|].
  unfold GatherContext.
  destruct (GetProjectBaseDir pg (ProjectID req)) as [baseDir [e|]]; simpl.
  - intros [= ->]. reflexivity.
  - discriminate.
Qed.

End GatherMore.

(** The file of the scenario, one directory below the base: the walk
    reads /proj/src/AGENTS.md, which is missing, and /proj/AGENTS.md. *)
Lemma gatherAgentsInstructions_walk_witness :
  Gather.gatherAgentsInstructions (lib := Unix.lib) 8 "/proj" "src/main.go" Scenario.pg
  = Some "Keep it short.".
Proof.
  exact (gatherAgentsInstructions_walk (lib := Unix.lib) 1 8 "/proj" "src/main.go"
           Scenario.pg ltac:(vm_compute; reflexivity) ltac:(lia)).
Defined.

Section GatherCases.

Import GoState Errors Env Api Context Gather.

(** The context gathered for the request of the scenario: the first
    line before the cursor, nothing after it, the instructions whole. *)
Lemma GatherContext_fields_witness :
  let req := Scenario.req in
  let pg := Scenario.pg in
  let c := mkCompletionContext "package main" "" "Keep it short." "" [] "Go" in
  exists baseDir instructions,
    GetProjectBaseDir pg (ProjectID req) = (baseDir, None) /\
    gatherAgentsInstructions (lib := Unix.lib) 8 baseDir (FilePath req) pg
    = Some instructions /\
    (Prefix c, Suffix c)
    = extractPrefixSuffix Scenario.source (CursorLine req) (CursorColumn req) /\
    DiscussionContext c = gatherDiscussionContext (ProjectID req) pg /\
    AdditionalFiles c = gatherAdditionalFiles (lib := Unix.lib) req baseDir pg /\
    Language c = detectLanguage (lib := Unix.lib) (FilePath req) /\
    (AgentsInstructions c = instructions \/
     AgentsInstructions c = slice_to instructions 2000 /\ 8000 <= len instructions).
Proof.
  exact (GatherContext_fields (lib := Unix.lib) 8 (mkContextGatherer 10000) Scenario.req
           Scenario.source Scenario.pg
           (mkCompletionContext "package main" "" "Keep it short." "" [] "Go")
           ltac:(vm_compute; reflexivity)).
Defined.

End GatherCases.


(** ** The service: how a call ends *)

Section CompleteMore.

Import GoState Errors Env Api Context Gather Service Derived.

Context {lib : GoLib}.

(** How [generate] ends when it returns a response. *)
Lemma generate_returned (range : Cache.RangeOrder) (clock : Clock) (fuel : nat)
    (req : CompletionRequest) (pg : ProjectGetter) (content : string) (w w' : World)
    (p : ptr) :
  generate range clock fuel req pg content w = (Returned p, w') ->
  p = length (heap w) /\
  (exists resp,
     heap w' = (heap w ++ [resp])%list /\ CachedResult resp = false /\
     Timestamp resp = at_Timestamp clock /\
     LatencyMs resp = Z.quot (at_latency clock - at_start clock) 1000000 /\
     Model resp = (if nonempty (LLM req) then LLM req
                   else Config.DefaultLLM (config (svc w)))) /\
  is_Some (grokker (svc w)) /\
  config (svc w') = config (svc w) /\ grokker (svc w') = grokker (svc w) /\
  rateLimiter (svc w') = rateLimiter (svc w) /\
  cache (svc w') =
    (if Config.EnableCache (config (svc w))
     then snd (Cache.Put range (at_Put clock) req content p (cache (svc w)))
     else cache (svc w)).
Proof.
  unfold generate, mbind, M_bind, bind, gets, on_heap, on_cache, alloc, mret, M_ret, ret.
  destruct (GatherContext _ _ _ _ _) as [[c|e]|]; try discriminate.
  destruct (Fim.FormatPrompt _ c) as [prompt c'].
  destruct (grokker (svc w)) as [client|] eqn:Hg; [|discriminate].
  destruct (Query client _ _ _ _) as [[completion tokens] [e|]]; [discriminate|].
  simpl. destruct (Config.EnableCache (config (svc w))) eqn:Hen; simpl.
  - destruct (Cache.Put _ _ _ _ _ _) as [[] c1] eqn:Hput. simpl.
    intros [= <- <-]. simpl. rewrite Hput.
    split; [reflexivity|]. split.
    + eexists. split; [reflexivity|]. simpl.
      destruct (nonempty (LLM req)); auto.
    + eauto 10.
  - intros [= <- <-]. simpl.
    split; [reflexivity|]. split.
    + eexists. split; [reflexivity|]. simpl.
      destruct (nonempty (LLM req)); auto.
    + eauto 10.
Qed.

(** How [generate] ends when it fails. *)
Lemma generate_failed (range : Cache.RangeOrder) (clock : Clock) (fuel : nat)
    (req : CompletionRequest) (pg : ProjectGetter) (content : string) (w w' : World)
    (err : error) :
  generate range clock fuel req pg content w = (Failed err, w') ->
  w' = w /\
  ((exists cause, err = wrapf "failed to gather context" cause /\
                  snd (GetProjectBaseDir pg (ProjectID req)) = Some cause) \/
   (err = Errorf "grokker client not set" None /\ grokker (svc w) = None) \/
   (exists cause, err = wrapf "LLM call failed" cause)).
Proof.
  unfold generate, mbind, M_bind, bind, gets, on_heap, on_cache, alloc, mret, M_ret, ret.
  destruct (GatherContext _ _ _ _ _) as [[c|e]|] eqn:Hgather; try discriminate.
  - destruct (Fim.FormatPrompt _ c) as [prompt c'].
    destruct (grokker (svc w)) as [client|] eqn:Hg.
    + destruct (Query client _ _ _ _) as [[completion tokens] [e|]].
      * intros [= <- <-]. split; [reflexivity|]. right. right. eauto.
      * simpl. destruct (Config.EnableCache (config (svc w))); simpl;
          [destruct (Cache.Put _ _ _ _ _ _) as [[] c1]|]; discriminate.
    + intros [= <- <-]. auto.
  - intros [= <- <-]. split; [reflexivity|]. left. exists e. split; [reflexivity|].
    apply GatherContext_inr in Hgather. exact Hgather.
Qed.

(** The ways a call of [Complete] can go. *)
Lemma Complete_inv (range : Cache.RangeOrder) (clock : Clock) (fuel : nat)
    (req : CompletionRequest) (pg : ProjectGetter) (w w' : World) (out : outcome) :
  Complete range clock fuel req pg w = (out, w') ->
  (exists err, validateRequest req pg = Some err /\ out = Failed err /\ w' = w) \/
  (validateRequest req pg = None /\
   exists res r',
     RateLimit.CheckLimit (at_CheckLimit clock) (ProjectID req)
       (Config.MaxRequestsPerMinute (config (svc w)))
       (Config.MaxRequestsPerHour (config (svc w))) (rateLimiter (svc w)) = (res, r') /\
     ((exists err, res = Some err /\ out = Failed err /\ w' = with_limiter r' w) \/
      (res = None /\
       exists content rerr,
         ReadFile pg (resolveFilePath (fst (GetProjectBaseDir pg (ProjectID req)))
                                      (FilePath req)) = (content, rerr) /\
         ((exists cause, rerr = Some cause /\
                         out = Failed (wrapf "failed to read file" cause) /\
                         w' = with_limiter r' w) \/
          (rerr = None /\
           ((exists p, Config.EnableCache (config (svc w)) = true /\
                       Cache.Get (at_Get clock) (cache (svc w)) req content = Some p /\
                       out = Returned p /\
                       w' = mkWorld (svc (with_limiter r' w))
                                    (update p (set_CachedResult true) (heap w))) \/
            ((Config.EnableCache (config (svc w)) = false \/
              Cache.Get (at_Get clock) (cache (svc w)) req content = None) /\
             generate range clock fuel req pg content (with_limiter r' w) = (out, w')))))))).
Proof.
  unfold Complete.
  unfold mbind, M_bind, bind, gets, on_rateLimiter, on_heap, modify, mret, M_ret, ret.
  destruct (validateRequest req pg) as [err|] eqn:Hval.
  { intros [= <- <-]. left. eauto. }
  intros Hrun. right. split; [reflexivity|].
  destruct (RateLimit.CheckLimit _ _ _ _ _) as [[err|] r']; simpl in Hrun.
  { injection Hrun as <- <-. exists (Some err), r'. split; [reflexivity|]. left. eauto. }
  exists None, r'. split; [reflexivity|]. right. split; [reflexivity|].
  destruct (GetProjectBaseDir pg (ProjectID req)) as [baseDir e]. simpl.
  destruct (ReadFile pg (resolveFilePath baseDir (FilePath req))) as [content [cause|]].
  { injection Hrun as <- <-. exists content, (Some cause). split; [reflexivity|].
    left. eauto. }
  exists content, None. split; [reflexivity|]. right. split; [reflexivity|].
  destruct (Config.EnableCache (config (svc w))) eqn:Hen; simpl in Hrun.
  - destruct (Cache.Get _ _ _ _) as [p|] eqn:Hget.
    + injection Hrun as <- <-. left. exists p. auto.
    + right. split; [auto|exact Hrun].
  - right. split; [auto|exact Hrun].
Qed.

Lemma walkUp_more_fuel (fuel k : nat) :
  forall (pg : ProjectGetter) (baseDir dir : string) (acc r : list string),
    walkUp fuel pg baseDir dir acc = Some r ->
    walkUp (fuel + k) pg baseDir dir acc = Some r.
Proof.
  induction fuel as [|fuel IH]; intros pg baseDir dir acc r; [discriminate|].
  simpl. destruct (ReadFile pg (filepath_Join dir "AGENTS.md")) as [content err].
  destruct (String.eqb dir baseDir || String.eqb dir "/" || String.eqb dir ".");
    [auto|].
  destruct (String.eqb (filepath_Dir dir) dir); [auto|]. apply IH.
Qed.

Lemma GatherContext_more_fuel (fuel k : nat) (g : ContextGatherer) (req : CompletionRequest)
    (content : string) (pg : ProjectGetter) (r : CompletionContext + error) :
  GatherContext fuel g req content pg = Some r ->
  GatherContext (fuel + k) g req content pg = Some r.
Proof.
  unfold GatherContext, gatherAgentsInstructions.
  destruct (GetProjectBaseDir pg (ProjectID req)) as [baseDir [e|]]; [auto|].
  destruct (extractPrefixSuffix _ _ _) as [prefix suffix].
  destruct (walkUp fuel pg baseDir _ []) as [instructions|] eqn:Hwalk; [|discriminate].
  rewrite (walkUp_more_fuel fuel k _ _ _ _ _ Hwalk). auto.
Qed.

Lemma generate_more_fuel (range : Cache.RangeOrder) (clock : Clock) (fuel k : nat)
    (req : CompletionRequest) (pg : ProjectGetter) (content : string) (w : World) :
  fst (generate range clock fuel req pg content w) <> OutOfFuel ->
  generate range clock (fuel + k) req pg content w
  = generate range clock fuel req pg content w.
Proof.
  unfold generate, mbind, M_bind, bind, gets, mret, M_ret, ret.
  destruct (GatherContext fuel _ req content pg) as [r|] eqn:Hgather;
    [|simpl; congruence].
  rewrite (GatherContext_more_fuel fuel k _ _ _ _ _ Hgather). reflexivity.
Qed.

(** The bound on the steps of the walk for AGENTS.md files: a call that
    ends within a bound ends the same way, in the same world, within
    every larger one. *)
Lemma Complete_more_fuel (range : Cache.RangeOrder) (clock : Clock) (fuel k : nat)
    (req : CompletionRequest) (pg : ProjectGetter) (w : World) :
  fst (Complete range clock fuel req pg w) <> OutOfFuel ->
  Complete range clock (fuel + k) req pg w = Complete range clock fuel req pg w.
Proof.
  unfold Complete.
  unfold mbind, M_bind, bind, gets, on_rateLimiter, on_heap, modify, mret, M_ret, ret.
  destruct (validateRequest req pg) as [err|]; [reflexivity|].
  destruct (RateLimit.CheckLimit _ _ _ _ _) as [[err|] r']; simpl; [reflexivity|].
  destruct (GetProjectBaseDir pg (ProjectID req)) as [baseDir e].
  destruct (ReadFile pg (resolveFilePath baseDir (FilePath req))) as [content [cause|]];
    [reflexivity|].
  destruct (Config.EnableCache (config (svc w))); simpl.
  - destruct (Cache.Get _ _ _ _) as [p|]; [reflexivity|]. apply generate_more_fuel.
  - apply generate_more_fuel.
Qed.

Lemma validateRequest_error (req : CompletionRequest) (pg : ProjectGetter) (err : error) :
  validateRequest req pg = Some err ->
  (err = ErrInvalidRequest /\ (ProjectID req = "" \/ FilePath req = "")) \/
  snd (GetProjectAuthorizedFiles pg (ProjectID req)) = Some err \/
  err = Errorf ("file not authorized: " +:+ FilePath req) (Some ErrFileNotAuthorized).
Proof.
  unfold validateRequest.
  destruct (nonempty (ProjectID req)) eqn:Hp; simpl.
  2:{ intros [= <-]. left. split; [reflexivity|]. left. apply nonempty_false. exact Hp. }
  destruct (nonempty (FilePath req)) eqn:Hf; simpl.
  2:{ intros [= <-]. left. split; [reflexivity|]. right. apply nonempty_false. exact Hf. }
  destruct (GetProjectAuthorizedFiles pg (ProjectID req)) as [files [e|]]; simpl.
  { intros [= <-]. auto. }
  destruct (GetProjectBaseDir pg (ProjectID req)) as [baseDir e].
  destruct (authorized _ _ _); [discriminate|]. intros [= <-]. auto.
Qed.

Lemma CheckLimit_error (now : Z) (p : string) (mm mh : Z) (r r' : RateLimit.RateLimiter)
    (err : error) :
  RateLimit.CheckLimit now p mm mh r = (Some err, r') ->
  err = WrapRateLimitError "per-minute rate limit exceeded" ErrRateLimitExceeded \/
  err = WrapRateLimitError "per-hour rate limit exceeded" ErrRateLimitExceeded.
Proof.
  unfold RateLimit.CheckLimit.
  destruct (_ >=? mm); [intros [= <- _]; auto|].
  destruct (_ >=? mh); [intros [= <- _]; auto|discriminate].
Qed.

(** X17.  A call that fails writes nothing: the cache and the
    responses are as before it, and so are the configuration and the
    client; when it fails in validation the limiter is as before too,
    so a request that is invalid or not authorized is not counted. *)
Theorem Complete_failure_writes_nothing (range : Cache.RangeOrder) (clock : Clock)
    (fuel : nat) (req : CompletionRequest) (pg : ProjectGetter) (w w' : World)
    (err : error) :
  Complete range clock fuel req pg w = (Failed err, w') ->
  cache (svc w') = cache (svc w) /\ heap w' = heap w /\
  config (svc w') = config (svc w) /\ grokker (svc w') = grokker (svc w) /\
  (validateRequest req pg <> None -> w' = w).
Proof.
  intros Hrun.
  destruct (Complete_inv _ _ _ _ _ _ _ _ Hrun)
    as [(e & Hval & _ & ->)|(Hval & res & r' & _ & Hcases)]; [auto 10|].
  assert (w' = with_limiter r' w) as ->; [|simpl; split; [|split; [|split; [|split]]];
                                          try reflexivity; congruence].
  destruct Hcases as [(e & _ & _ & ->)|(_ & content & rerr & _ & Hread)]; [reflexivity|].
  destruct Hread as [(cause & _ & _ & ->)|(_ & [(p & _ & _ & Hout & _)|(_ & Hgen)])];
    [reflexivity|discriminate|].
  apply generate_failed in Hgen as [-> _]. reflexivity.
Qed.

(** X18.  The errors a call can fail with: the invalid-request
    sentinel; the provider's own error for the authorized files, as it
    is; the not-authorized error, which wraps its sentinel and names
    the path; one of the two rate-limit errors, the only ones with an
    error code; or one of four errors made with a fixed text: for a file
    that cannot be read, for a base directory the provider cannot give,
    for a client that was never set, and for a failed query. *)
Theorem Complete_errors (range : Cache.RangeOrder) (clock : Clock)
    (fuel : nat) (req : CompletionRequest) (pg : ProjectGetter) (w w' : World)
    (err : error) :
  Complete range clock fuel req pg w = (Failed err, w') ->
  err = ErrInvalidRequest \/
  snd (GetProjectAuthorizedFiles pg (ProjectID req)) = Some err \/
  err = Errorf ("file not authorized: " +:+ FilePath req) (Some ErrFileNotAuthorized) \/
  err = CompletionError "RATE_LIMIT" "per-minute rate limit exceeded"
          (Some ErrRateLimitExceeded) \/
  err = CompletionError "RATE_LIMIT" "per-hour rate limit exceeded"
          (Some ErrRateLimitExceeded) \/
  (exists cause, err = Errorf ("failed to read file: " +:+ Error cause) (Some cause)) \/
  (exists cause, err = Errorf ("failed to gather context: " +:+ Error cause) (Some cause) /\
                 snd (GetProjectBaseDir pg (ProjectID req)) = Some cause) \/
  err = Errorf "grokker client not set" None \/
  (exists cause, err = Errorf ("LLM call failed: " +:+ Error cause) (Some cause)).
Proof.
  intros Hrun.
  destruct (Complete_inv _ _ _ _ _ _ _ _ Hrun)
    as [(e & Hval & [= <-] & _)|(Hval & res & r' & Hlim & Hcases)].
  { destruct (validateRequest_error req pg err Hval) as [[-> _]|[?|?]]; auto. }
  destruct Hcases as [(e & -> & [= <-] & _)|(_ & content & rerr & _ & Hread)].
  { destruct (CheckLimit_error _ _ _ _ _ _ _ Hlim) as [-> | ->]; auto 10. }
  destruct Hread as [(cause & _ & [= ->] & _)|(_ & [(p & _ & _ & Hout & _)|(_ & Hgen)])];
    [right; right; right; right; right; left; exists cause; reflexivity|discriminate|].
  apply generate_failed in Hgen as [_ [(cause & -> & Hbase)|[[-> _]|(cause & ->)]]].
  - do 6 right. left. exists cause. split; [reflexivity|exact Hbase].
  - do 7 right. left. reflexivity.
  - do 8 right. exists cause. reflexivity.
Qed.

(** A call that returns a response: from the cache, or generated. *)
Lemma Complete_returned_cases (range : Cache.RangeOrder) (clock : Clock)
    (fuel : nat) (req : CompletionRequest) (pg : ProjectGetter) (w w' : World) (p : ptr) :
  Complete range clock fuel req pg w = (Returned p, w') ->
  validateRequest req pg = None /\
  exists content r',
    ReadFile pg (resolveFilePath (fst (GetProjectBaseDir pg (ProjectID req)))
                                 (FilePath req)) = (content, None) /\
    ((Config.EnableCache (config (svc w)) = true /\
      Cache.Get (at_Get clock) (cache (svc w)) req content = Some p /\
      w' = mkWorld (svc (with_limiter r' w)) (update p (set_CachedResult true) (heap w))) \/
     ((Config.EnableCache (config (svc w)) = false \/
       Cache.Get (at_Get clock) (cache (svc w)) req content = None) /\
      generate range clock fuel req pg content (with_limiter r' w) = (Returned p, w'))).
Proof.
  intros Hrun.
  destruct (Complete_inv _ _ _ _ _ _ _ _ Hrun)
    as [(e & _ & Hout & _)|(Hval & res & r' & Hlim & Hcases)]; [discriminate|].
  split; [exact Hval|].
  destruct Hcases as [(e & _ & Hout & _)|(_ & content & rerr & Hfile & Hread)];
    [discriminate|].
  destruct Hread as [(cause & _ & Hout & _)|(-> & Hrest)]; [discriminate|].
  exists content, r'. split; [exact Hfile|].
  destruct Hrest as [(q & Hen & Hget & [= <-] & ->)|(Hmiss & Hgen)]; [left|right]; auto.
Qed.

(** X19.  A call that returns a response either was answered from the
    cache, and then returns the pointer the cache held for the content
    as read and has set the flag behind it, allocating nothing; or it
    generated one, and then returns a new pointer, to a response with
    the flag unset, the clock's timestamp and the model that was asked
    (the default one when the request names none), and has stored that
    pointer in the cache when caching is on. *)
Theorem Complete_returned (range : Cache.RangeOrder) (clock : Clock)
    (fuel : nat) (req : CompletionRequest) (pg : ProjectGetter) (w w' : World) (p : ptr) :
  Complete range clock fuel req pg w = (Returned p, w') ->
  exists content,
    ReadFile pg (resolveFilePath (fst (GetProjectBaseDir pg (ProjectID req)))
                                 (FilePath req)) = (content, None) /\
    ((Config.EnableCache (config (svc w)) = true /\
      Cache.Get (at_Get clock) (cache (svc w)) req content = Some p /\
      heap w' = update p (set_CachedResult true) (heap w) /\
      cache (svc w') = cache (svc w)) \/
     ((Config.EnableCache (config (svc w)) = false \/
       Cache.Get (at_Get clock) (cache (svc w)) req content = None) /\
      p = length (heap w) /\
      (exists resp,
         heap w' = (heap w ++ [resp])%list /\ CachedResult resp = false /\
         Timestamp resp = at_Timestamp clock /\
         Model resp = (if nonempty (LLM req) then LLM req
                       else Config.DefaultLLM (config (svc w)))) /\
      is_Some (grokker (svc w)) /\
      cache (svc w') =
        (if Config.EnableCache (config (svc w))
         then snd (Cache.Put range (at_Put clock) req content p (cache (svc w)))
         else cache (svc w)))).
Proof.
  intros Hrun.
  destruct (Complete_returned_cases _ _ _ _ _ _ _ _ Hrun)
    as (_ & content & r' & Hfile & Hcases).
  exists content. split; [exact Hfile|].
  destruct Hcases as [(Hen & Hget & ->)|(Hmiss & Hgen)].
  - left. auto.
  - right. split; [exact Hmiss|].
    apply generate_returned in Hgen
      as (Hp & (resp & Hheap & Hflag & Hstamp & _ & Hmodel) & Hclient & _ & _ & _ & Hcache).
    simpl in *. split; [exact Hp|]. split; [exists resp; auto|]. auto.
Qed.

(** No call changes the configuration or the client. *)
Lemma Complete_keeps_config (range : Cache.RangeOrder) (clock : Clock) (fuel : nat)
    (req : CompletionRequest) (pg : ProjectGetter) (w : World) :
  config (svc (snd (Complete range clock fuel req pg w))) = config (svc w) /\
  grokker (svc (snd (Complete range clock fuel req pg w))) = grokker (svc w).
Proof.
  destruct (Complete range clock fuel req pg w) as [out w'] eqn:Hrun. simpl.
  destruct (Complete_inv _ _ _ _ _ _ _ _ Hrun)
    as [(e & _ & _ & ->)|(_ & res & r' & _ & Hcases)]; [auto|].
  destruct Hcases as [(e & _ & _ & ->)|(_ & content & rerr & _ & Hread)]; [auto|].
  destruct Hread as [(cause & _ & _ & ->)|(_ & [(p & _ & _ & _ & ->)|(_ & Hgen)])];
    [auto|auto|].
  clear Hrun. revert Hgen.
  unfold generate, mbind, M_bind, bind, gets, on_heap, on_cache, alloc, mret, M_ret, ret.
  destruct (GatherContext _ _ _ _ _) as [[c|e]|]; try (intros [= _ <-]; auto).
  destruct (Fim.FormatPrompt _ c) as [prompt c'].
  destruct (grokker (svc (with_limiter r' w))) as [client|] eqn:Hg;
    [|intros [= _ <-]; auto].
  destruct (Query client _ _ _ _) as [[completion tokens] [e|]]; [intros [= _ <-]; auto|].
  simpl. destruct (Config.EnableCache (config (svc w))); simpl.
  - destruct (Cache.Put _ _ _ _ _ _) as [[] c1]. intros [= _ <-]. auto.
  - intros [= _ <-]. auto.
Qed.

(** C6: the code does not keep it.  The response that a call generated
    is handed to its caller and stored in the cache entry as one
    pointer, and a later call answered from the cache writes [true] into
    the cache-served flag behind that pointer.  So the response the
    first caller holds, produced with the flag [false], is changed after
    it was produced; the response of the entry is shared outside the
    cache; and a [Get] of the key after the hit returns a response whose
    flag is not the one it had when it was put. *)
Theorem cache_hit_rewrites_returned_response (range1 range2 : Cache.RangeOrder)
    (clock1 clock2 : Clock) (fuel1 fuel2 : nat) (req : CompletionRequest)
    (pg : ProjectGetter) (w w1 : World) (p : ptr) (content : string) :
  Complete range1 clock1 fuel1 req pg w = (Returned p, w1) ->
  ReadFile pg (resolveFilePath (fst (GetProjectBaseDir pg (ProjectID req)))
                               (FilePath req)) = (content, None) ->
  Config.EnableCache (config (svc w)) = true ->
  Cache.enabled (cache (svc w)) = true ->
  Cache.Get (at_Get clock1) (cache (svc w)) req content = None ->
  fst (RateLimit.CheckLimit (at_CheckLimit clock2) (ProjectID req)
         (Config.MaxRequestsPerMinute (config (svc w)))
         (Config.MaxRequestsPerHour (config (svc w))) (rateLimiter (svc w1))) = None ->
  at_Get clock2 - at_Put clock1 <= Cache.ttl (cache (svc w)) ->
  exists resp,
    deref (heap w1) p = Some resp /\ CachedResult resp = false /\
    Cache.Response <$> Cache.entries (cache (svc w1)) !! Cache.cacheKey req = Some p /\
    let '(out, w2) := Complete range2 clock2 fuel2 req pg w1 in
    out = Returned p /\
    deref (heap w2) p = Some (set_CachedResult true resp) /\
    deref (heap w2) p <> deref (heap w1) p /\
    cache (svc w2) = cache (svc w1) /\
    Cache.Get (at_Get clock2) (cache (svc w2)) req content = Some p.
Proof.
  intros Hfirst Hfile Hen Hon Hmiss Hlim Hage.
  pose proof (Complete_keeps_config range1 clock1 fuel1 req pg w) as [Hcfg _].
  rewrite Hfirst in Hcfg. simpl in Hcfg.
  destruct (Complete_returned_cases _ _ _ _ _ _ _ _ Hfirst)
    as (Hval & content' & r1 & Hfile' & Hcases).
  rewrite Hfile in Hfile'. injection Hfile' as <-.
  destruct Hcases as [(_ & Hget & _)|(_ & Hgen)]; [congruence|].
  apply generate_returned in Hgen
    as (Hp & (resp & Hheap & Hflag & _) & _ & _ & _ & _ & Hcache).
  simpl in Hp, Hheap, Hcache. rewrite Hen in Hcache.
  assert (deref (heap w1) p = Some resp) as Hderef.
  { unfold deref. rewrite Hheap, Hp. apply list_lookup_middle. reflexivity. }
  exists resp. split; [exact Hderef|]. split; [exact Hflag|]. split.
  { rewrite Hcache. unfold Cache.Put. rewrite Hon. simpl.
    rewrite lookup_insert_eq. reflexivity. }
  destruct (RateLimit.CheckLimit _ _ _ _ (rateLimiter (svc w1))) as [res r2] eqn:Hcheck.
  simpl in Hlim. subst res.
  assert (Cache.Get (at_Get clock2) (cache (svc w1)) req content = Some p) as Hhit.
  { rewrite Hcache, (Get_after_Put range1 _ _ req req) by (exact Hon || reflexivity).
    destruct (Z.gtb_spec (Time.Since (at_Get clock2) (at_Put clock1))
                (Cache.ttl (cache (svc w))));
      [pose proof (Since_le (at_Get clock2) (at_Put clock1) (Cache.ttl (cache (svc w))));
       lia|].
    rewrite String.eqb_refl. reflexivity. }
  rewrite (Complete_hit range2 clock2 fuel2 req pg w1 r2 content p);
    rewrite ?Hcfg; try assumption.
  simpl. split; [reflexivity|].
  rewrite (update_lookup _ p p _ resp Hderef), decide_True by reflexivity.
  split; [reflexivity|]. split; [|split; [reflexivity|exact Hhit]].
  rewrite Hderef. intros [= Heq]. apply (f_equal CachedResult) in Heq.
  simpl in Heq. congruence.
Qed.

(** X20.  What a call generated, the next call for the same request
    gets from the cache.  When a call missed the cache and returned a
    response, a later call for the same request, with the file
    unchanged, made while the limiter accepts it and no later than the
    TTL after the first one stored its response, returns the same
    pointer, with the flag set, and allocates nothing; and it does so
    whatever client the service then has, or none: the client is not
    asked. *)
Theorem Complete_miss_then_hit (range1 range2 : Cache.RangeOrder) (clock1 clock2 : Clock)
    (fuel1 fuel2 : nat) (req : CompletionRequest) (pg : ProjectGetter) (w w1 : World)
    (p : ptr) (content : string) (client' : option GrokkerClient) :
  Complete range1 clock1 fuel1 req pg w = (Returned p, w1) ->
  ReadFile pg (resolveFilePath (fst (GetProjectBaseDir pg (ProjectID req)))
                               (FilePath req)) = (content, None) ->
  Config.EnableCache (config (svc w)) = true ->
  Cache.enabled (cache (svc w)) = true ->
  Cache.Get (at_Get clock1) (cache (svc w)) req content = None ->
  fst (RateLimit.CheckLimit (at_CheckLimit clock2) (ProjectID req)
         (Config.MaxRequestsPerMinute (config (svc w)))
         (Config.MaxRequestsPerHour (config (svc w))) (rateLimiter (svc w1))) = None ->
  at_Get clock2 - at_Put clock1 <= Cache.ttl (cache (svc w)) ->
  let '(out, w2) := Complete range2 clock2 fuel2 req pg (with_grokker client' w1) in
  out = Returned p /\
  CachedResult <$> deref (heap w2) p = Some true /\
  length (heap w2) = length (heap w1).
Proof.
  intros Hfirst Hfile Hen Hon Hmiss Hlim Hage.
  pose proof (Complete_keeps_config range1 clock1 fuel1 req pg w) as [Hcfg _].
  rewrite Hfirst in Hcfg. simpl in Hcfg.
  destruct (Complete_returned_cases _ _ _ _ _ _ _ _ Hfirst)
    as (Hval & content' & r1 & Hfile' & Hcases).
  rewrite Hfile in Hfile'. injection Hfile' as <-.
  destruct Hcases as [(_ & Hget & _)|(_ & Hgen)]; [congruence|].
  apply generate_returned in Hgen as (Hp & (resp & Hheap & _) & _ & _ & _ & _ & Hcache).
  simpl in Hp, Hheap, Hcache. rewrite Hen in Hcache.
  destruct (RateLimit.CheckLimit _ _ _ _ (rateLimiter (svc w1))) as [res r2] eqn:Hcheck.
  simpl in Hlim. subst res.
  assert (Cache.Get (at_Get clock2) (cache (svc w1)) req content = Some p) as Hhit.
  { rewrite Hcache, (Get_after_Put range1 _ _ req req) by (exact Hon || reflexivity).
    destruct (Z.gtb_spec (Time.Since (at_Get clock2) (at_Put clock1))
                (Cache.ttl (cache (svc w))));
      [pose proof (Since_le (at_Get clock2) (at_Put clock1) (Cache.ttl (cache (svc w))));
       lia|].
    rewrite String.eqb_refl. reflexivity. }
  rewrite (Complete_hit range2 clock2 fuel2 req pg (with_grokker client' w1) r2 content p);
    simpl; rewrite ?Hcfg; try assumption.
  assert (deref (heap w1) p = Some resp) as Hderef.
  { unfold deref. rewrite Hheap, Hp. apply list_lookup_middle. reflexivity. }
  split; [reflexivity|]. split.
  - rewrite (update_lookup _ p p _ resp Hderef), decide_True by reflexivity. reflexivity.
  - unfold update. unfold deref in Hderef. rewrite Hderef. apply length_insert.
Qed.

(** X21.  With caching off in the configuration no call touches the
    cache, however it ends, and every response returned is a new one,
    with the flag unset. *)
Theorem Complete_cache_off (range : Cache.RangeOrder) (clock : Clock) (fuel : nat)
    (req : CompletionRequest) (pg : ProjectGetter) (w : World) :
  Config.EnableCache (config (svc w)) = false ->
  let '(out, w') := Complete range clock fuel req pg w in
  cache (svc w') = cache (svc w) /\
  forall p, out = Returned p ->
            p = length (heap w) /\ CachedResult <$> deref (heap w') p = Some false.
Proof.
  intros Hoff.
  destruct (Complete range clock fuel req pg w) as [out w'] eqn:Hrun.
  split.
  - destruct (Complete_inv _ _ _ _ _ _ _ _ Hrun)
      as [(e & _ & _ & ->)|(_ & res & r' & _ & Hcases)]; [reflexivity|].
    destruct Hcases as [(e & _ & _ & ->)|(_ & content & rerr & _ & Hread)]; [reflexivity|].
    destruct Hread as [(cause & _ & _ & ->)|(_ & [(p & Hen & _)|(_ & Hgen)])];
      [reflexivity|congruence|].
    destruct out as [p|err|].
    + apply generate_returned in Hgen as (_ & _ & _ & _ & _ & _ & Hcache).
      simpl in Hcache. rewrite Hoff in Hcache. exact Hcache.
    + apply generate_failed in Hgen as [-> _]. reflexivity.
    + revert Hgen.
      unfold generate, mbind, M_bind, bind, gets, on_heap, on_cache, alloc, mret, M_ret, ret.
      destruct (GatherContext _ _ _ _ _) as [[c|e]|]; try discriminate.
      * destruct (Fim.FormatPrompt _ c) as [prompt c'].
        destruct (grokker _) as [client|]; [|discriminate].
        destruct (Query client _ _ _ _) as [[completion tokens] [e|]]; [discriminate|].
        simpl. rewrite Hoff. discriminate.
      * intros [= <-]. reflexivity.
  - intros p ->.
    destruct (Complete_returned_cases _ _ _ _ _ _ _ _ Hrun)
      as (_ & content & r' & _ & Hcases).
    destruct Hcases as [(Hen & _)|(_ & Hgen)]; [congruence|].
    apply generate_returned in Hgen as (Hp & (resp & Hheap & Hflag & _) & _).
    simpl in Hp, Hheap. split; [exact Hp|].
    assert (deref (heap w') p = Some resp) as ->
      by (unfold deref; rewrite Hheap, Hp; apply list_lookup_middle; reflexivity).
    simpl. rewrite Hflag. reflexivity.
Qed.

(** X22.  A request passes validation exactly when its project and
    path are not empty, the provider gives the authorized files of the
    project, and one of them, resolved against the base directory and
    cleaned, is the path of the request resolved and cleaned.  So a path
    listed as the request writes it always passes, and the comparison is
    of whole paths: no pattern is matched. *)
Theorem validateRequest_passes_iff (req : CompletionRequest) (pg : ProjectGetter) :
  let baseDir := fst (GetProjectBaseDir pg (ProjectID req)) in
  let files := fst (GetProjectAuthorizedFiles pg (ProjectID req)) in
  (validateRequest req pg = None <->
   ProjectID req <> "" /\ FilePath req <> "" /\
   snd (GetProjectAuthorizedFiles pg (ProjectID req)) = None /\
   exists authFile,
     authFile ∈ files /\
     filepath_Clean (resolveFilePath baseDir authFile)
     = filepath_Clean (resolveFilePath baseDir (FilePath req))) /\
  (ProjectID req <> "" -> FilePath req <> "" ->
   snd (GetProjectAuthorizedFiles pg (ProjectID req)) = None ->
   FilePath req ∈ files -> validateRequest req pg = None).
Proof.
  intros baseDir files.
  assert (validateRequest req pg = None <->
          ProjectID req <> "" /\ FilePath req <> "" /\
          snd (GetProjectAuthorizedFiles pg (ProjectID req)) = None /\
          exists authFile,
            authFile ∈ files /\
            filepath_Clean (resolveFilePath baseDir authFile)
            = filepath_Clean (resolveFilePath baseDir (FilePath req))) as Hiff.
  { unfold validateRequest, baseDir, files.
    destruct (nonempty (ProjectID req)) eqn:Hp; simpl.
    2:{ apply nonempty_false in Hp. split; [discriminate|]. intros (? & _); congruence. }
    destruct (nonempty (FilePath req)) eqn:Hf; simpl.
    2:{ apply nonempty_false in Hf. split; [discriminate|]. intros (_ & ? & _); congruence. }
    apply nonempty_true in Hp, Hf.
    destruct (GetProjectAuthorizedFiles pg (ProjectID req)) as [fs [e|]]; simpl.
    { split; [discriminate|]. intros (_ & _ & ? & _); congruence. }
    destruct (GetProjectBaseDir pg (ProjectID req)) as [base e]. simpl.
    unfold authorized.
    destruct (existsb _ fs) eqn:Hex.
    - split; [|reflexivity]. intros _. repeat (split; [assumption || reflexivity|]).
      apply existsb_exists in Hex as (authFile & Hin & Heq).
      exists authFile. split; [apply list_elem_of_In; exact Hin|].
      apply String.eqb_eq. exact Heq.
    - split; [discriminate|]. intros (_ & _ & _ & authFile & Hin & Heq).
      assert (existsb
                (fun authFile =>
                   String.eqb (filepath_Clean (resolveFilePath base authFile))
                              (filepath_Clean (resolveFilePath base (FilePath req)))) fs
              = true) as Hex'.
      { apply existsb_exists. exists authFile.
        split; [apply list_elem_of_In; exact Hin|apply String.eqb_eq; exact Heq]. }
      congruence. }
  split; [exact Hiff|].
  intros Hp Hf Herr Hin. apply Hiff. repeat (split; [assumption|]).
  exists (FilePath req). split; [exact Hin|reflexivity].
Qed.


End CompleteMore.

Section CompleteCases.

Import GoState Errors Env Api Context Gather Service Derived.

(** The eleventh call within a minute, which the limiter refuses. *)
Lemma Complete_failure_writes_nothing_witness :
  let w := Scenario.after_calls 10 in
  let w' := snd Scenario.eleventh_call in
  cache (svc w') = cache (svc w) /\ heap w' = heap w /\
  config (svc w') = config (svc w) /\ grokker (svc w') = grokker (svc w) /\
  (validateRequest (lib := Unix.lib) Scenario.req Scenario.pg <> None -> w' = w).
Proof.
  exact (Complete_failure_writes_nothing (lib := Unix.lib) map_to_list (Scenario.clock_at 11)
           8 Scenario.req Scenario.pg (Scenario.after_calls 10) (snd Scenario.eleventh_call)
           (WrapRateLimitError "per-minute rate limit exceeded" ErrRateLimitExceeded)
           ltac:(vm_compute; reflexivity)).
Defined.

(** A request for a file that is not listed. *)
Lemma Complete_errors_witness :
  let req := Cases.req_secret in
  let pg := Scenario.pg in
  let err := Errorf "file not authorized: src/secret.go" (Some ErrFileNotAuthorized) in
  err = ErrInvalidRequest \/
  snd (GetProjectAuthorizedFiles pg (ProjectID req)) = Some err \/
  err = Errorf ("file not authorized: " +:+ FilePath req) (Some ErrFileNotAuthorized) \/
  err = CompletionError "RATE_LIMIT" "per-minute rate limit exceeded"
          (Some ErrRateLimitExceeded) \/
  err = CompletionError "RATE_LIMIT" "per-hour rate limit exceeded"
          (Some ErrRateLimitExceeded) \/
  (exists cause, err = Errorf ("failed to read file: " +:+ Error cause) (Some cause)) \/
  (exists cause, err = Errorf ("failed to gather context: " +:+ Error cause) (Some cause) /\
                 snd (GetProjectBaseDir pg (ProjectID req)) = Some cause) \/
  err = Errorf "grokker client not set" None \/
  (exists cause, err = Errorf ("LLM call failed: " +:+ Error cause) (Some cause)).
Proof.
  exact (Complete_errors (lib := Unix.lib) map_to_list (Scenario.clock_at 1) 8
           Cases.req_secret Scenario.pg Scenario.world0 Scenario.world0
           (Errorf "file not authorized: src/secret.go" (Some ErrFileNotAuthorized))
           ltac:(vm_compute; reflexivity)).
Defined.

(** The first call of the scenario, which generates a response. *)
Lemma Complete_returned_witness :
  let req := Scenario.req in
  let pg := Scenario.pg in
  let clock := Scenario.clock_at 1 in
  let w := Scenario.world0 in
  let w' := Scenario.world1 in
  let p := 0%nat in
  exists content,
    ReadFile pg (resolveFilePath (lib := Unix.lib)
                   (fst (GetProjectBaseDir pg (ProjectID req))) (FilePath req))
    = (content, None) /\
    ((Config.EnableCache (config (svc w)) = true /\
      Cache.Get (at_Get clock) (cache (svc w)) req content = Some p /\
      heap w' = update p (set_CachedResult true) (heap w) /\
      cache (svc w') = cache (svc w)) \/
     ((Config.EnableCache (config (svc w)) = false \/
       Cache.Get (at_Get clock) (cache (svc w)) req content = None) /\
      p = length (heap w) /\
      (exists resp,
         heap w' = (heap w ++ [resp])%list /\ CachedResult resp = false /\
         Timestamp resp = at_Timestamp clock /\
         Model resp = (if nonempty (LLM req) then LLM req
                       else Config.DefaultLLM (config (svc w)))) /\
      is_Some (grokker (svc w)) /\
      cache (svc w') =
        (if Config.EnableCache (config (svc w))
         then snd (Cache.Put map_to_list (at_Put clock) req content p (cache (svc w)))
         else cache (svc w)))).
Proof.
  exact (Complete_returned (lib := Unix.lib) map_to_list (Scenario.clock_at 1) 8 Scenario.req
           Scenario.pg Scenario.world0 Scenario.world1 0%nat ltac:(vm_compute; reflexivity)).
Defined.

(** The two calls of the scenario, the second one on a service whose
    client has been taken away. *)
Lemma Complete_miss_then_hit_witness :
  let '(out, w2) := Complete (lib := Unix.lib) map_to_list (Scenario.clock_at 2) 8
                      Scenario.req Scenario.pg (with_grokker None Scenario.world1) in
  out = Returned 0%nat /\
  CachedResult <$> deref (heap w2) 0%nat = Some true /\
  length (heap w2) = length (heap Scenario.world1).
Proof.
  exact (Complete_miss_then_hit (lib := Unix.lib) map_to_list map_to_list
           (Scenario.clock_at 1) (Scenario.clock_at 2) 8 8 Scenario.req Scenario.pg
           Scenario.world0 Scenario.world1 0%nat Scenario.source None
           ltac:(vm_compute; reflexivity) ltac:(vm_compute; reflexivity)
           ltac:(vm_compute; reflexivity) ltac:(vm_compute; reflexivity)
           ltac:(vm_compute; reflexivity) ltac:(vm_compute; reflexivity)
           ltac:(vm_compute; discriminate)).
Defined.

(** The request of the scenario on a service with caching off. *)
Lemma Complete_cache_off_witness :
  let w := Cases.world_cache_off in
  let '(out, w') := Complete (lib := Unix.lib) map_to_list (Scenario.clock_at 1) 8
                      Scenario.req Scenario.pg w in
  cache (svc w') = cache (svc w) /\
  forall p, out = Returned p ->
            p = length (heap w) /\ CachedResult <$> deref (heap w') p = Some false.
Proof.
  exact (Complete_cache_off (lib := Unix.lib) map_to_list (Scenario.clock_at 1) 8 Scenario.req
           Scenario.pg Cases.world_cache_off eq_refl).
Defined.

(** The two calls of the scenario: the response of the first call,
    at address 0, has the flag set by the second. *)
Lemma cache_hit_rewrites_returned_response_witness :
  exists resp,
    deref (heap Scenario.world1) 0%nat = Some resp /\ CachedResult resp = false /\
    Cache.Response <$>
      Cache.entries (cache (svc Scenario.world1)) !! Cache.cacheKey Scenario.req
    = Some 0%nat /\
    let '(out, w2) := Complete (lib := Unix.lib) map_to_list (Scenario.clock_at 2) 8
                        Scenario.req Scenario.pg Scenario.world1 in
    out = Returned 0%nat /\
    deref (heap w2) 0%nat = Some (set_CachedResult true resp) /\
    deref (heap w2) 0%nat <> deref (heap Scenario.world1) 0%nat /\
    cache (svc w2) = cache (svc Scenario.world1) /\
    Cache.Get (at_Get (Scenario.clock_at 2)) (cache (svc w2)) Scenario.req Scenario.source
    = Some 0%nat.
Proof.
  exact (cache_hit_rewrites_returned_response (lib := Unix.lib) map_to_list map_to_list
           (Scenario.clock_at 1) (Scenario.clock_at 2) 8 8 Scenario.req Scenario.pg
           Scenario.world0 Scenario.world1 0%nat Scenario.source
           ltac:(vm_compute; reflexivity) ltac:(vm_compute; reflexivity)
           ltac:(vm_compute; reflexivity) ltac:(vm_compute; reflexivity)
           ltac:(vm_compute; reflexivity) ltac:(vm_compute; reflexivity)
           ltac:(vm_compute; discriminate)).
Defined.

End CompleteCases.

(** ** The prompt, the budget and the language *)

Section PromptMore.

Import GoState Env Context Fim Derived.

Lemma writeFiles_blocks (files : list FileContext) (c : CompletionContext) (buf : string) :
  writeFiles files (mkFrame c buf) = (tt, mkFrame c (buf +:+ fileBlocks files)).
Proof.
  revert buf. induction files as [|f files IH]; intros buf.
  - simpl. rewrite append_nil_r. reflexivity.
  - simpl. unfold mbind, M_bind, GoState.bind, WriteString, modify. simpl.
    rewrite IH. unfold fileBlock. rewrite !append_assoc. reflexivity.
Qed.

(** X24.  The prompt is, in this order: the preamble naming the
    language; the instructions under their title, if there are any; the
    discussion under its title, if there is any; the related files, each
    under a separator line with its path, if there are any; the text
    before the cursor and the text after it, each under its header; and
    the closing instructions, which name the language again. *)
Theorem FormatPrompt_renders (f : FIMFormatter) (c : CompletionContext) :
  fst (FormatPrompt f c) = render c.
Proof.
  unfold FormatPrompt, FormatPrompt_body, render, promptSection, filesSection.
  unfold mbind, M_bind, GoState.bind, field, gets, when, WriteString, modify, mret, M_ret,
    GoState.ret.
  simpl.
  destruct (nonempty (AgentsInstructions c)); simpl;
    destruct (nonempty (DiscussionContext c)); simpl;
    destruct (AdditionalFiles c) as [|file files] eqn:Hfiles; simpl;
    rewrite ?writeFiles_blocks; simpl; rewrite ?Hfiles; simpl; unfold fileBlock;
    rewrite ?append_assoc; reflexivity.
Qed.

End PromptMore.

Section BudgetMore.

Import GoState Context.

Lemma fold_tokens_ge (files : list FileContext) (start : Z) :
  start <= fold_left (fun acc f => acc + estimateTokens (Content f)) files start.
Proof.
  revert start. induction files as [|f files IH]; intros start; simpl; [lia|].
  specialize (IH (start + estimateTokens (Content f))).
  assert (0 <= estimateTokens (Content f))
    by (unfold estimateTokens, len; apply Z.quot_pos; lia).
  lia.
Qed.

Lemma estimateTokens_nonneg (s : string) : 0 <= estimateTokens s.
Proof. unfold estimateTokens, len. apply Z.quot_pos; lia. Qed.

Lemma estimateTokens_short (s : string) (n : Z) :
  len s <= 4 * n -> estimateTokens s <= n.
Proof.
  intros Hlen. unfold estimateTokens.
  assert (len s ÷ 4 <= (4 * n) ÷ 4) by (apply Z.quot_le_mono; unfold len in *; lia).
  rewrite Z.mul_comm, Z.quot_mul in H by lia. exact H.
Qed.

(** X25.  The budget pass does its work in one go: run again on its
    own result, it changes nothing. *)
Theorem trimToTokenBudget_idempotent (maxTokens : Z) (c : CompletionContext) :
  snd (trimToTokenBudget maxTokens (snd (trimToTokenBudget maxTokens c)))
  = snd (trimToTokenBudget maxTokens c).
Proof.
  set (c1 := snd (trimToTokenBudget maxTokens c)).
  assert (estimateTokens (DiscussionContext c1) <= 1000 /\
          estimateTokens (AgentsInstructions c1) <= 2000 \/ c1 = c) as Hc1.
  { destruct (Z.le_gt_cases
                (fold_left (fun acc f => acc + estimateTokens (Content f)) (AdditionalFiles c)
                   (estimateTokens (Prefix c) + estimateTokens (Suffix c) +
                    estimateTokens (AgentsInstructions c) +
                    estimateTokens (DiscussionContext c))) maxTokens) as [Hin|Hover].
    - right. apply trimToTokenBudget_within_budget. exact Hin.
    - left.
      destruct (trimToTokenBudget_over_budget maxTokens c ltac:(lia))
        as (_ & _ & _ & _ & Hd & Ha).
      fold c1 in Hd, Ha. rewrite Hd, Ha. split.
      + destruct (Z.gtb_spec (estimateTokens (DiscussionContext c)) 1000); [|lia].
        apply estimateTokens_short. unfold slice_from, len. rewrite len_drop. lia.
      + destruct (Z.gtb_spec (estimateTokens (AgentsInstructions c)) 2000) as [Hbig|]; [|lia].
        apply estimateTokens_short. unfold slice_to, len.
        destruct (Nat.le_gt_cases (Z.to_nat 2000) (String.length (AgentsInstructions c))).
        * rewrite len_take by assumption. lia.
        * unfold estimateTokens, len in Hbig.
          assert (Z.of_nat (String.length (AgentsInstructions c)) ÷ 4 <= 2000 ÷ 4)
            by (apply Z.quot_le_mono; lia).
          change (2000 ÷ 4) with 500 in *. lia. }
  destruct (Z.le_gt_cases
              (fold_left (fun acc f => acc + estimateTokens (Content f)) (AdditionalFiles c1)
                 (estimateTokens (Prefix c1) + estimateTokens (Suffix c1) +
                  estimateTokens (AgentsInstructions c1) +
                  estimateTokens (DiscussionContext c1))) maxTokens) as [Hin|Hover].
  { apply trimToTokenBudget_within_budget. exact Hin. }
  destruct Hc1 as [[Hd Ha]|Heq].
  - destruct (trimToTokenBudget_over_budget maxTokens c1 ltac:(lia))
      as (Hp & Hs & Hf & Hl & Hd' & Ha').
    destruct (Z.gtb_spec (estimateTokens (DiscussionContext c1)) 1000); [lia|].
    destruct (Z.gtb_spec (estimateTokens (AgentsInstructions c1)) 2000); [lia|].
    destruct (snd (trimToTokenBudget maxTokens c1)) as [p s a d fs lang].
    destruct c1 as [p1 s1 a1 d1 fs1 lang1]. simpl in *. congruence.
  - rewrite Heq. fold c1. exact Heq.
Qed.

(** X26.  The pass does not bring every context within the budget: it
    never cuts the text around the cursor, so when the estimate of that
    text alone is above the budget, the estimate of the whole context is
    still above it afterwards. *)
Theorem trimToTokenBudget_can_stay_over (maxTokens : Z) (c : CompletionContext) :
  maxTokens < estimateTokens (Prefix c) + estimateTokens (Suffix c) ->
  let c' := snd (trimToTokenBudget maxTokens c) in
  Prefix c' = Prefix c /\ Suffix c' = Suffix c /\
  maxTokens <
    fold_left (fun acc f => acc + estimateTokens (Content f)) (AdditionalFiles c')
      (estimateTokens (Prefix c') + estimateTokens (Suffix c') +
       estimateTokens (AgentsInstructions c') + estimateTokens (DiscussionContext c')).
Proof.
  intros Hbig c'.
  assert (Prefix c' = Prefix c /\ Suffix c' = Suffix c) as [Hp Hs].
  { destruct (Z.le_gt_cases
                (fold_left (fun acc f => acc + estimateTokens (Content f)) (AdditionalFiles c)
                   (estimateTokens (Prefix c) + estimateTokens (Suffix c) +
                    estimateTokens (AgentsInstructions c) +
                    estimateTokens (DiscussionContext c))) maxTokens) as [Hin|Hover].
    - unfold c'. rewrite trimToTokenBudget_within_budget by exact Hin. auto.
    - destruct (trimToTokenBudget_over_budget maxTokens c ltac:(lia)) as (? & ? & _). auto. }
  split; [exact Hp|]. split; [exact Hs|].
  rewrite Hp, Hs.
  pose proof (fold_tokens_ge (AdditionalFiles c')
                (estimateTokens (Prefix c) + estimateTokens (Suffix c) +
                 estimateTokens (AgentsInstructions c') +
                 estimateTokens (DiscussionContext c'))).
  pose proof (estimateTokens_nonneg (AgentsInstructions c')).
  pose proof (estimateTokens_nonneg (DiscussionContext c')).
  lia.
Qed.

(** A budget of 1000 tokens and 5000 bytes around the cursor. *)
Lemma trimToTokenBudget_can_stay_over_witness :
  let c' := snd (trimToTokenBudget 1000 Scenario.big_ctx) in
  Prefix c' = Prefix Scenario.big_ctx /\ Suffix c' = Suffix Scenario.big_ctx /\
  1000 <
    fold_left (fun acc f => acc + estimateTokens (Content f)) (AdditionalFiles c')
      (estimateTokens (Prefix c') + estimateTokens (Suffix c') +
       estimateTokens (AgentsInstructions c') + estimateTokens (DiscussionContext c')).
Proof.
  exact (trimToTokenBudget_can_stay_over 1000 Scenario.big_ctx ltac:(vm_compute; reflexivity)).
Defined.

End BudgetMore.

Section LanguageMore.

Import Env Gather Derived.

Context {lib : GoLib}.

(** X27.  The language label is one of the eleven of the table or
    [code], and it is [code] exactly when the extension of the path, in
    lower case, is not in the table; so the prompt always names a
    language. *)
Theorem detectLanguage_label (filePath : string) :
  let ext := strings_ToLower (filepath_Ext filePath) in
  (detectLanguage filePath ∈ labels \/ detectLanguage filePath = "code") /\
  (detectLanguage filePath = "code" <->
   ext ∉ [".go"; ".py"; ".js"; ".ts"; ".java"; ".c"; ".cpp"; ".rs"; ".rb"; ".php"; ".sh"]) /\
  detectLanguage filePath <> "".
Proof.
  intros ext. unfold detectLanguage. fold ext. unfold langMap.
  destruct (list_to_map _ !! ext) as [lang|] eqn:Hlook.
  - apply elem_of_list_to_map_2 in Hlook.
    assert (lang ∈ labels /\ ext ∈ [".go"; ".py"; ".js"; ".ts"; ".java"; ".c"; ".cpp";
                                    ".rs"; ".rb"; ".php"; ".sh"]) as [Hlang Hext].
    { repeat (apply elem_of_cons in Hlook as [[= -> ->]|Hlook];
              [split; unfold labels; set_solver|]).
      apply elem_of_nil in Hlook. contradiction. }
    split; [left; exact Hlang|]. split.
    + split; [|intros Hno; contradiction].
      intros ->. unfold labels in Hlang. set_solver.
    + intros ->. unfold labels in Hlang. set_solver.
  - apply not_elem_of_list_to_map in Hlook. simpl in Hlook.
    split; [right; reflexivity|]. split; [|discriminate].
    split; [intros _; exact Hlook|reflexivity].
Qed.

End LanguageMore.
